(** * The optimization execution engine (src/services/execution_engine.py)

    A shallow embedding of [ExecutionEngine]: the step model, the pipeline
    builder, the step runner with its retry logic, the rollback routine, the
    registry of active executions and cancellation, together with the
    properties of the engine's specification that can be settled on it.

    Conventions of the embedding:
    - Python [int] is [Z]; [str] is [string]; a [dict] with string keys is a
      [gmap string Value]; [datetime] values are integer ticks read from the
      environment.
    - The engine object ([self]), the gateway and the objects that are shared
      by reference ([ExecutionContext], [OptimizationExecution]) live in one
      [State]; contexts and execution records are addressed by location, so
      that the registry and a running pipeline see the same object.
    - An [ExecutionStep] is owned by one pipeline run and is threaded through
      the step runner next to the state.
    - A computation is a function [S -> Result A * S]: it returns or raises,
      and the mutations made before a raise stay visible.
    - The state carries a [trace]: the [log_event] calls of the source, the
      calls into the gateway, the sleeps, and (as instrumentation) the frames
      of [_execute_step] and a snapshot of the step at every statement that
      assigns its status or its retry counter. *)

From stdpp Require Import gmap strings list fin_maps pretty.
From Equations Require Import Equations.
From Stdlib Require Import ZArith Lia.

Local Open Scope string_scope.
Local Open Scope Z_scope.

(** ** Python values *)

#[local] Set Warnings "-register-all".

Inductive Value : Type :=
| VNone
| VBool (b : bool)
| VInt (n : Z)
| VStr (s : string)
| VList (l : list Value)
| VDict (kv : list (string * Value))
| VOpaque (repr : string).

Abbreviation Dict := (gmap string Value).

(** Truth value of a dict: [if d:] holds exactly for a non-empty dict. *)
Definition dict_truthy (d : Dict) : bool := negb (Nat.eqb (size d) 0).

(** [str(n)] and [datetime.isoformat()] on tick-valued timestamps. *)
Definition str_of_Z (n : Z) : string := pretty n.
Definition isoformat (t : Z) : string := pretty t.

Definition join (sep : string) (l : list string) : string :=
  match l with
  | [] => ""
  | x :: l' => foldl (fun acc y => acc ++ sep ++ y) x l'
  end.

(** [str(v)] as an f-string renders it.  A string inside a container is
    shown between single quotes, without Python's escaping; [VOpaque] stands
    for any other object and carries its own rendering. *)
Fixpoint repr_value (v : Value) : string :=
  match v with
  | VNone => "None"
  | VBool true => "True"
  | VBool false => "False"
  | VInt n => str_of_Z n
  | VStr s => "'" ++ s ++ "'"
  | VList l => "[" ++ join ", " (map repr_value l) ++ "]"
  | VDict kv =>
      "{" ++ join ", " (map (fun p => "'" ++ fst p ++ "': " ++ repr_value (snd p)) kv) ++ "}"
  | VOpaque r => r
  end.

Definition str_value (v : Value) : string :=
  match v with VStr s => s | _ => repr_value v end.

Definition dquote : string := String (Ascii.ascii_of_nat 34) EmptyString.

(** [json.dumps(v)]: [None] when the value holds an object that is not JSON
    serialisable (the call raises [TypeError]).  Strings are emitted between
    double quotes without escaping. *)
Fixpoint json_dumps (v : Value) : option string :=
  match v with
  | VNone => Some "null"
  | VBool true => Some "true"
  | VBool false => Some "false"
  | VInt n => Some (str_of_Z n)
  | VStr s => Some (dquote ++ s ++ dquote)
  | VList l =>
      items ← mapM json_dumps l;
      Some ("[" ++ join ", " items ++ "]")
  | VDict kv =>
      items ← mapM (fun p => r ← json_dumps (snd p);
                            Some (dquote ++ fst p ++ dquote ++ ": " ++ r)) kv;
      Some ("{" ++ join ", " items ++ "}")
  | VOpaque _ => None
  end.

Definition json_dumps_dict (d : Dict) : option string :=
  json_dumps (VDict (map_to_list d)).

(** Iterating a value with [for x in v]: [None] when it is not iterable. *)
Definition iterate (v : Value) : option (list Value) :=
  match v with
  | VList l => Some l
  | VDict kv => Some (map (fun p => VStr (fst p)) kv)
  | VStr s => Some (map (fun c => VStr (String c EmptyString)) (String.list_ascii_of_string s))
  | _ => None
  end.

(** ** Enumerations *)

Inductive ExecutionStatus : Type :=
| PENDING | RUNNING | COMPLETED | FAILED | ROLLED_BACK | CANCELLED.

Inductive ExecutionPhase : Type :=
| PREPARATION | VALIDATION | BACKUP | EXECUTION | VERIFICATION | COMPLETION
| ROLLBACK.

(** [OptimizationStatus] of models/optimization.py.  It has no member for a
    rolled-back execution. *)
Inductive OptimizationStatus : Type :=
| OS_DISCOVERED | OS_PENDING_APPROVAL | OS_APPROVED | OS_EXECUTING
| OS_COMPLETED | OS_FAILED | OS_CANCELLED | OS_EXPIRED.

Inductive OptimizationType : Type :=
| RIGHTSIZING | SCHEDULING | RESERVED_INSTANCES | SPOT_INSTANCES
| STORAGE_OPTIMIZATION | UNUSED_RESOURCES.

Inductive CloudProvider : Type := AWS | AZURE | GCP.

#[global] Instance ExecutionStatus_eq_dec : EqDecision ExecutionStatus.
Proof. solve_decision. Defined.
#[global] Instance ExecutionPhase_eq_dec : EqDecision ExecutionPhase.
Proof. solve_decision. Defined.
#[global] Instance OptimizationStatus_eq_dec : EqDecision OptimizationStatus.
Proof. solve_decision. Defined.
#[global] Instance OptimizationType_eq_dec : EqDecision OptimizationType.
Proof. solve_decision. Defined.

(** The [.value] of the enum members. *)
Definition ExecutionStatus_value (st : ExecutionStatus) : string :=
  match st with
  | PENDING => "pending" | RUNNING => "running" | COMPLETED => "completed"
  | FAILED => "failed" | ROLLED_BACK => "rolled_back" | CANCELLED => "cancelled"
  end.

Definition OptimizationType_value (t : OptimizationType) : string :=
  match t with
  | RIGHTSIZING => "rightsizing"
  | SCHEDULING => "scheduling"
  | RESERVED_INSTANCES => "reserved_instances"
  | SPOT_INSTANCES => "spot_instances"
  | STORAGE_OPTIMIZATION => "storage_optimization"
  | UNUSED_RESOURCES => "unused_resources"
  end.

Definition CloudProvider_value (p : CloudProvider) : string :=
  match p with AWS => "aws" | AZURE => "azure" | GCP => "gcp" end.

(** ** Records *)

(** [ExecutionStep] (dataclass). *)
Record ExecutionStep : Type := mkStep {
  step_id : string;
  step_name : string;
  step_description : string;
  step_phase : ExecutionPhase;
  step_order : Z;
  step_timeout_minutes : Z;
  step_retry_count : Z;
  step_max_retries : Z;
  step_status : ExecutionStatus;
  step_started_at : option Z;
  step_completed_at : option Z;
  step_error_message : option string;
  step_rollback_steps : list string;
  step_metadata : Dict
}.

(** The constructor call of the source: the fields without an argument take
    the dataclass defaults (retry_count 0, max_retries 3, status PENDING). *)
Definition new_step (id name description : string) (phase : ExecutionPhase)
    (order timeout_minutes : Z) (rollback_steps : list string) : ExecutionStep :=
  mkStep id name description phase order timeout_minutes 0 3 PENDING
         None None None rollback_steps ∅.

Definition set_step_status (v : ExecutionStatus) (st : ExecutionStep) :=
  mkStep (step_id st) (step_name st) (step_description st) (step_phase st)
    (step_order st) (step_timeout_minutes st) (step_retry_count st)
    (step_max_retries st) v (step_started_at st) (step_completed_at st)
    (step_error_message st) (step_rollback_steps st) (step_metadata st).

Definition set_step_started_at (v : option Z) (st : ExecutionStep) :=
  mkStep (step_id st) (step_name st) (step_description st) (step_phase st)
    (step_order st) (step_timeout_minutes st) (step_retry_count st)
    (step_max_retries st) (step_status st) v (step_completed_at st)
    (step_error_message st) (step_rollback_steps st) (step_metadata st).

Definition set_step_completed_at (v : option Z) (st : ExecutionStep) :=
  mkStep (step_id st) (step_name st) (step_description st) (step_phase st)
    (step_order st) (step_timeout_minutes st) (step_retry_count st)
    (step_max_retries st) (step_status st) (step_started_at st) v
    (step_error_message st) (step_rollback_steps st) (step_metadata st).

Definition set_step_error_message (v : option string) (st : ExecutionStep) :=
  mkStep (step_id st) (step_name st) (step_description st) (step_phase st)
    (step_order st) (step_timeout_minutes st) (step_retry_count st)
    (step_max_retries st) (step_status st) (step_started_at st)
    (step_completed_at st) v (step_rollback_steps st) (step_metadata st).

Definition set_step_retry_count (v : Z) (st : ExecutionStep) :=
  mkStep (step_id st) (step_name st) (step_description st) (step_phase st)
    (step_order st) (step_timeout_minutes st) v
    (step_max_retries st) (step_status st) (step_started_at st)
    (step_completed_at st) (step_error_message st) (step_rollback_steps st)
    (step_metadata st).

Definition set_step_metadata (v : Dict) (st : ExecutionStep) :=
  mkStep (step_id st) (step_name st) (step_description st) (step_phase st)
    (step_order st) (step_timeout_minutes st) (step_retry_count st)
    (step_max_retries st) (step_status st) (step_started_at st)
    (step_completed_at st) (step_error_message st) (step_rollback_steps st) v.

(** [ExecutionContext] (dataclass). *)
Record ExecutionContext : Type := mkContext {
  ctx_opportunity_id : string;
  ctx_execution_id : string;
  ctx_resource_id : string;
  ctx_cloud_provider : string;
  ctx_region : string;
  ctx_optimization_type : string;
  ctx_current_config : Dict;
  ctx_target_config : Dict;
  ctx_backup_data : Dict;
  ctx_execution_log : list Dict;
  ctx_rollback_data : Dict
}.

Definition set_ctx_backup_data (v : Dict) (c : ExecutionContext) :=
  mkContext (ctx_opportunity_id c) (ctx_execution_id c) (ctx_resource_id c)
    (ctx_cloud_provider c) (ctx_region c) (ctx_optimization_type c)
    (ctx_current_config c) (ctx_target_config c) v (ctx_execution_log c)
    (ctx_rollback_data c).

Definition set_ctx_execution_log (v : list Dict) (c : ExecutionContext) :=
  mkContext (ctx_opportunity_id c) (ctx_execution_id c) (ctx_resource_id c)
    (ctx_cloud_provider c) (ctx_region c) (ctx_optimization_type c)
    (ctx_current_config c) (ctx_target_config c) (ctx_backup_data c) v
    (ctx_rollback_data c).

(** The fields of [OptimizationOpportunity] that the engine reads. *)
Record OptimizationOpportunity : Type := mkOpportunity {
  opp_id : string;
  opp_resource_id : string;
  opp_optimization_type : OptimizationType;
  opp_cloud_provider : CloudProvider;
  opp_region : string;
  opp_estimated_execution_time : Z
}.

(** [OptimizationExecution]: the columns the engine sets, and the two
    rollback flags.  A column the engine never assigns is [None] on the
    object; the column default ([False] for both flags) is what gets stored. *)
Record OptimizationExecution : Type := mkExecution {
  exec_id : string;
  exec_opportunity_id : string;
  exec_status : OptimizationStatus;
  exec_started_at : Z;
  exec_completed_at : option Z;
  exec_error_message : option string;
  exec_rollback_required : option bool;
  exec_rollback_completed : option bool;
  exec_executed_by : string
}.

Definition set_exec_status (v : OptimizationStatus) (e : OptimizationExecution) :=
  mkExecution (exec_id e) (exec_opportunity_id e) v (exec_started_at e)
    (exec_completed_at e) (exec_error_message e) (exec_rollback_required e)
    (exec_rollback_completed e) (exec_executed_by e).

Definition set_exec_completed_at (v : option Z) (e : OptimizationExecution) :=
  mkExecution (exec_id e) (exec_opportunity_id e) (exec_status e)
    (exec_started_at e) v (exec_error_message e) (exec_rollback_required e)
    (exec_rollback_completed e) (exec_executed_by e).

Definition set_exec_error_message (v : option string) (e : OptimizationExecution) :=
  mkExecution (exec_id e) (exec_opportunity_id e) (exec_status e)
    (exec_started_at e) (exec_completed_at e) v (exec_rollback_required e)
    (exec_rollback_completed e) (exec_executed_by e).

(** The stored value of the two flags: the column default is [False]. *)
Definition rollback_required (e : OptimizationExecution) : bool :=
  default false (exec_rollback_required e).
Definition rollback_completed (e : OptimizationExecution) : bool :=
  default false (exec_rollback_completed e).

(** ** Exceptions and results *)

Inductive ExcKind : Type :=
| KException
| KValueError
| KTypeError
| KAttributeError
| KKeyError
| KGateway (name : string).

(** An exception object; [exc_msg] is [str(e)].  Every kind is a subclass of
    [Exception], so [except Exception] catches all of them. *)
Record Exc : Type := mkExc { exc_kind : ExcKind; exc_msg : string }.

Inductive Result (A : Type) : Type :=
| Ok (a : A)
| Raise (e : Exc).
Arguments Ok {A} a.
Arguments Raise {A} e.

Definition is_ok {A} (r : Result A) : bool :=
  match r with Ok _ => true | Raise _ => false end.

(** ** The trace *)

Inductive GatewayCall : Type :=
| GValidateConnection (provider : string)
| GResourceExists (resource_id provider : string)
| GGetResourceConfig (resource_id provider : string)
| GCreateResourceBackup (resource_id provider : string)
| GRestoreResourceFromBackup (resource_id provider : string) (backup : Dict)
| GUpdateResourceTags (resource_id provider : string) (tags : Dict).

Inductive Event : Type :=
| EvLog (event_type : string) (data : list (string * Value))
| EvGateway (call : GatewayCall)
| EvSleep (seconds : Z)
| EvEnter (function : string)
| EvLeave (function : string)
| EvStep (id : string) (status : ExecutionStatus) (retry_count max_retries : Z).

Definition is_restore_call (ev : Event) : bool :=
  match ev with EvGateway (GRestoreResourceFromBackup _ _ _) => true | _ => false end.

Definition is_sleep (ev : Event) : bool :=
  match ev with EvSleep _ => true | _ => false end.

Definition is_step_event (ev : Event) : bool :=
  match ev with EvStep _ _ _ _ => true | _ => false end.

Definition is_log (name : string) (ev : Event) : bool :=
  match ev with EvLog n _ => bool_decide (n = name) | _ => false end.

(** An attempt of a step starts with the assignment [step.status = RUNNING]. *)
Definition is_attempt (ev : Event) : bool :=
  match ev with EvStep _ RUNNING _ _ => true | _ => false end.

Definition count_events (p : Event -> bool) (tr : list Event) : nat :=
  length (List.filter p tr).

(** Deepest nesting of live frames of [fn] along a trace, starting from
    [depth] live frames. *)
Fixpoint max_depth_from (fn : string) (depth : nat) (tr : list Event) : nat :=
  match tr with
  | [] => depth
  | EvEnter f :: tr' =>
      if bool_decide (f = fn)
      then Nat.max depth (max_depth_from fn (S depth) tr')
      else max_depth_from fn depth tr'
  | EvLeave f :: tr' =>
      if bool_decide (f = fn)
      then Nat.max depth (max_depth_from fn (Nat.pred depth) tr')
      else max_depth_from fn depth tr'
  | _ :: tr' => max_depth_from fn depth tr'
  end.

Definition max_depth (fn : string) (tr : list Event) : nat := max_depth_from fn 0 tr.

(** ** The registry and the state *)

Definition loc := nat.

(** The six bound methods stored in [execution_handlers]. *)
Inductive Handler : Type :=
| H_execute_rightsizing
| H_execute_scheduling
| H_execute_unused_resource_removal
| H_execute_storage_optimization
| H_execute_reserved_instance_purchase
| H_execute_spot_instance_migration.

(** A value of [active_executions]: the dict with the keys "execution",
    "context" and "status"; the first two are references. *)
Record ActiveEntry : Type := mkEntry {
  entry_execution : loc;
  entry_context : loc;
  entry_status : ExecutionStatus
}.

Section Engine.

(** [G] is the state of everything outside the engine: the cloud behind the
    gateway, the clock and the source of UUIDs. *)
Context {G : Type}.

Record State : Type := mkState {
  gw : G;
  trace : list Event;
  contexts : list ExecutionContext;
  executions : list OptimizationExecution;
  active_executions : gmap string ActiveEntry;
  execution_handlers : gmap string Handler
}.

(** The collaborators of the engine.  [CloudProviderService] is used through
    the six methods below; each may return or raise. *)
Record Env : Type := mkEnv {
  validate_connection : string -> G -> Result bool * G;
  resource_exists : string -> string -> G -> Result bool * G;
  get_resource_config : string -> string -> G -> Result Dict * G;
  create_resource_backup : string -> string -> G -> Result Dict * G;
  restore_resource_from_backup : string -> string -> Dict -> G -> Result unit * G;
  update_resource_tags : string -> string -> Dict -> G -> Result unit * G;
  uuid4 : G -> string * G;
  now : G -> Z * G
}.

Definition set_gw (v : G) (s : State) : State :=
  mkState v (trace s) (contexts s) (executions s) (active_executions s)
          (execution_handlers s).
Definition set_trace (v : list Event) (s : State) : State :=
  mkState (gw s) v (contexts s) (executions s) (active_executions s)
          (execution_handlers s).
Definition set_contexts (v : list ExecutionContext) (s : State) : State :=
  mkState (gw s) (trace s) v (executions s) (active_executions s)
          (execution_handlers s).
Definition set_executions (v : list OptimizationExecution) (s : State) : State :=
  mkState (gw s) (trace s) (contexts s) v (active_executions s)
          (execution_handlers s).
Definition set_active_executions (v : gmap string ActiveEntry) (s : State) : State :=
  mkState (gw s) (trace s) (contexts s) (executions s) v (execution_handlers s).
Definition set_execution_handlers (v : gmap string Handler) (s : State) : State :=
  mkState (gw s) (trace s) (contexts s) (executions s) (active_executions s) v.

(** [ExecutionEngine.__init__]: both dicts start empty. *)
Definition init (g : G) : State := mkState g [] [] [] ∅ ∅.

End Engine.
Arguments State G : clear implicits.
Arguments Env G : clear implicits.

(** ** Computations that return or raise *)

Definition M (S A : Type) : Type := S -> Result A * S.

Definition ret {S A} (a : A) : M S A := fun s => (Ok a, s).

Definition bind {S A B} (m : M S A) (k : A -> M S B) : M S B :=
  fun s => match m s with
           | (Ok a, s') => k a s'
           | (Raise e, s') => (Raise e, s')
           end.

Definition raise {S A} (e : Exc) : M S A := fun s => (Raise e, s).

(** [try: m  except Exception as e: h e] *)
Definition try_except {S A} (m : M S A) (h : Exc -> M S A) : M S A :=
  fun s => match m s with
           | (Ok a, s') => (Ok a, s')
           | (Raise e, s') => h e s'
           end.

(** [try: m  finally: f] *)
Definition try_finally {S A} (m : M S A) (f : M S unit) : M S A :=
  fun s => match m s with
           | (r, s') => match f s' with
                        | (Ok _, s'') => (r, s'')
                        | (Raise e, s'') => (Raise e, s'')
                        end
           end.

Definition gets {S A} (f : S -> A) : M S A := fun s => (Ok (f s), s).
Definition modify {S} (f : S -> S) : M S unit := fun s => (Ok tt, f s).

#[global] Instance M_ret S : MRet (M S) := fun A => @ret S A.
#[global] Instance M_bind S : MBind (M S) := fun A B k m => bind m k.

(** A computation on the state, run next to a step object. *)
Definition on_state {S A} (m : M S A) : M (ExecutionStep * S) A :=
  fun ss => match m (snd ss) with (r, s') => (r, (fst ss, s')) end.

Definition the_step {S} : M (ExecutionStep * S) ExecutionStep :=
  fun ss => (Ok (fst ss), ss).

Definition update_step {S} (f : ExecutionStep -> ExecutionStep) : M (ExecutionStep * S) unit :=
  fun ss => (Ok tt, (f (fst ss), snd ss)).

#[global] Instance ExecutionContext_inhabited : Inhabited ExecutionContext :=
  populate (mkContext "" "" "" "" "" "" ∅ ∅ ∅ [] ∅).
#[global] Instance OptimizationExecution_inhabited : Inhabited OptimizationExecution :=
  populate (mkExecution "" "" OS_DISCOVERED 0 None None None None "").

Section Primitives.
Context {G : Type} (env : Env G).

Definition emit (ev : Event) : M (State G) unit :=
  modify (fun s => set_trace (trace s ++ [ev]) s).

(** [log_event(event_type, data)] of core/monitoring.py: it never raises. *)
Definition log_event (event_type : string) (data : list (string * Value)) : M (State G) unit :=
  emit (EvLog event_type data).

(** [await asyncio.sleep(seconds)] *)
Definition asyncio_sleep (seconds : Z) : M (State G) unit := emit (EvSleep seconds).

(** A call of a method of [self.cloud_provider_service]. *)
Definition gateway {A} (call : GatewayCall) (op : G -> Result A * G) : M (State G) A :=
  fun s => match op (gw s) with
           | (r, g') => (r, set_gw g' (set_trace (trace s ++ [EvGateway call]) s))
           end.

(** [datetime.now()] and [datetime.utcnow()] *)
Definition datetime_now : M (State G) Z :=
  fun s => match now env (gw s) with (t, g') => (Ok t, set_gw g' s) end.

(** [str(uuid.uuid4())] *)
Definition fresh_uuid : M (State G) string :=
  fun s => match uuid4 env (gw s) with (u, g') => (Ok u, set_gw g' s) end.

(** Object creation and field access for the two shared record types.  A
    location always comes from an allocation, so the lookups below are in
    range in every run of the engine. *)
Definition new_context (c : ExecutionContext) : M (State G) loc :=
  fun s => (Ok (length (contexts s)), set_contexts (contexts s ++ [c]) s).
Definition context_at (l : loc) (s : State G) : ExecutionContext := contexts s !!! l.
Definition read_context (l : loc) : M (State G) ExecutionContext := gets (context_at l).
Definition update_context (l : loc) (f : ExecutionContext -> ExecutionContext) : M (State G) unit :=
  modify (fun s => set_contexts (alter f l (contexts s)) s).

Definition new_execution (e : OptimizationExecution) : M (State G) loc :=
  fun s => (Ok (length (executions s)), set_executions (executions s ++ [e]) s).
Definition execution_at (l : loc) (s : State G) : OptimizationExecution := executions s !!! l.
Definition read_execution (l : loc) : M (State G) OptimizationExecution := gets (execution_at l).
Definition update_execution (l : loc) (f : OptimizationExecution -> OptimizationExecution) : M (State G) unit :=
  modify (fun s => set_executions (alter f l (executions s)) s).

End Primitives.

(** ** Target configuration

    [_calculate_target_config] works on dict objects: [current_config.copy()]
    creates a new dict and the assignments go to the copy.  The dicts live in
    a heap of their own, so that the frame of the function can be stated. *)

Definition dict_copy (d : loc) (h : list Dict) : loc * list Dict :=
  (length h, (h ++ [h !!! d])%list).

(** [d[key] = v] *)
Definition dict_setitem (d : loc) (key : string) (v : Value) (h : list Dict) : list Dict :=
  alter (insert key v) d h.

Definition _calculate_optimal_instance_size (current_config : Dict)
    (opportunity : OptimizationOpportunity) : string := "t3.medium".

Definition _calculate_optimal_storage_class (current_config : Dict)
    (opportunity : OptimizationOpportunity) : string := "STANDARD_IA".

Definition scheduling_config : Value :=
  VDict [("start_schedule", VStr "0 8 * * 1-5");
         ("stop_schedule", VStr "0 18 * * 1-5");
         ("timezone", VStr "UTC")].

Definition _calculate_target_config (opportunity : OptimizationOpportunity)
    (current_config : loc) (h : list Dict) : loc * list Dict :=
  let '(target_config, h) := dict_copy current_config h in
  let ty := OptimizationType_value (opp_optimization_type opportunity) in
  if bool_decide (ty = "rightsizing") then
    (target_config,
     dict_setitem target_config "instance_type"
       (VStr (_calculate_optimal_instance_size (h !!! current_config) opportunity)) h)
  else if bool_decide (ty = "scheduling") then
    (target_config, dict_setitem target_config "scheduling" scheduling_config h)
  else if bool_decide (ty = "storage_optimization") then
    (target_config,
     dict_setitem target_config "storage_class"
       (VStr (_calculate_optimal_storage_class (h !!! current_config) opportunity)) h)
  else (target_config, h).

(** ** Pipeline builder *)

(** [d.get(key)] rendered inside an f-string. *)
Definition get_str (d : Dict) (key : string) : string :=
  str_value (default VNone (d !! key)).

Definition _execute_rightsizing (context : ExecutionContext) : list ExecutionStep :=
  [new_step (ctx_execution_id context ++ "_rightsizing") "Instance Rightsizing"
     ("Change instance type from " ++ get_str (ctx_current_config context) "instance_type"
        ++ " to " ++ get_str (ctx_target_config context) "instance_type")
     EXECUTION 4 20
     ["Stop instance"; "Change instance type back to original"; "Start instance"]].

Definition _execute_scheduling (context : ExecutionContext) : list ExecutionStep :=
  [new_step (ctx_execution_id context ++ "_scheduling") "Resource Scheduling"
     "Configure automatic start/stop schedule" EXECUTION 4 15
     ["Remove scheduled actions"; "Start resource manually"]].

Definition _execute_unused_resource_removal (context : ExecutionContext) : list ExecutionStep :=
  [new_step (ctx_execution_id context ++ "_removal") "Unused Resource Removal"
     "Remove unused resource" EXECUTION 4 10
     ["Restore from backup"; "Recreate resource configuration"]].

Definition _execute_storage_optimization (context : ExecutionContext) : list ExecutionStep :=
  [new_step (ctx_execution_id context ++ "_storage") "Storage Optimization"
     "Migrate to optimal storage class" EXECUTION 4 30
     ["Migrate back to original storage class"; "Remove lifecycle policies"]].

Definition _execute_reserved_instance_purchase (context : ExecutionContext) : list ExecutionStep :=
  [new_step (ctx_execution_id context ++ "_reserved") "Reserved Instance Purchase"
     "Purchase reserved instances" EXECUTION 4 5
     ["Cancel reserved instance purchase"]].

Definition _execute_spot_instance_migration (context : ExecutionContext) : list ExecutionStep :=
  [new_step (ctx_execution_id context ++ "_spot") "Spot Instance Migration"
     "Migrate to spot instances" EXECUTION 4 25
     ["Stop spot instance"; "Start on-demand instance";
      "Update load balancer configuration"]].

(** Calling a registered handler.  The second argument of the source (the
    opportunity, or the step when called from the Execution phase) is unused
    by all six handlers. *)
Definition call_handler (h : Handler) (context : ExecutionContext) : list ExecutionStep :=
  match h with
  | H_execute_rightsizing => _execute_rightsizing context
  | H_execute_scheduling => _execute_scheduling context
  | H_execute_unused_resource_removal => _execute_unused_resource_removal context
  | H_execute_storage_optimization => _execute_storage_optimization context
  | H_execute_reserved_instance_purchase => _execute_reserved_instance_purchase context
  | H_execute_spot_instance_migration => _execute_spot_instance_migration context
  end.

(** [sorted(steps, key=lambda x: x.order)]: a stable sort. *)
Fixpoint insert_by_order (x : ExecutionStep) (l : list ExecutionStep) : list ExecutionStep :=
  match l with
  | [] => [x]
  | y :: l' =>
      if step_order x <=? step_order y then x :: y :: l'
      else y :: insert_by_order x l'
  end.

Definition sorted_by_order (l : list ExecutionStep) : list ExecutionStep :=
  foldr insert_by_order [] l.

Definition base_steps (context : ExecutionContext) (opportunity : OptimizationOpportunity)
    : list ExecutionStep :=
  [ new_step (ctx_execution_id context ++ "_preparation") "Preparation"
      "Prepare execution environment" PREPARATION 1 5 [];
    new_step (ctx_execution_id context ++ "_validation") "Validation"
      "Validate current state and prerequisites" VALIDATION 2 10 [];
    new_step (ctx_execution_id context ++ "_backup") "Backup"
      "Create backup of current configuration" BACKUP 3 15 [];
    new_step (ctx_execution_id context ++ "_execution") "Execution"
      ("Execute " ++ ctx_optimization_type context ++ " optimization")
      EXECUTION 4 (opp_estimated_execution_time opportunity) [];
    new_step (ctx_execution_id context ++ "_verification") "Verification"
      "Verify optimization was successful" VERIFICATION 5 10 [];
    new_step (ctx_execution_id context ++ "_completion") "Completion"
      "Complete execution and cleanup" COMPLETION 6 5 [] ].

Section Pipeline.
Context {G : Type} (env : Env G).

Definition _register_execution_handlers : M (State G) unit :=
  modify (set_execution_handlers
    (<["rightsizing" := H_execute_rightsizing]>
     (<["scheduling" := H_execute_scheduling]>
     (<["unused_resources" := H_execute_unused_resource_removal]>
     (<["storage_optimization" := H_execute_storage_optimization]>
     (<["reserved_instances" := H_execute_reserved_instance_purchase]>
     (<["spot_instances" := H_execute_spot_instance_migration]> ∅))))))).

Definition _get_optimization_specific_steps (context : loc) : M (State G) (list ExecutionStep) :=
  c ← read_context context;
  handlers ← gets execution_handlers;
  match handlers !! ctx_optimization_type c with
  | Some handler => mret (call_handler handler c)
  | None =>
      raise (mkExc KValueError
        ("No handler found for optimization type: " ++ ctx_optimization_type c))
  end.

Definition _create_execution_steps (context : loc) (opportunity : OptimizationOpportunity)
    : M (State G) (list ExecutionStep) :=
  c ← read_context context;
  optimization_steps ← _get_optimization_specific_steps context;
  mret (sorted_by_order (base_steps c opportunity ++ optimization_steps)).

End Pipeline.

(** ** Step runner *)

Definition type_name (v : Value) : string :=
  match v with
  | VNone => "NoneType" | VBool _ => "bool" | VInt _ => "int" | VStr _ => "str"
  | VList _ => "list" | VDict _ => "dict" | VOpaque _ => "object"
  end.

(** The helper predicates of the source; all four are constant. *)
Definition _validate_prerequisite (prerequisite : Value) (context : ExecutionContext) : bool := true.
Definition _validate_target_config (target_config : Dict) (context : ExecutionContext) : bool := true.
Definition _verify_optimization_result (target_config current_config : Dict)
    (context : ExecutionContext) : bool := true.
Definition _verify_rollback_success (original_config current_config : Dict) : bool := true.

(** [for x in l: body x] *)
Fixpoint for_each {S A} (l : list A) (body : A -> M S unit) : M S unit :=
  match l with
  | [] => ret tt
  | x :: l' => bind (body x) (fun _ => for_each l' body)
  end.

Section StepRunner.
Context {G : Type} (env : Env G).

Abbreviation SS := (ExecutionStep * State G)%type.

(** [step.metadata[key] = v] *)
Definition set_metadata (key : string) (v : Value) : M SS unit :=
  update_step (fun st => set_step_metadata (<[key := v]> (step_metadata st)) st).

(** Instrumentation: records the step as it is now. *)
Definition observe_step : M SS unit :=
  fun ss => on_state (emit (EvStep (step_id (fst ss)) (step_status (fst ss))
                              (step_retry_count (fst ss)) (step_max_retries (fst ss)))) ss.

(** [step.status = v] *)
Definition assign_status (v : ExecutionStatus) : M SS unit :=
  update_step (set_step_status v);; observe_step.

Definition _execute_preparation_step (context : loc) : M SS unit :=
  c ← on_state (read_context context);
  _ ← on_state (gateway (GValidateConnection (ctx_cloud_provider c))
                  (validate_connection env (ctx_cloud_provider c)));
  c ← on_state (read_context context);
  resource_exists ← on_state
    (gateway (GResourceExists (ctx_resource_id c) (ctx_cloud_provider c))
       (resource_exists env (ctx_resource_id c) (ctx_cloud_provider c)));
  if negb resource_exists
  then raise (mkExc KException ("Resource " ++ ctx_resource_id c ++ " not found"))
  else set_metadata "preparation_completed" (VBool true).

Definition _execute_validation_step (context : loc) : M SS unit :=
  c ← on_state (read_context context);
  let prerequisites := default (VList []) (ctx_current_config c !! "prerequisites") in
  match iterate prerequisites with
  | None =>
      raise (mkExc KTypeError ("'" ++ type_name prerequisites ++ "' object is not iterable"))
  | Some l =>
      for_each l (fun prerequisite =>
        if negb (_validate_prerequisite prerequisite c)
        then raise (mkExc KException ("Prerequisite not met: " ++ str_value prerequisite))
        else ret tt);;
      if negb (_validate_target_config (ctx_target_config c) c)
      then raise (mkExc KException "Target configuration is invalid")
      else set_metadata "validation_completed" (VBool true)
  end.

Definition _execute_backup_step (context : loc) : M SS unit :=
  c ← on_state (read_context context);
  backup_data ← on_state
    (gateway (GCreateResourceBackup (ctx_resource_id c) (ctx_cloud_provider c))
       (create_resource_backup env (ctx_resource_id c) (ctx_cloud_provider c)));
  on_state (update_context context (set_ctx_backup_data backup_data));;
  set_metadata "backup_completed" (VBool true);;
  match json_dumps_dict backup_data with
  | Some text => set_metadata "backup_size" (VInt (Z.of_nat (String.length text)))
  | None => raise (mkExc KTypeError "Object is not JSON serializable")
  end.

Definition _execute_optimization_step (context : loc) : M SS unit :=
  c ← on_state (read_context context);
  handlers ← on_state (gets execution_handlers);
  match handlers !! ctx_optimization_type c with
  | Some handler => let _ := call_handler handler c in ret tt
  | None =>
      raise (mkExc KException
        ("No handler for optimization type: " ++ ctx_optimization_type c))
  end.

Definition _execute_verification_step (context : loc) : M SS unit :=
  c ← on_state (read_context context);
  current_config ← on_state
    (gateway (GGetResourceConfig (ctx_resource_id c) (ctx_cloud_provider c))
       (get_resource_config env (ctx_resource_id c) (ctx_cloud_provider c)));
  c ← on_state (read_context context);
  if negb (_verify_optimization_result (ctx_target_config c) current_config c)
  then raise (mkExc KException "Optimization verification failed")
  else set_metadata "verification_completed" (VBool true).

Definition _execute_completion_step (context : loc) : M SS unit :=
  c ← on_state (read_context context);
  t ← on_state (datetime_now env);
  let tags : Dict :=
    <["optimized" := VStr "true"]>
    (<["optimization_type" := VStr (ctx_optimization_type c)]>
    (<["optimized_at" := VStr (isoformat t)]>
    (<["execution_id" := VStr (ctx_execution_id c)]> ∅))) in
  on_state (gateway (GUpdateResourceTags (ctx_resource_id c) (ctx_cloud_provider c) tags)
              (update_resource_tags env (ctx_resource_id c) (ctx_cloud_provider c) tags));;
  set_metadata "completion_completed" (VBool true).

(** The [if]/[elif] chain on [step.phase]; no branch is taken for the
    Rollback phase. *)
Definition _execute_step_dispatch (context : loc) : M SS unit :=
  step ← the_step;
  match step_phase step with
  | PREPARATION => _execute_preparation_step context
  | VALIDATION => _execute_validation_step context
  | BACKUP => _execute_backup_step context
  | EXECUTION => _execute_optimization_step context
  | VERIFICATION => _execute_verification_step context
  | COMPLETION => _execute_completion_step context
  | ROLLBACK => ret tt
  end.

(** The [try] suite of [_execute_step]: one attempt. *)
Definition _execute_step_try (context : loc) : M SS unit :=
  assign_status RUNNING;;
  t ← on_state (datetime_now env);
  update_step (set_step_started_at (Some t));;
  _execute_step_dispatch context;;
  assign_status COMPLETED;;
  t ← on_state (datetime_now env);
  update_step (set_step_completed_at (Some t));;
  step ← the_step;
  on_state (log_event "execution_step_completed"
    [("step_id", VStr (step_id step)); ("step_name", VStr (step_name step));
     ("duration_seconds",
      VInt (default 0 (step_completed_at step) - default 0 (step_started_at step)))]).

(** The [except] suite of [_execute_step] up to its [if]. *)
Definition _execute_step_except (e : Exc) : M SS unit :=
  assign_status FAILED;;
  update_step (set_step_error_message (Some (exc_msg e)));;
  update_step (fun st => set_step_retry_count (step_retry_count st + 1) st);;
  observe_step;;
  step ← the_step;
  on_state (log_event "execution_step_failed"
    [("step_id", VStr (step_id step)); ("step_name", VStr (step_name step));
     ("error", VStr (exc_msg e)); ("retry_count", VInt (step_retry_count step))]).

End StepRunner.

(** ** Frame reasoning

    [frame R m]: every run of [m], returning or raising, takes a state to an
    [R]-related one. *)

Definition frame {S A} (R : relation S) (m : M S A) : Prop :=
  forall s, R s (snd (m s)).

Section Frame.
Context {S : Type} (R : relation S) (HR : PreOrder R).

Lemma frame_ret {A} (a : A) : frame R (ret (S:=S) a).
Proof. intros s. reflexivity. Qed.

Lemma frame_raise {A} (e : Exc) : frame R (raise (S:=S) (A:=A) e).
Proof. intros s. reflexivity. Qed.

Lemma frame_gets {A} (f : S -> A) : frame R (gets f).
Proof. intros s. reflexivity. Qed.

Lemma frame_modify (f : S -> S) : (forall s, R s (f s)) -> frame R (modify f).
Proof. intros H s. apply H. Qed.

Lemma frame_bind {A B} (m : M S A) (k : A -> M S B) :
  frame R m -> (forall a, frame R (k a)) -> frame R (bind m k).
Proof.
  intros Hm Hk s. unfold bind. specialize (Hm s).
  destruct (m s) as [[a|e] s']; simpl in *; [|done].
  etrans; [exact Hm | apply Hk].
Qed.

Lemma frame_try_except {A} (m : M S A) (h : Exc -> M S A) :
  frame R m -> (forall e, frame R (h e)) -> frame R (try_except m h).
Proof.
  intros Hm Hh s. unfold try_except. specialize (Hm s).
  destruct (m s) as [[a|e] s']; simpl in *; [done|].
  etrans; [exact Hm | apply Hh].
Qed.

Lemma frame_try_finally {A} (m : M S A) (f : M S unit) :
  frame R m -> frame R f -> frame R (try_finally m f).
Proof.
  intros Hm Hf s. unfold try_finally. specialize (Hm s).
  destruct (m s) as [r s']. specialize (Hf s').
  destruct (f s') as [[[]|e] s'']; simpl in *; etrans; eauto.
Qed.

Lemma frame_for_each {A} (l : list A) (body : A -> M S unit) :
  (forall a, frame R (body a)) -> frame R (for_each l body).
Proof.
  intros Hb. induction l as [|x l IH]; simpl.
  - apply frame_ret.
  - apply frame_bind; [apply Hb | intros _; exact IH].
Qed.

End Frame.

(** Unfolds the notation layer and splits a frame goal along the shape of the
    computation. *)
Ltac frame_split :=
  unfold mbind, M_bind, mret, M_ret;
  repeat first
    [ apply frame_ret; tc_solve | apply frame_raise; tc_solve
    | apply frame_gets; tc_solve
    | apply frame_bind; [tc_solve | | intros ?]
    | apply frame_try_except; [tc_solve | | intros ?]
    | apply frame_try_finally; [tc_solve | | ]
    | apply frame_for_each; [tc_solve | intros ?]
    | match goal with
      | |- frame _ (match ?x with _ => _ end) => destruct x
      | |- frame _ (let _ := _ in _) => cbv zeta
      end ].

(** The retry counter and its bound are left alone. *)
Definition same_retries {S} : relation (ExecutionStep * S) :=
  fun a b => step_retry_count (fst b) = step_retry_count (fst a)
             /\ step_max_retries (fst b) = step_max_retries (fst a).

#[global] Instance same_retries_preorder S : PreOrder (@same_retries S).
Proof.
  split.
  - intros a. split; reflexivity.
  - intros a b c [H1 H2] [H3 H4]. split; congruence.
Qed.

Lemma same_retries_on_state {S A} (m : M S A) : frame same_retries (on_state m).
Proof. intros [st s]. unfold on_state. simpl. destruct (m s). split; reflexivity. Qed.

Lemma same_retries_update_step {S} (f : ExecutionStep -> ExecutionStep) :
  (forall st, step_retry_count (f st) = step_retry_count st
              /\ step_max_retries (f st) = step_max_retries st) ->
  frame (same_retries (S:=S)) (update_step f).
Proof. intros H [st s]. apply H. Qed.

Lemma same_retries_the_step {S} : frame (same_retries (S:=S)) the_step.
Proof. intros ss. reflexivity. Qed.

Section StepRunnerFrame.
Context {G : Type} (env : Env G).

Lemma same_retries_observe_step : frame same_retries (observe_step (G:=G)).
Proof. intros ss. unfold observe_step. apply same_retries_on_state. Qed.

Lemma same_retries_set_metadata key v : frame same_retries (set_metadata (G:=G) key v).
Proof. apply same_retries_update_step. intros st. split; reflexivity. Qed.

Lemma same_retries_assign_status v : frame same_retries (assign_status (G:=G) v).
Proof.
  unfold assign_status. frame_split.
  - apply same_retries_update_step. intros st. split; reflexivity.
  - apply same_retries_observe_step.
Qed.

Ltac same_retries_leaf :=
  first [ apply same_retries_on_state | apply same_retries_set_metadata
        | apply same_retries_assign_status | apply same_retries_the_step
        | apply same_retries_observe_step
        | apply same_retries_update_step; intros ?; split; reflexivity ].

Lemma same_retries_try (context : loc) : frame same_retries (_execute_step_try env context).
Proof.
  unfold _execute_step_try, _execute_step_dispatch,
    _execute_preparation_step, _execute_validation_step,
    _execute_backup_step, _execute_optimization_step, _execute_verification_step,
    _execute_completion_step.
  frame_split; try same_retries_leaf.
Qed.

End StepRunnerFrame.

(** ** The retry loop *)

Definition inspect {A} (a : A) : {b : A | a = b} := exist _ a eq_refl.

(** The number of further retries the counters of a step allow. *)
Definition retries_left (st : ExecutionStep) : nat :=
  Z.to_nat (step_max_retries st - step_retry_count st).

Section ExecuteStep.
Context {G : Type} (env : Env G).

Abbreviation SS := (ExecutionStep * State G)%type.

Definition enter_frame (ss : SS) : SS := snd (on_state (emit (EvEnter "_execute_step")) ss).
Definition leave_frame (ss : SS) : SS := snd (on_state (emit (EvLeave "_execute_step")) ss).

(** [_execute_step(step, context)].  A failed attempt that may be retried
    sleeps five seconds and calls [_execute_step] again from inside the
    [except] suite; the frame of the caller stays live until that call is
    over.  An exception raised by the inner call is not caught again: it
    leaves the [except] suite of the caller. *)
Equations? _execute_step (context : loc) (ss : SS) : Result unit * SS
  by wf (retries_left (fst ss)) lt :=
_execute_step context ss with inspect (_execute_step_try env context (enter_frame ss)) := {
  | exist _ (Ok _, ss1) _ => (Ok tt, leave_frame ss1)
  | exist _ (Raise e, ss1) Htry with inspect (snd (_execute_step_except e ss1)) := {
    | exist _ ss2 Hexc with inspect (step_retry_count (fst ss2) <? step_max_retries (fst ss2)) := {
      | exist _ true Hlt =>
          match _execute_step context (snd (on_state (asyncio_sleep 5) ss2)) with
          | (r, ss3) => (r, leave_frame ss3)
          end
      | exist _ false _ => (Raise e, leave_frame ss2) } } }.
Proof.
  match type of Htry with
  | _ _ _ ?ss0 = _ => pose proof (same_retries_try env context ss0) as [Hrc Hmr]
  end.
  rewrite Htry in Hrc, Hmr. simpl in Hrc, Hmr.
  apply Z.ltb_lt in Hlt. unfold retries_left. simpl. lia.
Qed.

End ExecuteStep.

(** ** Rollback, pipeline driver and the engine's entry points *)

(** The call [self._rollback_execution(context, step)] of the pipeline
    driver.  The method takes one argument besides [self], so the call raises
    [TypeError] before the body of the method runs. *)
Definition _rollback_execution_with_step {S} : M S bool :=
  raise (mkExc KTypeError
    "ExecutionEngine._rollback_execution() takes 2 positional arguments but 3 were given").

(** The attribute access [OptimizationStatus.ROLLED_BACK]: the enum has no
    such member, so the access raises [AttributeError]. *)
Definition OptimizationStatus_ROLLED_BACK {S} : M S OptimizationStatus :=
  raise (mkExc KAttributeError "ROLLED_BACK").

Section Driver.
Context {G : Type} (env : Env G).

Definition _rollback_execution (context : loc) : M (State G) bool :=
  try_except
    (c ← read_context context;
     log_event "rollback_started"
       [("execution_id", VStr (ctx_execution_id c));
        ("resource_id", VStr (ctx_resource_id c))];;
     (if dict_truthy (ctx_backup_data c)
      then gateway (GRestoreResourceFromBackup (ctx_resource_id c) (ctx_cloud_provider c)
                      (ctx_backup_data c))
             (restore_resource_from_backup env (ctx_resource_id c) (ctx_cloud_provider c)
                (ctx_backup_data c))
      else ret tt);;
     current_config ← gateway
       (GGetResourceConfig (ctx_resource_id c) (ctx_cloud_provider c))
       (get_resource_config env (ctx_resource_id c) (ctx_cloud_provider c));
     let rollback_successful :=
       _verify_rollback_success (ctx_current_config c) current_config in
     (if rollback_successful
      then log_event "rollback_completed_successfully"
             [("execution_id", VStr (ctx_execution_id c))]
      else log_event "rollback_verification_failed"
             [("execution_id", VStr (ctx_execution_id c))]);;
     ret rollback_successful)
    (fun e =>
       c ← read_context context;
       log_event "rollback_failed"
         [("execution_id", VStr (ctx_execution_id c)); ("error", VStr (exc_msg e))];;
       ret false).

(** The record appended to [context.execution_log] after a step. *)
Definition log_record (step : ExecutionStep) : Dict :=
  <["step_id" := VStr (step_id step)]>
  (<["step_name" := VStr (step_name step)]>
  (<["status" := VStr (ExecutionStatus_value (step_status step))]>
  (<["completed_at" := from_option (fun t => VStr (isoformat t)) VNone (step_completed_at step)]>
  (<["duration_seconds" :=
       match step_completed_at step, step_started_at step with
       | Some c, Some b => VInt (c - b)
       | _, _ => VNone
       end]> ∅)))).

(** The body of the [for] loop of [_run_execution_pipeline]. *)
Definition _run_execution_pipeline_body (context : loc) : M (ExecutionStep * State G) unit :=
  try_except
    (_execute_step env context;;
     step ← the_step;
     on_state (update_context context
       (fun c => set_ctx_execution_log (ctx_execution_log c ++ [log_record step]) c));;
     if bool_decide (step_status step = FAILED)
        && (step_max_retries step <=? step_retry_count step)
     then raise (mkExc KException
            ("Step " ++ step_name step ++ " failed after " ++ str_of_Z (step_max_retries step)
               ++ " retries: " ++ from_option id "None" (step_error_message step)))
     else ret tt)
    (fun e =>
       step ← the_step;
       on_state (log_event "execution_step_failed"
         [("step_id", VStr (step_id step)); ("step_name", VStr (step_name step));
          ("error", VStr (exc_msg e))]);;
       _rollback_execution_with_step;;
       raise e).

(** [for step in execution_steps: ...]; the list returned holds the step
    objects as the loop left them. *)
Fixpoint run_steps (steps : list ExecutionStep) (context : loc) (s : State G)
    : Result unit * (list ExecutionStep * State G) :=
  match steps with
  | [] => (Ok tt, ([], s))
  | step :: rest =>
      match _run_execution_pipeline_body context (step, s) with
      | (Ok _, (step', s')) =>
          match run_steps rest context s' with
          | (r, (rest', s'')) => (r, (step' :: rest', s''))
          end
      | (Raise e, (step', s')) => (Raise e, (step' :: rest, s'))
      end
  end.

Definition _run_execution_pipeline (context : loc) (opportunity : OptimizationOpportunity)
    : M (State G) unit :=
  execution_steps ← _create_execution_steps context opportunity;
  ((fun s => match run_steps execution_steps context s with
             | (r, (_, s')) => (r, s')
             end) : M (State G) unit).

Definition _handle_execution_failure (execution context : loc) (error_message : string)
    : M (State G) unit :=
  try_except
    (e ← read_execution execution;
     log_event "execution_failure_handling_started"
       [("execution_id", VStr (exec_id e)); ("error", VStr error_message)];;
     update_execution execution (set_exec_status OS_FAILED);;
     update_execution execution (set_exec_error_message (Some error_message));;
     t ← datetime_now env;
     update_execution execution (set_exec_completed_at (Some t));;
     rollback_success ← _rollback_execution context;
     if rollback_success : bool
     then
       rolled_back ← OptimizationStatus_ROLLED_BACK;
       update_execution execution (set_exec_status rolled_back);;
       log_event "execution_rollback_successful" [("execution_id", VStr (exec_id e))]
     else
       log_event "execution_rollback_failed" [("execution_id", VStr (exec_id e))])
    (fun err =>
       e ← read_execution execution;
       log_event "execution_failure_handling_failed"
         [("execution_id", VStr (exec_id e)); ("error", VStr (exc_msg err))]).

Definition _create_execution_context (opportunity : OptimizationOpportunity) (execution : loc)
    : M (State G) loc :=
  current_config ← gateway
    (GGetResourceConfig (opp_resource_id opportunity)
       (CloudProvider_value (opp_cloud_provider opportunity)))
    (get_resource_config env (opp_resource_id opportunity)
       (CloudProvider_value (opp_cloud_provider opportunity)));
  let '(target_config, dicts) := _calculate_target_config opportunity 0%nat [current_config] in
  e ← read_execution execution;
  new_context
    (mkContext (opp_id opportunity) (exec_id e) (opp_resource_id opportunity)
       (CloudProvider_value (opp_cloud_provider opportunity)) (opp_region opportunity)
       (OptimizationType_value (opp_optimization_type opportunity))
       (dicts !!! 0%nat) (dicts !!! target_config) ∅ [] ∅).

End Driver.

Section EntryPoints.
Context {G : Type} (env : Env G).

(** [del self.active_executions[key]]: [KeyError] for a missing key. *)
Definition del_active_execution (key : string) : M (State G) unit :=
  active ← gets active_executions;
  match active !! key with
  | Some _ => modify (set_active_executions (delete key active))
  | None => raise (mkExc KKeyError key)
  end.

(** The first part of [execute_optimization], up to and including the
    registration in [active_executions].  It returns the references to the
    execution and context objects it has created. *)
Definition execute_optimization_admit (opportunity : OptimizationOpportunity)
    (approver_id : string) : M (State G) (loc * loc) :=
  log_event "optimization_execution_started"
    [("opportunity_id", VStr (opp_id opportunity));
     ("optimization_type", VStr (OptimizationType_value (opp_optimization_type opportunity)))];;
  id ← fresh_uuid env;
  started ← datetime_now env;
  execution ← new_execution
    (mkExecution id (opp_id opportunity) OS_EXECUTING started None None None None approver_id);
  context ← _create_execution_context env opportunity execution;
  e ← read_execution execution;
  modify (fun s => set_active_executions
    (<[exec_id e := mkEntry execution context RUNNING]> (active_executions s)) s);;
  mret (execution, context).

(** The inner [try ... except ... finally] of [execute_optimization]. *)
Definition execute_optimization_run (execution context : loc)
    (opportunity : OptimizationOpportunity) : M (State G) unit :=
  try_finally
    (try_except
       (_run_execution_pipeline env context opportunity;;
        update_execution execution (set_exec_status OS_COMPLETED);;
        t ← datetime_now env;
        update_execution execution (set_exec_completed_at (Some t));;
        e ← read_execution execution;
        log_event "optimization_execution_completed"
          [("execution_id", VStr (exec_id e)); ("opportunity_id", VStr (opp_id opportunity))])
       (fun err =>
          _handle_execution_failure env execution context (exc_msg err);;
          raise err))
    (e ← read_execution execution;
     active ← gets active_executions;
     match active !! exec_id e with
     | Some _ => del_active_execution (exec_id e)
     | None => ret tt
     end).

(** [execute_optimization].  The [traceback] entry of the last log call is
    left out of its data. *)
Definition execute_optimization (opportunity : OptimizationOpportunity) (approver_id : string)
    : M (State G) loc :=
  try_except
    ('(execution, context) ← execute_optimization_admit opportunity approver_id;
     execute_optimization_run execution context opportunity;;
     mret execution)
    (fun err =>
       log_event "optimization_execution_failed"
         [("opportunity_id", VStr (opp_id opportunity)); ("error", VStr (exc_msg err))];;
       raise err).

(** The dict returned by [get_execution_status]. *)
Record StatusReport : Type := mkReport {
  report_execution_id : string;
  report_status : string;
  report_context : option ExecutionContext;
  report_is_active : bool
}.

Definition get_execution_status (execution_id : string) : M (State G) StatusReport :=
  active ← gets active_executions;
  match active !! execution_id with
  | Some execution_data =>
      c ← read_context (entry_context execution_data);
      mret (mkReport execution_id (ExecutionStatus_value (entry_status execution_data))
              (Some c) true)
  | None => mret (mkReport execution_id "not_found" None false)
  end.

Definition cancel_execution (execution_id reason : string) : M (State G) bool :=
  try_except
    (active ← gets active_executions;
     match active !! execution_id with
     | Some execution_data =>
         _rollback_execution env (entry_context execution_data);;
         update_execution (entry_execution execution_data) (set_exec_status OS_CANCELLED);;
         update_execution (entry_execution execution_data)
           (set_exec_error_message (Some ("Cancelled: " ++ reason)));;
         del_active_execution execution_id;;
         log_event "execution_cancelled"
           [("execution_id", VStr execution_id); ("reason", VStr reason)];;
         mret true
     | None => mret false
     end)
    (fun err =>
       log_event "execution_cancellation_failed"
         [("execution_id", VStr execution_id); ("error", VStr (exc_msg err))];;
       mret false).

End EntryPoints.

(** ** A scripted cloud for concrete runs

    The configuration of the resource is fixed; the backup and tag calls fail
    a given number of times before they succeed, and the restore call fails
    or not. *)

Record Cloud : Type := mkCloud {
  cloud_clock : Z;
  cloud_uuids : nat;
  cloud_backup_failures : nat;
  cloud_tag_failures : nat;
  cloud_restore_fails : bool
}.

Definition cloud_config (resource_id provider : string) : Dict :=
  <["id" := VStr resource_id]>
  (<["provider" := VStr provider]>
  (<["status" := VStr "running"]>
  (<["instance_type" := VStr "t3.large"]>
  (<["prerequisites" := VList []]> ∅)))).

Definition cloud_env : Env Cloud := {|
  validate_connection := fun _ g => (Ok true, g);
  resource_exists := fun _ _ g => (Ok true, g);
  get_resource_config := fun r p g => (Ok (cloud_config r p), g);
  create_resource_backup := fun r p g =>
    match cloud_backup_failures g with
    | O => (Ok (<["resource_id" := VStr r]>
                (<["configuration" := VDict (map_to_list (cloud_config r p))]> ∅)), g)
    | S n => (Raise (mkExc (KGateway "IOError") "backup: I/O error"),
              mkCloud (cloud_clock g) (cloud_uuids g) n (cloud_tag_failures g)
                      (cloud_restore_fails g))
    end;
  restore_resource_from_backup := fun _ _ _ g =>
    if cloud_restore_fails g
    then (Raise (mkExc (KGateway "RestoreError") "restore failed"), g)
    else (Ok tt, g);
  update_resource_tags := fun _ _ _ g =>
    match cloud_tag_failures g with
    | O => (Ok tt, g)
    | S n => (Raise (mkExc (KGateway "IOError") "tags: I/O error"),
              mkCloud (cloud_clock g) (cloud_uuids g) (cloud_backup_failures g) n
                      (cloud_restore_fails g))
    end;
  uuid4 := fun g =>
    ("exec-" ++ pretty (cloud_uuids g),
     mkCloud (cloud_clock g) (S (cloud_uuids g)) (cloud_backup_failures g)
             (cloud_tag_failures g) (cloud_restore_fails g));
  now := fun g =>
    (cloud_clock g,
     mkCloud (cloud_clock g + 1) (cloud_uuids g) (cloud_backup_failures g)
             (cloud_tag_failures g) (cloud_restore_fails g))
|}.

(** An engine after [__init__] and [_register_execution_handlers]. *)
Definition started_engine (g : Cloud) : State Cloud :=
  snd (_register_execution_handlers (init g)).

Definition rightsizing_i_abc : OptimizationOpportunity :=
  mkOpportunity "opp-1" "i-abc" RIGHTSIZING AWS "us-east-1" 20.

(** Splits a conjunction of closed facts and evaluates each of them. *)
Ltac conj_compute :=
  repeat match goal with |- _ /\ _ => split end;
  try (vm_compute; reflexivity).

(** * Properties *)

(** ** Target configuration *)

(** The key that [_calculate_target_config] assigns for an optimization type. *)
Definition optimization_key (t : OptimizationType) : option string :=
  match t with
  | RIGHTSIZING => Some "instance_type"
  | SCHEDULING => Some "scheduling"
  | STORAGE_OPTIMIZATION => Some "storage_class"
  | _ => None
  end.

Lemma dict_copy_spec (d : loc) (h : list Dict) :
  dict_copy d h = (length h, (h ++ [h !!! d])%list).
Proof. reflexivity. Qed.

Lemma lookup_snoc_old {A} (h : list A) (x : A) (l : nat) :
  (l < length h)%nat -> (h ++ [x])%list !! l = h !! l.
Proof. intros Hl. by rewrite lookup_app_l. Qed.

Lemma dict_setitem_new (h : list Dict) (d : Dict) (key : string) (v : Value) :
  dict_setitem (length h) key v (h ++ [d])%list = (h ++ [<[key := v]> d])%list.
Proof.
  unfold dict_setitem. apply list_eq. intros i.
  rewrite list_lookup_alter. case_decide as Hi.
  - subst i. rewrite !lookup_app_r by lia. by rewrite Nat.sub_diag.
  - destruct (decide (i < length h)%nat).
    + by rewrite !lookup_app_l by lia.
    + rewrite !lookup_app_r by lia.
      destruct (i - length h)%nat as [|k] eqn:E; [lia | done].
Qed.

(** C10.  [_calculate_target_config] returns a new dict: every dict that
    existed before the call, the input [current_config] among them, is
    unchanged; the returned dict agrees with [current_config] on every key
    other than the one key of the optimization type; and for a type without
    such a key it equals [current_config]. *)
Theorem calculate_target_config_frame
    (opportunity : OptimizationOpportunity) (current_config : loc) (h : list Dict) :
  let target_config := fst (_calculate_target_config opportunity current_config h) in
  let h' := snd (_calculate_target_config opportunity current_config h) in
  target_config = length h
  /\ (forall l : loc, (l < length h)%nat -> h' !! l = h !! l)
  /\ (forall key : string,
        optimization_key (opp_optimization_type opportunity) <> Some key ->
        (h' !!! target_config) !! key = (h !!! current_config) !! key)
  /\ (optimization_key (opp_optimization_type opportunity) = None ->
        h' !!! target_config = h !!! current_config).
Proof.
  unfold _calculate_target_config. rewrite dict_copy_spec.
  destruct (opp_optimization_type opportunity); simpl;
    repeat (case_bool_decide; try discriminate); simpl;
    rewrite ?dict_setitem_new;
    (split; [reflexivity |]);
    (split; [intros l Hl; by apply lookup_snoc_old |]);
    (split; [intros key Hkey | intros Hnone; try discriminate]);
    rewrite ?list_lookup_total_middle by reflexivity;
    try reflexivity;
    by (rewrite lookup_insert_ne; [reflexivity | congruence]).
Qed.

Example calculate_target_config_rightsizing :
  _calculate_target_config rightsizing_i_abc 0%nat [cloud_config "i-abc" "aws"]
  = (1%nat, [cloud_config "i-abc" "aws";
             <["instance_type" := VStr "t3.medium"]> (cloud_config "i-abc" "aws")]).
Proof. reflexivity. Qed.

(** ** The step runner *)

(** The gateway calls a phase action makes: all but the restore call. *)
Definition is_phase_call (ev : Event) : bool :=
  match ev with
  | EvGateway (GRestoreResourceFromBackup _ _ _) => false
  | EvGateway _ => true
  | _ => false
  end.

(** The events emitted between two states, when the trace has only grown. *)
Definition events_since {G} (s s' : State G) : list Event :=
  drop (length (trace s)) (trace s').

Lemma events_since_app {G} (s s' : State G) (new : list Event) :
  trace s' = (trace s ++ new)%list -> events_since s s' = new.
Proof. intros H. unfold events_since. rewrite H. apply drop_app_length. Qed.

(** Only calls of phase actions are added to the trace. *)
Definition calls_only {G} : relation (State G) :=
  fun a b => exists calls, trace b = (trace a ++ calls)%list
                           /\ Forall (fun ev => is_phase_call ev = true) calls.

#[global] Instance calls_only_preorder G : PreOrder (@calls_only G).
Proof.
  split.
  - intros a. exists []. split; [by rewrite app_nil_r | constructor].
  - intros a b c (l1 & H1 & F1) (l2 & H2 & F2). exists (l1 ++ l2)%list.
    split; [by rewrite H2, H1, app_assoc | by apply Forall_app].
Qed.

(** The fields of a step that its phase action leaves alone. *)
Definition step_key (st : ExecutionStep) : string * ExecutionStatus * Z * Z :=
  (step_id st, step_status st, step_retry_count st, step_max_retries st).

Definition phase_frame {G} : relation (ExecutionStep * State G) :=
  fun a b => step_key (fst b) = step_key (fst a) /\ calls_only (snd a) (snd b).

#[global] Instance phase_frame_preorder G : PreOrder (@phase_frame G).
Proof.
  split.
  - intros a. split; reflexivity.
  - intros a b c [H1 H2] [H3 H4]. split; [congruence | by etrans].
Qed.

Section StepRunnerSpec.
Context {G : Type} (env : Env G).

Lemma calls_only_gateway {A} call (op : G -> Result A * G) :
  is_phase_call (EvGateway call) = true -> frame calls_only (gateway call op).
Proof.
  intros Hcall s. unfold gateway. destruct (op (gw s)) as [r g']. simpl.
  exists [EvGateway call]. split; [reflexivity | by repeat constructor].
Qed.

Lemma calls_only_quiet {A} (m : M (State G) A) :
  (forall s, trace (snd (m s)) = trace s) -> frame calls_only m.
Proof.
  intros H s. exists []. split; [by rewrite app_nil_r | constructor].
Qed.

Lemma phase_frame_on_state {A} (m : M (State G) A) :
  frame calls_only m -> frame phase_frame (on_state m).
Proof.
  intros H [st s]. unfold on_state. simpl. specialize (H s).
  destruct (m s) as [r s']. split; [reflexivity | exact H].
Qed.

Lemma phase_frame_set_metadata key v : frame phase_frame (set_metadata (G:=G) key v).
Proof. intros [st s]. split; reflexivity. Qed.

Lemma phase_frame_the_step : frame phase_frame (the_step (S:=State G)).
Proof. intros ss. reflexivity. Qed.

Lemma calls_only_datetime_now : frame calls_only (datetime_now env).
Proof.
  apply calls_only_quiet. intros s. unfold datetime_now.
  by destruct (now env (gw s)).
Qed.

Ltac phase_leaf :=
  first [ apply phase_frame_set_metadata | apply phase_frame_the_step
        | apply phase_frame_on_state;
          first [ apply calls_only_gateway; reflexivity | apply calls_only_datetime_now
                | apply calls_only_quiet; intros ?; reflexivity ] ].

Lemma phase_frame_dispatch (context : loc) :
  frame phase_frame (_execute_step_dispatch env context).
Proof.
  unfold _execute_step_dispatch, _execute_preparation_step, _execute_validation_step,
    _execute_backup_step, _execute_optimization_step, _execute_verification_step,
    _execute_completion_step.
  frame_split; try phase_leaf.
Qed.

End StepRunnerSpec.

(** The trace of one call of [_execute_step] on a step [id] with bound [mr]:
    [step_run id mr rc r rc' tr] describes a call that starts with the
    counter at [rc], ends with result [r] and the counter at [rc'], and
    emits [tr]. *)
Inductive step_run (id : string) (mr : Z) : Z -> Result unit -> Z -> list Event -> Prop :=
| run_completed rc calls data :
    Forall (fun ev => is_phase_call ev = true) calls ->
    step_run id mr rc (Ok tt) rc
      ([EvEnter "_execute_step"; EvStep id RUNNING rc mr] ++ calls ++
       [EvStep id COMPLETED rc mr; EvLog "execution_step_completed" data;
        EvLeave "_execute_step"])
| run_exhausted rc calls e data :
    Forall (fun ev => is_phase_call ev = true) calls ->
    mr <= rc + 1 ->
    step_run id mr rc (Raise e) (rc + 1)
      ([EvEnter "_execute_step"; EvStep id RUNNING rc mr] ++ calls ++
       [EvStep id FAILED rc mr; EvStep id FAILED (rc + 1) mr;
        EvLog "execution_step_failed" data; EvLeave "_execute_step"])
| run_retried rc calls data r rc' inner :
    Forall (fun ev => is_phase_call ev = true) calls ->
    rc + 1 < mr ->
    step_run id mr (rc + 1) r rc' inner ->
    step_run id mr rc r rc'
      ([EvEnter "_execute_step"; EvStep id RUNNING rc mr] ++ calls ++
       [EvStep id FAILED rc mr; EvStep id FAILED (rc + 1) mr;
        EvLog "execution_step_failed" data; EvSleep 5] ++ inner ++
       [EvLeave "_execute_step"]).

Section ExecuteStepSpec.
Context {G : Type} (env : Env G).

Lemma _execute_step_body_eq (context : loc) (ss : ExecutionStep * State G) :
  _execute_step env context ss =
  match _execute_step_try env context (enter_frame ss) with
  | (Ok _, ss1) => (Ok tt, leave_frame ss1)
  | (Raise e, ss1) =>
      let ss2 := snd (_execute_step_except e ss1) in
      if step_retry_count (fst ss2) <? step_max_retries (fst ss2) then
        match _execute_step env context (snd (on_state (asyncio_sleep 5) ss2)) with
        | (r, ss3) => (r, leave_frame ss3)
        end
      else (Raise e, leave_frame ss2)
  end.
Proof.
  funelim (_execute_step env context ss).
  all: match goal with
       | H : _execute_step_try _ _ _ = _ |- _ => rewrite H
       end; lazy beta iota zeta.
  - by destruct a.
  - match goal with H : (_ <? _) = true |- _ => rewrite H end. reflexivity.
  - match goal with H : (_ <? _) = false |- _ => rewrite H end. reflexivity.
Qed.

Lemma _execute_step_try_spec (context : loc) (ss ss' : ExecutionStep * State G)
    (r : Result unit) :
  _execute_step_try env context ss = (r, ss') ->
  let id := step_id (fst ss) in
  let rc := step_retry_count (fst ss) in
  let mr := step_max_retries (fst ss) in
  step_id (fst ss') = id
  /\ step_retry_count (fst ss') = rc
  /\ step_max_retries (fst ss') = mr
  /\ exists calls, Forall (fun ev => is_phase_call ev = true) calls /\
       match r with
       | Ok _ =>
           step_status (fst ss') = COMPLETED /\
           exists data,
             trace (snd ss') =
             (trace (snd ss) ++ [EvStep id RUNNING rc mr] ++ calls ++
              [EvStep id COMPLETED rc mr; EvLog "execution_step_completed" data])%list
       | Raise _ =>
           trace (snd ss') = (trace (snd ss) ++ [EvStep id RUNNING rc mr] ++ calls)%list
       end.
Proof.
  destruct ss as [st s]. intros H.
  unfold _execute_step_try, assign_status, observe_step, mbind, M_bind, bind,
    update_step, on_state, datetime_now, the_step, log_event, emit, modify in H.
  cbn [fst snd] in H.
  destruct (now env _) as [t g1].
  match type of H with
  | context [_execute_step_dispatch env context ?x] =>
      pose proof (phase_frame_dispatch env context x) as [Hkey (calls & Htr & Hcalls)];
      destruct (_execute_step_dispatch env context x) as [[[]|e] [stb sb]]
  end; cbn [fst snd] in *.
  - destruct (now env _) as [t' g2]. cbn [fst snd] in H.
    injection H as <- <-. injection Hkey as Hid Hst Hrc Hmr. simpl in *.
    repeat (split; [assumption || reflexivity |]).
    exists calls. split; [assumption |]. split; [reflexivity |].
    eexists. rewrite Htr, Hid, Hrc, Hmr. simpl.
    rewrite <- !app_assoc. reflexivity.
  - injection H as <- <-. injection Hkey as Hid Hst Hrc Hmr. simpl in *.
    repeat (split; [assumption |]).
    exists calls. split; [assumption |].
    rewrite Htr. simpl. rewrite <- !app_assoc. reflexivity.
Qed.

Lemma _execute_step_except_eq (e : Exc) (st : ExecutionStep) (s : State G) :
  snd (_execute_step_except e (st, s)) =
  (set_step_retry_count (step_retry_count st + 1)
     (set_step_error_message (Some (exc_msg e)) (set_step_status FAILED st)),
   set_trace
     (trace s ++
      [EvStep (step_id st) FAILED (step_retry_count st) (step_max_retries st);
       EvStep (step_id st) FAILED (step_retry_count st + 1) (step_max_retries st);
       EvLog "execution_step_failed"
         [("step_id", VStr (step_id st)); ("step_name", VStr (step_name st));
          ("error", VStr (exc_msg e)); ("retry_count", VInt (step_retry_count st + 1))]])
     s).
Proof.
  unfold _execute_step_except, assign_status, observe_step, mbind, M_bind, bind,
    update_step, on_state, the_step, log_event, emit, modify.
  cbn. rewrite <- !app_assoc. reflexivity.
Qed.

(** Every call of [_execute_step] follows [step_run]; the step keeps its id
    and its bound, ends Completed when the call returns, and ends Failed
    with the message of the exception when the call raises. *)
Lemma _execute_step_run (context : loc) (ss ss' : ExecutionStep * State G)
    (r : Result unit) :
  _execute_step env context ss = (r, ss') ->
  step_id (fst ss') = step_id (fst ss)
  /\ step_max_retries (fst ss') = step_max_retries (fst ss)
  /\ (exists new,
        trace (snd ss') = (trace (snd ss) ++ new)%list
        /\ step_run (step_id (fst ss)) (step_max_retries (fst ss))
             (step_retry_count (fst ss)) r (step_retry_count (fst ss')) new)
  /\ match r with
     | Ok _ => step_status (fst ss') = COMPLETED
     | Raise e =>
         step_status (fst ss') = FAILED
         /\ step_error_message (fst ss') = Some (exc_msg e)
     end.
Proof.
  remember (retries_left (fst ss)) as n eqn:Hn.
  revert ss ss' r Hn. induction n as [n IH] using lt_wf_ind.
  intros [st s] ss' r Hn H. rewrite _execute_step_body_eq in H.
  destruct (_execute_step_try env context (enter_frame (st, s))) as [r1 [st1 s1]] eqn:Htry.
  apply _execute_step_try_spec in Htry.
  destruct Htry as (Hid & Hrc & Hmr & calls & Hcalls & Hshape).
  cbn [fst snd enter_frame on_state emit modify set_trace trace] in *.
  destruct r1 as [[]|e].
  - destruct Hshape as (Hst & data & Htr). injection H as <- <-.
    cbn [fst snd leave_frame on_state emit modify set_trace trace].
    repeat (split; [assumption |]). split; [| assumption].
    eexists. rewrite Htr, <- !app_assoc. split; [reflexivity |].
    rewrite Hrc. apply (run_completed _ _ _ calls data Hcalls).
  - cbv zeta in H. rewrite _execute_step_except_eq in H.
    cbn [fst snd set_step_retry_count set_step_error_message set_step_status
         step_retry_count step_max_retries] in H.
    destruct (step_retry_count st1 + 1 <? step_max_retries st1) eqn:Hlt.
    + apply Z.ltb_lt in Hlt.
      match type of H with
      | context [_execute_step env context ?x] =>
          destruct (_execute_step env context x) as [r3 [st3 s3]] eqn:Hrec
      end.
      lazy beta iota in H. injection H as <- <-.
      eapply IH in Hrec; [| | reflexivity].
      2:{ subst n. unfold retries_left. cbn. lia. }
      destruct Hrec as (Hid3 & Hmr3 & (inner & Htr3 & Hrun) & Hres).
      cbn [fst snd leave_frame on_state asyncio_sleep emit modify set_trace trace
           step_id step_max_retries step_retry_count set_step_retry_count
           set_step_error_message set_step_status] in *.
      split; [congruence |]. split; [congruence |]. split; [| exact Hres].
      eexists. rewrite Htr3, Hshape, <- !app_assoc. split; [reflexivity |].
      rewrite Hid, Hrc, Hmr in *.
      apply (run_retried _ _ _ calls _ _ _ inner Hcalls); [lia | exact Hrun].
    + apply Z.ltb_ge in Hlt. injection H as <- <-.
      cbn [fst snd leave_frame on_state emit modify set_trace trace
           step_id step_max_retries step_retry_count set_step_retry_count
           set_step_error_message set_step_status step_status step_error_message].
      split; [assumption |]. split; [assumption |]. split; [| split; reflexivity].
      eexists. rewrite Hshape, <- !app_assoc. split; [reflexivity |].
      rewrite Hid, Hrc, Hmr in *.
      apply (run_exhausted _ _ _ calls e _ Hcalls). lia.
Qed.

End ExecuteStepSpec.

(** *** Consequences of [step_run] *)

Lemma count_events_app (p : Event -> bool) (a b : list Event) :
  count_events p (a ++ b) = (count_events p a + count_events p b)%nat.
Proof. unfold count_events. by rewrite List.filter_app, length_app. Qed.

Lemma count_events_calls (p : Event -> bool) (calls : list Event) :
  (forall call, p (EvGateway call) = false) ->
  Forall (fun ev => is_phase_call ev = true) calls ->
  count_events p calls = 0%nat.
Proof.
  intros Hp Hcalls. unfold count_events.
  induction Hcalls as [|ev l Hev _ IH]; [reflexivity |].
  destruct ev; try discriminate. simpl. rewrite Hp. exact IH.
Qed.

(** The number of live frames of [fn] after a trace. *)
Fixpoint depth_after (fn : string) (depth : nat) (tr : list Event) : nat :=
  match tr with
  | [] => depth
  | EvEnter f :: tr' =>
      depth_after fn (if bool_decide (f = fn) then S depth else depth) tr'
  | EvLeave f :: tr' =>
      depth_after fn (if bool_decide (f = fn) then Nat.pred depth else depth) tr'
  | _ :: tr' => depth_after fn depth tr'
  end.

Lemma max_depth_from_ge fn d tr : (d <= max_depth_from fn d tr)%nat.
Proof.
  revert d. induction tr as [|ev tr IH]; intros d; simpl; [lia |].
  destruct ev; try apply IH; case_bool_decide; try apply IH; lia.
Qed.

Lemma max_depth_from_app fn d a b :
  max_depth_from fn d (a ++ b) =
  Nat.max (max_depth_from fn d a) (max_depth_from fn (depth_after fn d a) b).
Proof.
  revert d. induction a as [|ev a IH]; intros d; simpl.
  - pose proof (max_depth_from_ge fn d b). lia.
  - destruct ev; try apply IH; case_bool_decide; rewrite ?IH; try reflexivity; lia.
Qed.

Lemma depth_after_app fn d a b :
  depth_after fn d (a ++ b) = depth_after fn (depth_after fn d a) b.
Proof.
  revert d. induction a as [|ev a IH]; intros d; simpl; [reflexivity |].
  destruct ev; apply IH.
Qed.

Lemma max_depth_from_calls fn d calls :
  Forall (fun ev => is_phase_call ev = true) calls ->
  max_depth_from fn d calls = d /\ depth_after fn d calls = d.
Proof.
  intros Hcalls. induction Hcalls as [|ev l Hev _ IH]; [done |].
  destruct ev; try discriminate. exact IH.
Qed.

Lemma frame_name_eq : bool_decide ("_execute_step" = "_execute_step") = true.
Proof. reflexivity. Qed.

Section StepRunFacts.
Context (id : string) (mr : Z).

(** The number of attempts made in a call that starts at [rc] and ends at
    [rc']: one more than the failures when it returns, the failures when it
    raises. *)
Lemma step_run_attempts rc r rc' tr :
  step_run id mr rc r rc' tr ->
  Z.of_nat (count_events is_attempt tr) = (if is_ok r then rc' - rc + 1 else rc' - rc)
  /\ (if is_ok r then rc' + 1 <= Z.max (rc + 1) mr else rc' = Z.max (rc + 1) mr).
Proof.
  induction 1 as [rc calls data Hc | rc calls e data Hc Hex
                 | rc calls data r rc' inner Hc Hlt Hrun IH];
    rewrite ?count_events_app, ?(count_events_calls is_attempt _ (fun _ => eq_refl) Hc);
    cbn [is_ok].
  - cbn. split; lia.
  - cbn. split; lia.
  - destruct IH as [IH1 IH2].
    change (count_events is_attempt [EvLeave "_execute_step"]) with 0%nat.
    change (count_events is_attempt
              [EvEnter "_execute_step"; EvStep id RUNNING rc mr]) with 1%nat.
    change (count_events is_attempt
              [EvStep id FAILED rc mr; EvStep id FAILED (rc + 1) mr;
               EvLog "execution_step_failed" data; EvSleep 5]) with 0%nat.
    destruct (is_ok r); split; lia.
Qed.

(** Frames nest: the deepest nesting of [_execute_step] frames equals the
    number of attempts, and all of them are left at the end. *)
Lemma step_run_depth rc r rc' tr d :
  step_run id mr rc r rc' tr ->
  max_depth_from "_execute_step" d tr = (d + count_events is_attempt tr)%nat
  /\ depth_after "_execute_step" d tr = d.
Proof.
  intros Hrun. revert d.
  induction Hrun as [rc calls data Hc | rc calls e data Hc Hex
                    | rc calls data r rc' inner Hc Hlt Hrun IH]; intros d;
    rewrite ?count_events_app, ?(count_events_calls is_attempt _ (fun _ => eq_refl) Hc).
  - rewrite !max_depth_from_app, !depth_after_app.
    cbn [max_depth_from depth_after]. rewrite ?frame_name_eq.
    destruct (max_depth_from_calls "_execute_step" (S d) calls Hc) as [-> ->].
    cbn. rewrite ?frame_name_eq. cbn. split; lia.
  - rewrite !max_depth_from_app, !depth_after_app.
    cbn [max_depth_from depth_after]. rewrite ?frame_name_eq.
    destruct (max_depth_from_calls "_execute_step" (S d) calls Hc) as [-> ->].
    cbn. rewrite ?frame_name_eq. cbn. split; lia.
  - rewrite !max_depth_from_app, !depth_after_app.
    cbn [max_depth_from depth_after]. rewrite ?frame_name_eq.
    destruct (max_depth_from_calls "_execute_step" (S d) calls Hc) as [-> ->].
    destruct (IH (S d)) as [-> ->].
    cbn. rewrite ?frame_name_eq. cbn. split; lia.
Qed.

(** A retry is preceded by one sleep of five seconds. *)
Lemma step_run_sleeps rc r rc' tr :
  step_run id mr rc r rc' tr ->
  S (count_events is_sleep tr) = count_events is_attempt tr
  /\ Forall (fun ev => is_sleep ev = true -> ev = EvSleep 5) tr.
Proof.
  induction 1 as [rc calls data Hc | rc calls e data Hc Hex
                 | rc calls data r rc' inner Hc Hlt Hrun IH];
    rewrite ?count_events_app, ?(count_events_calls is_attempt _ (fun _ => eq_refl) Hc),
      ?(count_events_calls is_sleep _ (fun _ => eq_refl) Hc).
  - split; [reflexivity |].
    repeat (apply Forall_app; split); repeat constructor; try discriminate.
    eapply Forall_impl; [exact Hc |]. intros [] ?; discriminate.
  - split; [reflexivity |].
    repeat (apply Forall_app; split); repeat constructor; try discriminate.
    eapply Forall_impl; [exact Hc |]. intros [] ?; discriminate.
  - destruct IH as [IH1 IH2]. split.
    + cbn. cbn in IH1. lia.
    + repeat (apply Forall_app; split); repeat constructor; try discriminate;
        try assumption.
      eapply Forall_impl; [exact Hc |]. intros [] ?; discriminate.
Qed.

(** Every snapshot of the run is one of this step, with its bound. *)
Lemma step_run_events rc r rc' tr :
  step_run id mr rc r rc' tr ->
  Forall (fun ev => match ev with
                    | EvStep id' _ _ mr' => id' = id /\ mr' = mr
                    | _ => True
                    end) tr.
Proof.
  induction 1 as [rc calls data Hc | rc calls e data Hc Hex
                 | rc calls data r rc' inner Hc Hlt Hrun IH];
    repeat (apply Forall_app; split); repeat constructor; try assumption;
    (eapply Forall_impl; [exact Hc |]); intros [] ?; done.
Qed.

End StepRunFacts.

(** *** Retry claims *)

Section RetryClaims.
Context {G : Type} (env : Env G).

(** The first [k] attempts of the step raise and the next one returns; each
    attempt is made in the state in which the step runner makes it. *)
Fixpoint fails_then_succeeds (k : nat) (context : loc) (ss : ExecutionStep * State G) : bool :=
  match _execute_step_try env context (enter_frame ss), k with
  | (Ok _, _), O => true
  | (Raise e, ss1), S k' =>
      fails_then_succeeds k' context
        (snd (on_state (asyncio_sleep 5) (snd (_execute_step_except e ss1))))
  | _, _ => false
  end.

Lemma fails_then_succeeds_run (k : nat) (context : loc) (ss : ExecutionStep * State G) :
  step_retry_count (fst ss) + Z.of_nat k < step_max_retries (fst ss) ->
  fails_then_succeeds k context ss = true ->
  is_ok (fst (_execute_step env context ss)) = true
  /\ step_status (fst (snd (_execute_step env context ss))) = COMPLETED
  /\ step_retry_count (fst (snd (_execute_step env context ss)))
     = step_retry_count (fst ss) + Z.of_nat k.
Proof.
  revert ss. induction k as [|k IH]; intros [st s] Hk Hf;
    rewrite _execute_step_body_eq; cbn [fails_then_succeeds] in Hf;
    destruct (_execute_step_try env context (enter_frame (st, s)))
      as [[[]|e] [st1 s1]] eqn:Htry; try discriminate;
    apply _execute_step_try_spec in Htry;
    destruct Htry as (Hid & Hrc & Hmr & calls & Hcalls & Hshape);
    cbn [fst snd enter_frame on_state emit modify] in *.
  - destruct Hshape as [Hst _]. cbn [leave_frame on_state emit modify fst snd].
    repeat split; [assumption | lia].
  - cbv zeta. rewrite _execute_step_except_eq in Hf |- *.
    cbn [fst snd set_step_retry_count set_step_error_message set_step_status
         step_retry_count step_max_retries].
    assert ((step_retry_count st1 + 1 <? step_max_retries st1) = true) as ->
      by (apply Z.ltb_lt; lia).
    apply IH in Hf.
    2:{ cbn [fst snd on_state asyncio_sleep emit modify set_step_retry_count
             set_step_error_message set_step_status step_retry_count step_max_retries].
        lia. }
    destruct (_execute_step env context _) as [r3 [st3 s3]].
    cbn [fst snd leave_frame on_state asyncio_sleep emit modify set_step_retry_count
         set_step_error_message set_step_status step_retry_count step_max_retries] in *.
    destruct Hf as (Hok & Hst & Hcount). repeat split; [assumption | assumption | lia].
Qed.

(** C6.  A step that starts with [retry_count = 0], fails [k < max_retries]
    times and then succeeds ends Completed with [retry_count = k]:
    [_execute_step] returns, it does not raise. *)
Theorem retried_step_completes_with_count
    (context : loc) (ss : ExecutionStep * State G) (k : nat) :
  step_retry_count (fst ss) = 0 ->
  Z.of_nat k < step_max_retries (fst ss) ->
  fails_then_succeeds k context ss = true ->
  is_ok (fst (_execute_step env context ss)) = true
  /\ step_status (fst (snd (_execute_step env context ss))) = COMPLETED
  /\ step_retry_count (fst (snd (_execute_step env context ss))) = Z.of_nat k.
Proof.
  intros Hrc Hk Hf.
  destruct (fails_then_succeeds_run k context ss) as (Hok & Hst & Hcount);
    [lia | assumption |].
  repeat split; [assumption | assumption | lia].
Qed.

(** C4 (as the code has it).  When [_execute_step] is over, the step is
    Completed if the call returned; it is Failed exactly when the call
    raised, and then its retry counter has reached the bound:
    [retry_count = max(retry_count at the start + 1, max_retries)]. *)
Theorem failed_at_exit_means_retries_exhausted
    (context : loc) (ss : ExecutionStep * State G) :
  match fst (_execute_step env context ss) with
  | Ok _ => step_status (fst (snd (_execute_step env context ss))) = COMPLETED
  | Raise _ =>
      step_status (fst (snd (_execute_step env context ss))) = FAILED
      /\ step_max_retries (fst (snd (_execute_step env context ss)))
         <= step_retry_count (fst (snd (_execute_step env context ss)))
      /\ step_retry_count (fst (snd (_execute_step env context ss)))
         = Z.max (step_retry_count (fst ss) + 1) (step_max_retries (fst ss))
  end.
Proof.
  destruct (_execute_step env context ss) as [r ss'] eqn:H.
  apply _execute_step_run in H. destruct H as (_ & Hmr & (new & _ & Hrun) & Hres).
  apply step_run_attempts in Hrun. destruct Hrun as [_ Hend].
  cbn [fst snd]. destruct r as [[]|e]; [exact Hres |].
  cbn [is_ok] in Hend. destruct Hres as [Hst _].
  split; [assumption |]. split; lia.
Qed.

(** C5 (as the code has it).  For a step whose counters are not negative,
    a call of [_execute_step] makes at least one and at most
    [max(1, max_retries - retry_count)] attempts, hence at most
    [max_retries + 1]; each retry is a nested call of [_execute_step] made
    from the [except] suite after one sleep of five seconds, so the frames
    nest as deep as there are attempts; the counter grows by one per
    failed attempt; and a call that raises leaves the step Failed with the
    message of the exception and the counter at the bound. *)
Theorem retry_loop_is_bounded (context : loc) (ss : ExecutionStep * State G) :
  0 <= step_retry_count (fst ss) ->
  0 <= step_max_retries (fst ss) ->
  let out := _execute_step env context ss in
  let tr := events_since (snd ss) (snd (snd out)) in
  let attempts := count_events is_attempt tr in
  (1 <= attempts)%nat
  /\ Z.of_nat attempts <= Z.max 1 (step_max_retries (fst ss) - step_retry_count (fst ss))
  /\ Z.of_nat attempts <= step_max_retries (fst ss) + 1
  /\ max_depth "_execute_step" tr = attempts
  /\ S (count_events is_sleep tr) = attempts
  /\ Forall (fun ev => is_sleep ev = true -> ev = EvSleep 5) tr
  /\ match fst out with
     | Ok _ =>
         step_retry_count (fst (snd out)) = step_retry_count (fst ss) + Z.of_nat attempts - 1
     | Raise e =>
         step_retry_count (fst (snd out)) = step_retry_count (fst ss) + Z.of_nat attempts
         /\ step_status (fst (snd out)) = FAILED
         /\ step_error_message (fst (snd out)) = Some (exc_msg e)
         /\ step_max_retries (fst ss) <= step_retry_count (fst (snd out))
     end.
Proof.
  intros Hrc0 Hmr0 out tr attempts. subst out tr attempts.
  destruct (_execute_step env context ss) as [r ss'] eqn:H.
  apply _execute_step_run in H. destruct H as (_ & Hmr & (new & Htr & Hrun) & Hres).
  cbn [fst snd]. rewrite (events_since_app _ _ _ Htr).
  pose proof (step_run_attempts _ _ _ _ _ _ Hrun) as [Hatt Hend].
  pose proof (step_run_depth _ _ _ _ _ _ 0%nat Hrun) as [Hdepth _].
  pose proof (step_run_sleeps _ _ _ _ _ _ Hrun) as [Hsleep Hfive].
  unfold max_depth. rewrite Hdepth.
  destruct r as [[]|e]; cbn [is_ok] in *.
  - repeat split; try assumption; try lia.
  - destruct Hres as [Hst Hmsg]. repeat split; try assumption; try lia.
Qed.

End RetryClaims.

(** *** Concrete runs of the Backup step *)

(** The state right after an execution of [rightsizing_i_abc] was admitted
    on a started engine. *)
Definition admitted (g : Cloud) : State Cloud :=
  snd (execute_optimization_admit cloud_env rightsizing_i_abc "alice" (started_engine g)).

Definition backup_step : ExecutionStep :=
  new_step "exec-0_backup" "Backup" "Create backup of current configuration" BACKUP 3 15 [].

(** The Backup step on a cloud whose backup call fails [n] times. *)
Definition backup_run (n : nat) : Result unit * (ExecutionStep * State Cloud) :=
  _execute_step cloud_env 0%nat (backup_step, admitted (mkCloud 0 0 n 0 false)).

Definition backup_run_events (n : nat) : list Event :=
  events_since (admitted (mkCloud 0 0 n 0 false)) (snd (snd (backup_run n))).

Lemma retried_step_completes_with_count_witness :
  is_ok (fst (backup_run 2)) = true
  /\ step_status (fst (snd (backup_run 2))) = COMPLETED
  /\ step_retry_count (fst (snd (backup_run 2))) = 2.
Proof.
  apply (retried_step_completes_with_count cloud_env 0%nat
           (backup_step, admitted (mkCloud 0 0 2 0 false)) 2%nat);
    [reflexivity | reflexivity | vm_compute; reflexivity].
Defined.

Lemma retry_loop_is_bounded_witness :
  (1 <= count_events is_attempt (backup_run_events 5))%nat
  /\ Z.of_nat (count_events is_attempt (backup_run_events 5)) <= 3 + 1.
Proof.
  pose proof (retry_loop_is_bounded cloud_env 0%nat
                (backup_step, admitted (mkCloud 0 0 5 0 false))) as H.
  destruct H as (H1 & _ & H3 & _); [vm_compute; discriminate | vm_compute; discriminate |].
  split; [exact H1 | exact H3].
Defined.

(** The Backup step fails once and is retried: between the two attempts it
    is Failed with [retry_count = 1 < 3 = max_retries]; the snapshot is taken
    before the log call and the sleep. *)
Lemma failed_while_retries_remain :
  In (EvStep "exec-0_backup" FAILED 1 3) (backup_run_events 1)
  /\ ~ (3 <= 1)
  /\ step_status (fst (snd (backup_run 1))) = COMPLETED.
Proof.
  split; [vm_compute; tauto |]. split; [lia | reflexivity].
Qed.

(** The Backup step fails twice and succeeds: three frames of
    [_execute_step] are live at once, where a loop would keep one. *)
Lemma retry_nests_frames :
  max_depth "_execute_step" (backup_run_events 2) = 3%nat
  /\ ~ (max_depth "_execute_step" (backup_run_events 2) <= 1)%nat.
Proof. split; [reflexivity | vm_compute; lia]. Qed.

(** ** The pipeline: order of the steps and sequential execution *)

Definition strictly_increasing (l : list Z) : Prop :=
  forall (i j : nat) (a b : Z), (i < j)%nat -> l !! i = Some a -> l !! j = Some b -> a < b.

Definition step_event_of (ev : Event) : option (string * ExecutionStatus) :=
  match ev with EvStep id st _ _ => Some (id, st) | _ => None end.

(** The status assignments of a trace, in the order they were made. *)
Definition step_events (tr : list Event) : list (string * ExecutionStatus) :=
  omap step_event_of tr.

(** [in_sequence ids evs]: the status assignments [evs] come in blocks, one
    per step and in the order of [ids]; the block of a step is over, with
    the step Completed, before the block of the next step begins. *)
Inductive in_sequence : list string -> list (string * ExecutionStatus) -> Prop :=
| in_sequence_none ids : in_sequence ids []
| in_sequence_stop id ids blk :
    Forall (fun e => fst e = id) blk ->
    in_sequence (id :: ids) blk
| in_sequence_next id ids blk rest :
    Forall (fun e => fst e = id) blk ->
    last blk = Some (id, COMPLETED) ->
    in_sequence ids rest ->
    in_sequence (id :: ids) (blk ++ rest).

Lemma step_events_app (a b : list Event) :
  step_events (a ++ b) = (step_events a ++ step_events b)%list.
Proof. unfold step_events. apply omap_app. Qed.

Lemma step_events_calls (calls : list Event) :
  Forall (fun ev => is_phase_call ev = true) calls -> step_events calls = [].
Proof.
  induction 1 as [|ev l Hev _ IH]; [reflexivity |].
  destruct ev; try discriminate. exact IH.
Qed.

Lemma step_run_step_events id mr rc r rc' tr :
  step_run id mr rc r rc' tr ->
  Forall (fun e => fst e = id) (step_events tr)
  /\ (is_ok r = true -> last (step_events tr) = Some (id, COMPLETED)).
Proof.
  induction 1 as [rc calls data Hc | rc calls e data Hc Hex
                 | rc calls data r rc' inner Hc Hlt Hrun IH];
    rewrite ?step_events_app, ?(step_events_calls _ Hc); cbn.
  - split; [by repeat constructor | reflexivity].
  - split; [by repeat constructor | discriminate].
  - destruct IH as [IH1 IH2]. rewrite app_nil_r. split.
    + by repeat constructor.
    + intros Hok. specialize (IH2 Hok).
      destruct (step_events inner) as [|x l] eqn:E; [discriminate |].
      exact IH2.
Qed.

Definition rollback_type_error : Exc :=
  mkExc KTypeError
    "ExecutionEngine._rollback_execution() takes 2 positional arguments but 3 were given".

Section PipelineSequence.
Context {G : Type} (env : Env G).

(** One iteration of the driver's loop: it returns with the step Completed,
    or raises the [TypeError] of the call [_rollback_execution(context, step)]
    with the step Failed. *)
Lemma _run_execution_pipeline_body_spec (context : loc) (step step' : ExecutionStep)
    (s s' : State G) (r : Result unit) :
  _run_execution_pipeline_body env context (step, s) = (r, (step', s')) ->
  step_id step' = step_id step
  /\ exists new,
       trace s' = (trace s ++ new)%list
       /\ Forall (fun e => fst e = step_id step) (step_events new)
       /\ match r with
          | Ok _ =>
              last (step_events new) = Some (step_id step, COMPLETED)
              /\ step_status step' = COMPLETED
          | Raise e => step_status step' = FAILED /\ e = rollback_type_error
          end.
Proof.
  unfold _run_execution_pipeline_body, try_except, mbind, M_bind.
  unfold bind at 1.
  destruct (_execute_step env context (step, s)) as [r1 [st1 s1]] eqn:H1.
  apply _execute_step_run in H1.
  destruct H1 as (Hid & Hmr & (new & Htr & Hrun) & Hres).
  apply step_run_step_events in Hrun. destruct Hrun as [Hall Hlast].
  cbn [fst snd] in *. destruct r1 as [[]|e].
  - unfold bind, the_step, on_state, update_context, modify. cbn [fst snd].
    rewrite Hres. cbn. intros H. injection H as <- <- <-.
    split; [assumption |]. exists new. cbn. auto.
  - unfold bind, the_step, on_state, log_event, emit, modify,
      _rollback_execution_with_step, raise. cbn [fst snd].
    intros H. injection H as <- <- <-. destruct Hres as [Hst _].
    split; [assumption |]. eexists. cbn [trace set_trace].
    rewrite Htr, <- app_assoc. split; [reflexivity |].
    rewrite step_events_app. cbn. rewrite app_nil_r. auto.
Qed.

(** The loop runs the steps one after the other, in list order. *)
Lemma run_steps_in_sequence (context : loc) (steps : list ExecutionStep) (s : State G) :
  exists new,
    trace (snd (snd (run_steps env steps context s))) = (trace s ++ new)%list
    /\ in_sequence (map step_id steps) (step_events new).
Proof.
  revert s. induction steps as [|step rest IH]; intros s; cbn [run_steps].
  - exists []. cbn. split; [by rewrite app_nil_r | constructor].
  - destruct (_run_execution_pipeline_body env context (step, s))
      as [r [step' s']] eqn:Hbody.
    apply _run_execution_pipeline_body_spec in Hbody.
    destruct Hbody as (Hid & new & Htr & Hall & Hres).
    destruct r as [[]|e].
    + destruct Hres as [Hlast Hst]. specialize (IH s').
      destruct (run_steps env rest context s') as [r2 [rest' s'']].
      destruct IH as (new2 & Htr2 & Hseq). cbn [fst snd] in *.
      exists (new ++ new2)%list. rewrite Htr2, Htr, app_assoc.
      split; [reflexivity |]. rewrite step_events_app. cbn [map].
      by apply in_sequence_next.
    + cbn [fst snd]. exists new. split; [assumption |].
      cbn [map]. by apply in_sequence_stop.
Qed.

End PipelineSequence.

Lemma string_app_inv_head (p a b : string) : p ++ a = p ++ b -> a = b.
Proof. induction p as [|c p IH]; cbn; [done |]. intros H. injection H as H. auto. Qed.

Section PipelineClaims.
Context {G : Type} (env : Env G).

Lemma _create_execution_steps_eq (context : loc) (opportunity : OptimizationOpportunity)
    (s : State G) (h : Handler) :
  execution_handlers s !! ctx_optimization_type (context_at context s) = Some h ->
  _create_execution_steps context opportunity s =
  (Ok (sorted_by_order (base_steps (context_at context s) opportunity
                        ++ call_handler h (context_at context s))), s).
Proof.
  intros Hh.
  unfold _create_execution_steps, _get_optimization_specific_steps, read_context, gets,
    mbind, M_bind, bind, mret, M_ret, ret.
  by rewrite Hh.
Qed.

Lemma pipeline_ids_distinct (c : ExecutionContext) (opportunity : OptimizationOpportunity)
    (h : Handler) :
  NoDup (map step_id (sorted_by_order (base_steps c opportunity ++ call_handler h c))).
Proof.
  destruct h; cbn;
    repeat (apply NoDup_cons; split;
            [ rewrite ?not_elem_of_cons; repeat split;
              try (intros H; apply string_app_inv_head in H; discriminate);
              apply not_elem_of_nil
            | ]);
    apply NoDup_nil_2.
Qed.

(** C7 (as the code has it).  When a handler is registered for the type of
    the context, the builder returns the six generic steps with the step of
    the handler placed right after the generic Execution step: seven steps
    with distinct ids whose orders are 1, 2, 3, 4, 4, 5, 6.  The driver runs
    them in this order, one at a time: the status assignments of a step
    begin only after those of the step before it have ended with
    Completed. *)
Theorem pipeline_order_and_sequence (context : loc) (opportunity : OptimizationOpportunity)
    (s : State G) (h : Handler) :
  execution_handlers s !! ctx_optimization_type (context_at context s) = Some h ->
  exists steps,
    _create_execution_steps context opportunity s = (Ok steps, s)
    /\ steps = (take 4 (base_steps (context_at context s) opportunity)
                ++ call_handler h (context_at context s)
                ++ drop 4 (base_steps (context_at context s) opportunity))%list
    /\ map step_order steps = [1; 2; 3; 4; 4; 5; 6]
    /\ NoDup (map step_id steps)
    /\ in_sequence (map step_id steps)
         (step_events (events_since s (snd (snd (run_steps env steps context s))))).
Proof.
  intros Hh. eexists. split; [by apply _create_execution_steps_eq |].
  split; [by destruct h |]. split; [by destruct h |].
  split; [apply pipeline_ids_distinct |].
  destruct (run_steps_in_sequence env context
              (sorted_by_order (base_steps (context_at context s) opportunity
                                ++ call_handler h (context_at context s))) s)
    as (new & Htr & Hseq).
  by rewrite (events_since_app _ _ _ Htr).
Qed.

End PipelineClaims.

Lemma pipeline_order_and_sequence_witness :
  exists steps,
    _create_execution_steps 0%nat rightsizing_i_abc (admitted (mkCloud 0 0 0 0 false))
    = (Ok steps, admitted (mkCloud 0 0 0 0 false))
    /\ map step_order steps = [1; 2; 3; 4; 4; 5; 6]
    /\ in_sequence (map step_id steps)
         (step_events
            (events_since (admitted (mkCloud 0 0 0 0 false))
               (snd (snd (run_steps cloud_env steps 0%nat (admitted (mkCloud 0 0 0 0 false))))))).
Proof.
  destruct (pipeline_order_and_sequence cloud_env 0%nat rightsizing_i_abc
              (admitted (mkCloud 0 0 0 0 false)) H_execute_rightsizing)
    as (steps & H1 & _ & H3 & _ & H5); [vm_compute; reflexivity |].
  exists steps. split; [exact H1 |]. split; [exact H3 | exact H5].
Defined.

(** The pipeline built for a rightsizing opportunity has two steps of order
    4 next to each other (the generic Execution step and the step of the
    handler): the orders do not increase strictly. *)
Lemma pipeline_order_not_strict :
  exists steps,
    _create_execution_steps 0%nat rightsizing_i_abc (admitted (mkCloud 0 0 0 0 false))
    = (Ok steps, admitted (mkCloud 0 0 0 0 false))
    /\ map step_order steps = [1; 2; 3; 4; 4; 5; 6]
    /\ ~ strictly_increasing (map step_order steps).
Proof.
  eexists. split; [vm_compute; reflexivity |]. split; [reflexivity |].
  intros H.
  assert (4 < 4) by (apply (H 3%nat 4%nat); [lia | reflexivity | reflexivity]).
  lia.
Qed.

(** ** Rollback and failure handling *)

Section RollbackSpec.
Context {G : Type} (env : Env G).

Definition logged (event_type : string) (data : list (string * Value)) (s : State G) : State G :=
  set_trace (trace s ++ [EvLog event_type data]) s.

(** The restore step of [_rollback_execution]: taken only for a non-empty
    [backup_data]. *)
Definition restore_if_backed_up (c : ExecutionContext) : M (State G) unit :=
  if dict_truthy (ctx_backup_data c)
  then gateway (GRestoreResourceFromBackup (ctx_resource_id c) (ctx_cloud_provider c)
                  (ctx_backup_data c))
         (restore_resource_from_backup env (ctx_resource_id c) (ctx_cloud_provider c)
            (ctx_backup_data c))
  else ret tt.

(** [_rollback_execution] never raises: an exception of the restore call or
    of the re-read of the configuration is logged as [rollback_failed] and
    turned into the result [False]. *)
Lemma _rollback_execution_eq (context : loc) (s : State G) :
  _rollback_execution env context s =
  let c := context_at context s in
  let s0 := logged "rollback_started"
              [("execution_id", VStr (ctx_execution_id c));
               ("resource_id", VStr (ctx_resource_id c))] s in
  match restore_if_backed_up c s0 with
  | (Ok _, s1) =>
      match gateway (GGetResourceConfig (ctx_resource_id c) (ctx_cloud_provider c))
              (get_resource_config env (ctx_resource_id c) (ctx_cloud_provider c)) s1 with
      | (Ok _, s2) =>
          (Ok true, logged "rollback_completed_successfully"
                      [("execution_id", VStr (ctx_execution_id c))] s2)
      | (Raise e, s2) =>
          (Ok false, logged "rollback_failed"
                       [("execution_id", VStr (ctx_execution_id (context_at context s2)));
                        ("error", VStr (exc_msg e))] s2)
      end
  | (Raise e, s1) =>
      (Ok false, logged "rollback_failed"
                   [("execution_id", VStr (ctx_execution_id (context_at context s1)));
                    ("error", VStr (exc_msg e))] s1)
  end.
Proof.
  unfold _rollback_execution, try_except, mbind, M_bind, bind, read_context, gets,
    log_event, emit, modify, logged, restore_if_backed_up.
  cbn [fst snd]. 
  change (context_at context (set_trace _ s)) with (context_at context s).
  destruct (dict_truthy (ctx_backup_data (context_at context s))).
  - destruct (gateway _ _ _) as [[[]|e] s1]; [| reflexivity].
    destruct (gateway _ _ s1) as [[cfg|e] s2]; reflexivity.
  - unfold ret. destruct (gateway _ _ _) as [[cfg|e] s2]; reflexivity.
Qed.

End RollbackSpec.

Section FailureSpec.
Context {G : Type} (env : Env G).

(** The three assignments that mark an execution record failed. *)
Definition mark_failed (error_message : string) (t : Z) (e : OptimizationExecution)
    : OptimizationExecution :=
  set_exec_completed_at (Some t)
    (set_exec_error_message (Some error_message) (set_exec_status OS_FAILED e)).

Lemma mark_failed_alter (error_message : string) (t : Z) (execution : loc)
    (l : list OptimizationExecution) :
  alter (set_exec_completed_at (Some t)) execution
    (alter (set_exec_error_message (Some error_message)) execution
       (alter (set_exec_status OS_FAILED) execution l))
  = alter (mark_failed error_message t) execution l.
Proof. by rewrite !list_alter_alter_eq. Qed.

(** The state in which [_handle_execution_failure] calls
    [_rollback_execution]. *)
Definition failure_marked (execution : loc) (error_message : string) (s : State G) : State G :=
  let s1 := logged "execution_failure_handling_started"
              [("execution_id", VStr (exec_id (execution_at execution s)));
               ("error", VStr error_message)] s in
  set_gw (snd (now env (gw s)))
    (set_executions (alter (mark_failed error_message (fst (now env (gw s)))) execution
                       (executions s)) s1).

(** [_handle_execution_failure] never raises, and it leaves the status it
    has set at the start: after a rollback that succeeded, the assignment of
    [OptimizationStatus.ROLLED_BACK] raises [AttributeError], which the
    [except] suite logs. *)
Lemma _handle_execution_failure_eq (execution context : loc) (error_message : string)
    (s : State G) :
  _handle_execution_failure env execution context error_message s =
  let id := exec_id (execution_at execution s) in
  match _rollback_execution env context (failure_marked execution error_message s) with
  | (Ok true, s3) =>
      (Ok tt, logged "execution_failure_handling_failed"
                [("execution_id", VStr (exec_id (execution_at execution s3)));
                 ("error", VStr "ROLLED_BACK")] s3)
  | (Ok false, s3) =>
      (Ok tt, logged "execution_rollback_failed" [("execution_id", VStr id)] s3)
  | (Raise err, s3) =>
      (Ok tt, logged "execution_failure_handling_failed"
                [("execution_id", VStr (exec_id (execution_at execution s3)));
                 ("error", VStr (exc_msg err))] s3)
  end.
Proof.
  unfold _handle_execution_failure, try_except, mbind, M_bind, bind, read_execution, gets,
    update_execution, log_event, emit, modify, datetime_now, failure_marked, logged,
    OptimizationStatus_ROLLED_BACK, raise.
  destruct s as [g tr ctxs execs act hs].
  unfold set_gw, set_executions, set_trace, execution_at.
  cbn -[_rollback_execution mark_failed].
  destruct (now env g) as [t g1]. cbn -[_rollback_execution mark_failed].
  rewrite mark_failed_alter.
  match goal with
  | |- context [_rollback_execution env context ?x] =>
      destruct (_rollback_execution env context x) as [[[]|err] s3]
  end; reflexivity.
Qed.

(** The [finally] suite of [execute_optimization]. *)
Definition unregistered (execution : loc) (s : State G) : State G :=
  set_active_executions
    (delete (exec_id (execution_at execution s)) (active_executions s)) s.

Lemma execute_optimization_run_failed (execution context : loc)
    (opportunity : OptimizationOpportunity) (s s2 : State G) (e : Exc) :
  _run_execution_pipeline env context opportunity s = (Raise e, s2) ->
  execute_optimization_run env execution context opportunity s =
  (Raise e,
   unregistered execution
     (snd (_handle_execution_failure env execution context (exc_msg e) s2))).
Proof.
  intros Hp.
  unfold execute_optimization_run, try_finally, try_except, mbind, M_bind.
  unfold bind at 1. rewrite Hp. unfold bind at 1.
  rewrite _handle_execution_failure_eq. cbv zeta.
  destruct (_rollback_execution env context _) as [[[]|err] s3];
    unfold raise, bind, read_execution, gets, del_active_execution, modify, ret,
      unregistered, mbind, M_bind, bind, gets, modify;
    cbn [fst snd];
    match goal with
    | |- context [active_executions ?x !! ?k] =>
        destruct (active_executions x !! k) eqn:Hk
    end; cbn [fst snd]; rewrite ?Hk; try reflexivity;
    by rewrite delete_id.
Qed.

Lemma execute_optimization_eq (opportunity : OptimizationOpportunity) (approver_id : string)
    (s : State G) :
  execute_optimization env opportunity approver_id s =
  match execute_optimization_admit env opportunity approver_id s with
  | (Ok (execution, context), s1) =>
      match execute_optimization_run env execution context opportunity s1 with
      | (Ok _, s2) => (Ok execution, s2)
      | (Raise e, s2) =>
          (Raise e, logged "optimization_execution_failed"
                      [("opportunity_id", VStr (opp_id opportunity));
                       ("error", VStr (exc_msg e))] s2)
      end
  | (Raise e, s1) =>
      (Raise e, logged "optimization_execution_failed"
                  [("opportunity_id", VStr (opp_id opportunity));
                   ("error", VStr (exc_msg e))] s1)
  end.
Proof.
  unfold execute_optimization, try_except, mbind, M_bind. unfold bind at 1.
  destruct (execute_optimization_admit env opportunity approver_id s)
    as [[[execution context]|e] s1]; [| reflexivity].
  unfold bind. destruct (execute_optimization_run env execution context opportunity s1)
    as [[[]|e] s2]; reflexivity.
Qed.

End FailureSpec.

(** ** Admission *)

Section AdmissionSpec.
Context {G : Type} (env : Env G).

(** The context object that [_create_execution_context] creates from the
    configuration read through the gateway. *)
Definition fresh_context (opportunity : OptimizationOpportunity) (execution_id : string)
    (current_config : Dict) : ExecutionContext :=
  let out := _calculate_target_config opportunity 0%nat [current_config] in
  mkContext (opp_id opportunity) execution_id (opp_resource_id opportunity)
    (CloudProvider_value (opp_cloud_provider opportunity)) (opp_region opportunity)
    (OptimizationType_value (opp_optimization_type opportunity))
    (snd out !!! 0%nat) (snd out !!! fst out) ∅ [] ∅.

Definition fresh_execution (opportunity : OptimizationOpportunity) (approver_id id : string)
    (started : Z) : OptimizationExecution :=
  mkExecution id (opp_id opportunity) OS_EXECUTING started None None None None approver_id.

Lemma lookup_total_snoc {A} `{Inhabited A} (l : list A) (x : A) :
  (l ++ [x])%list !!! length l = x.
Proof. by apply list_lookup_total_middle. Qed.

(** Admission does not look at [active_executions]: its outcome is the
    outcome of the read of the resource configuration, and on success the
    new execution is registered as Running under its own id. *)
Lemma execute_optimization_admit_eq (opportunity : OptimizationOpportunity)
    (approver_id : string) (s : State G) :
  execute_optimization_admit env opportunity approver_id s =
  let id := fst (uuid4 env (gw s)) in
  let g1 := snd (uuid4 env (gw s)) in
  let started := fst (now env g1) in
  let g2 := snd (now env g1) in
  let rid := opp_resource_id opportunity in
  let provider := CloudProvider_value (opp_cloud_provider opportunity) in
  let tr := (trace s ++
             [EvLog "optimization_execution_started"
                [("opportunity_id", VStr (opp_id opportunity));
                 ("optimization_type",
                  VStr (OptimizationType_value (opp_optimization_type opportunity)))];
              EvGateway (GGetResourceConfig rid provider)])%list in
  let execution := length (executions s) in
  let records := (executions s ++ [fresh_execution opportunity approver_id id started])%list in
  match get_resource_config env rid provider g2 with
  | (Ok current_config, g3) =>
      let context := length (contexts s) in
      (Ok (execution, context),
       mkState g3 tr (contexts s ++ [fresh_context opportunity id current_config]) records
         (<[id := mkEntry execution context RUNNING]> (active_executions s))
         (execution_handlers s))
  | (Raise e, g3) =>
      (Raise e,
       mkState g3 tr (contexts s) records (active_executions s) (execution_handlers s))
  end.
Proof.
  destruct s as [g tr ctxs execs act hs].
  unfold execute_optimization_admit, _create_execution_context, mbind, M_bind, bind,
    mret, M_ret, ret, fresh_uuid, datetime_now, new_execution, new_context, read_execution,
    gets, gateway, log_event, emit, modify, execution_at,
    set_gw, set_executions, set_trace, set_contexts, set_active_executions.
  cbn -[_calculate_target_config fresh_context fresh_execution].
  destruct (uuid4 env g) as [id g1]. cbn -[_calculate_target_config fresh_context fresh_execution].
  destruct (now env g1) as [started g2].
  cbn -[_calculate_target_config fresh_context fresh_execution].
  destruct (get_resource_config env _ _ g2) as [[cfg|e] g3];
    cbn -[_calculate_target_config fresh_context fresh_execution].
  - destruct (_calculate_target_config opportunity 0%nat [cfg]) as [tgt dicts] eqn:Htc.
    cbn -[_calculate_target_config fresh_context fresh_execution].
    rewrite !lookup_total_snoc. unfold fresh_context. rewrite Htc.
    cbn. rewrite <- app_assoc. reflexivity.
  - rewrite <- app_assoc. reflexivity.
Qed.

End AdmissionSpec.

(** ** What a pipeline run leaves alone *)

(** The execution records, the registry and the handlers are unchanged, no
    context is created, and no restore call is made. *)
Definition pipeline_frame {G} : relation (State G) :=
  fun a b =>
    executions b = executions a
    /\ active_executions b = active_executions a
    /\ execution_handlers b = execution_handlers a
    /\ length (contexts b) = length (contexts a)
    /\ exists new, trace b = (trace a ++ new)%list
                   /\ Forall (fun ev => is_restore_call ev = false) new.

#[global] Instance pipeline_frame_preorder G : PreOrder (@pipeline_frame G).
Proof.
  split.
  - intros a. repeat split. exists []. split; [by rewrite app_nil_r | constructor].
  - intros a b c (E1 & A1 & H1 & L1 & n1 & T1 & F1) (E2 & A2 & H2 & L2 & n2 & T2 & F2).
    repeat split; try congruence. exists (n1 ++ n2)%list.
    split; [by rewrite T2, T1, app_assoc | by apply Forall_app].
Qed.

Definition step_pipeline_frame {G} : relation (ExecutionStep * State G) :=
  fun a b => pipeline_frame (snd a) (snd b).

#[global] Instance step_pipeline_frame_preorder G : PreOrder (@step_pipeline_frame G).
Proof.
  split.
  - intros a. unfold step_pipeline_frame. reflexivity.
  - intros a b c H1 H2. unfold step_pipeline_frame in *. by etrans.
Qed.

Section PipelineFrame.
Context {G : Type} (env : Env G).

Lemma pipeline_frame_emit (ev : Event) :
  is_restore_call ev = false -> frame pipeline_frame (emit (G:=G) ev).
Proof.
  intros Hev s. unfold emit, modify. cbn. repeat split.
  exists [ev]. split; [reflexivity | by repeat constructor].
Qed.

Lemma pipeline_frame_gateway {A} call (op : G -> Result A * G) :
  is_restore_call (EvGateway call) = false -> frame pipeline_frame (gateway call op).
Proof.
  intros Hcall s. unfold gateway. destruct (op (gw s)) as [r g']. cbn. repeat split.
  exists [EvGateway call]. split; [reflexivity | by repeat constructor].
Qed.

Lemma pipeline_frame_quiet {A} (m : M (State G) A) :
  (forall s, executions (snd (m s)) = executions s
             /\ active_executions (snd (m s)) = active_executions s
             /\ execution_handlers (snd (m s)) = execution_handlers s
             /\ length (contexts (snd (m s))) = length (contexts s)
             /\ trace (snd (m s)) = trace s) ->
  frame pipeline_frame m.
Proof.
  intros H s. destruct (H s) as (H1 & H2 & H3 & H4 & H5). repeat split; try assumption.
  exists []. split; [by rewrite app_nil_r | constructor].
Qed.

Lemma pipeline_frame_datetime_now : frame pipeline_frame (datetime_now env).
Proof.
  apply pipeline_frame_quiet. intros s. unfold datetime_now.
  by destruct (now env (gw s)).
Qed.

Lemma pipeline_frame_update_context (l : loc) (f : ExecutionContext -> ExecutionContext) :
  frame pipeline_frame (update_context (G:=G) l f).
Proof.
  apply pipeline_frame_quiet. intros s. unfold update_context, modify. cbn.
  repeat split. apply length_alter.
Qed.

Lemma step_pipeline_frame_on_state {A} (m : M (State G) A) :
  frame pipeline_frame m -> frame step_pipeline_frame (on_state m).
Proof.
  intros H [st s]. unfold on_state, step_pipeline_frame. cbn. specialize (H s).
  by destruct (m s).
Qed.

Lemma step_pipeline_frame_pure {A} (m : M (ExecutionStep * State G) A) :
  (forall ss, snd (snd (m ss)) = snd ss) -> frame step_pipeline_frame m.
Proof. intros H ss. unfold step_pipeline_frame. rewrite H. reflexivity. Qed.

Ltac pipeline_leaf :=
  first
    [ apply step_pipeline_frame_pure; intros [? ?]; reflexivity
    | apply step_pipeline_frame_on_state;
      first [ apply pipeline_frame_gateway; reflexivity
            | apply pipeline_frame_emit; reflexivity
            | apply pipeline_frame_datetime_now
            | apply pipeline_frame_update_context
            | apply pipeline_frame_quiet; intros ?; by repeat split ] ].

Lemma step_pipeline_frame_emit (ev : Event) :
  is_restore_call ev = false -> frame step_pipeline_frame (on_state (emit (G:=G) ev)).
Proof. intros Hev. by apply step_pipeline_frame_on_state, pipeline_frame_emit. Qed.

Lemma step_pipeline_frame_observe : frame step_pipeline_frame (observe_step (G:=G)).
Proof. intros ss. unfold observe_step. by apply step_pipeline_frame_emit. Qed.

Lemma step_pipeline_frame_try (context : loc) :
  frame step_pipeline_frame (_execute_step_try env context).
Proof.
  unfold _execute_step_try, _execute_step_dispatch, assign_status, log_event,
    _execute_preparation_step, _execute_validation_step,
    _execute_backup_step, _execute_optimization_step, _execute_verification_step,
    _execute_completion_step.
  frame_split; try apply step_pipeline_frame_observe; try pipeline_leaf.
Qed.

Lemma step_pipeline_frame_except (e : Exc) :
  frame step_pipeline_frame (_execute_step_except (G:=G) e).
Proof.
  unfold _execute_step_except, assign_status, log_event.
  frame_split; try apply step_pipeline_frame_observe; try pipeline_leaf.
Qed.

(** A relation that every piece of [_execute_step] respects is respected by
    [_execute_step]. *)
Lemma _execute_step_frame (R : relation (ExecutionStep * State G)) (HR : PreOrder R)
    (context : loc) :
  (forall ev, In ev [EvEnter "_execute_step"; EvLeave "_execute_step"; EvSleep 5] ->
              frame R (on_state (emit ev))) ->
  frame R (_execute_step_try env context) ->
  (forall e, frame R (_execute_step_except e)) ->
  frame R (_execute_step env context).
Proof.
  intros Hemit Htry Hexc ss. remember (retries_left (fst ss)) as n eqn:Hn.
  revert ss Hn. induction n as [n IH] using lt_wf_ind. intros ss Hn.
  rewrite _execute_step_body_eq.
  assert (forall ss, R ss (enter_frame ss)) as Henter
    by (intros ?; apply (Hemit (EvEnter "_execute_step")); cbn; tauto).
  assert (forall ss, R ss (leave_frame ss)) as Hleave
    by (intros ?; apply (Hemit (EvLeave "_execute_step")); cbn; tauto).
  pose proof (Henter ss) as H1.
  pose proof (Htry (enter_frame ss)) as H2.
  pose proof (same_retries_try env context (enter_frame ss)) as [Hrc Hmr].
  destruct (_execute_step_try env context (enter_frame ss)) as [[[]|e] ss1];
    cbn [fst snd] in *.
  - etrans; [exact H1 |]. etrans; [exact H2 |]. apply Hleave.
  - cbv zeta. pose proof (Hexc e ss1) as H3.
    pose proof (Hemit (EvSleep 5) ltac:(cbn; tauto) (snd (_execute_step_except e ss1))) as H4.
    destruct (step_retry_count (fst (snd (_execute_step_except e ss1)))
              <? step_max_retries (fst (snd (_execute_step_except e ss1)))) eqn:Hlt.
    + apply Z.ltb_lt in Hlt. unfold asyncio_sleep.
      set (x := snd (on_state (emit (EvSleep 5)) (snd (_execute_step_except e ss1)))) in *.
      assert (retries_left (fst x) < n)%nat as Hx.
      { subst x n. destruct ss as [st s], ss1 as [st1 s1].
        rewrite _execute_step_except_eq in *. unfold retries_left. cbn in *. lia. }
      specialize (IH _ Hx x eq_refl).
      destruct (_execute_step env context x) as [r3 ss3]. cbn [fst snd] in *.
      etrans; [exact H1 |]. etrans; [exact H2 |]. etrans; [exact H3 |].
      etrans; [exact H4 |]. etrans; [exact IH |]. apply Hleave.
    + cbn [fst snd].
      etrans; [exact H1 |]. etrans; [exact H2 |]. etrans; [exact H3 |].
      apply Hleave.
Qed.

Lemma step_pipeline_frame_execute_step (context : loc) :
  frame step_pipeline_frame (_execute_step env context).
Proof.
  apply _execute_step_frame; [tc_solve | | apply step_pipeline_frame_try
                             | apply step_pipeline_frame_except].
  intros ev Hev. apply step_pipeline_frame_emit.
  cbn in Hev. by destruct Hev as [<-|[<-|[<-|[]]]].
Qed.

End PipelineFrame.

Section FailingRun.
Context {G : Type} (env : Env G).

Lemma step_pipeline_frame_body (context : loc) :
  frame step_pipeline_frame (_run_execution_pipeline_body env context).
Proof.
  unfold _run_execution_pipeline_body, _rollback_execution_with_step, log_event.
  frame_split; try apply step_pipeline_frame_execute_step;
    try (apply (step_pipeline_frame_pure (G:=G)); intros [? ?]; reflexivity);
    try (apply step_pipeline_frame_on_state;
         first [ apply pipeline_frame_emit; reflexivity
               | apply pipeline_frame_update_context ]).
Qed.

Lemma pipeline_frame_run_steps (context : loc) (steps : list ExecutionStep) (s : State G) :
  pipeline_frame s (snd (snd (run_steps env steps context s))).
Proof.
  revert s. induction steps as [|step rest IH]; intros s; cbn [run_steps].
  - reflexivity.
  - pose proof (step_pipeline_frame_body context (step, s)) as Hbody.
    destruct (_run_execution_pipeline_body env context (step, s)) as [[[]|e] [step' s']];
      unfold step_pipeline_frame in Hbody; cbn [fst snd] in *; [| exact Hbody].
    specialize (IH s'). destruct (run_steps env rest context s') as [r2 [rest' s'']].
    cbn [fst snd] in *. by etrans.
Qed.

Lemma pipeline_frame_run_execution_pipeline (context : loc)
    (opportunity : OptimizationOpportunity) :
  frame pipeline_frame (_run_execution_pipeline env context opportunity).
Proof.
  unfold _run_execution_pipeline, _create_execution_steps, _get_optimization_specific_steps,
    read_context.
  frame_split.
  intros s. pose proof (pipeline_frame_run_steps context a s) as H.
  destruct (run_steps env a context s) as [r [steps' s']]. exact H.
Qed.

(** What [_rollback_execution] does: it returns, it changes nothing but the
    gateway and the trace, it logs [rollback_started], it makes the restore
    call exactly when [backup_data] is not empty, and it logs
    [rollback_failed] exactly when it returns [False]. *)
Lemma _rollback_execution_spec (context : loc) (s : State G) :
  exists (b : bool) (g' : G) (rb : list Event),
    _rollback_execution env context s =
    (Ok b, mkState g' (trace s ++ rb) (contexts s) (executions s) (active_executions s)
             (execution_handlers s))
    /\ count_events is_restore_call rb
       = (if dict_truthy (ctx_backup_data (context_at context s)) then 1 else 0)%nat
    /\ count_events is_attempt rb = 0%nat
    /\ count_events is_sleep rb = 0%nat
    /\ count_events (is_log "rollback_started") rb = 1%nat
    /\ count_events (is_log "rollback_failed") rb = (if b then 0 else 1)%nat
    /\ count_events (is_log "execution_rollback_failed") rb = 0%nat.
Proof.
  rewrite _rollback_execution_eq. cbv zeta.
  unfold restore_if_backed_up, gateway, logged, ret.
  destruct s as [g tr ctxs execs act hs]. unfold set_trace, set_gw, context_at.
  cbn [gw trace contexts executions active_executions execution_handlers].
  destruct (dict_truthy (ctx_backup_data (ctxs !!! context)));
    repeat match goal with
      | |- context [restore_resource_from_backup env ?a ?b ?c ?g0] =>
          destruct (restore_resource_from_backup env a b c g0) as [[[]|?] ?]
      | |- context [get_resource_config env ?a ?b ?g0] =>
          destruct (get_resource_config env a b g0) as [[?|?] ?]
      end;
    cbn [gw trace contexts executions active_executions execution_handlers];
    eexists _, _, _; (split; [rewrite <- ?app_assoc; reflexivity |]);
    cbn; repeat split.
Qed.

End FailingRun.

Section FailingRunSpec.
Context {G : Type} (env : Env G).

(** What an admission that succeeded has done. *)
Lemma execute_optimization_admit_ok (opportunity : OptimizationOpportunity)
    (approver_id : string) (s s1 : State G) (execution context : loc) :
  execute_optimization_admit env opportunity approver_id s = (Ok (execution, context), s1) ->
  let id := fst (uuid4 env (gw s)) in
  let started := fst (now env (snd (uuid4 env (gw s)))) in
  execution = length (executions s)
  /\ context = length (contexts s)
  /\ executions s1 = (executions s ++ [fresh_execution opportunity approver_id id started])%list
  /\ (exists current_config,
        contexts s1 = (contexts s ++ [fresh_context opportunity id current_config])%list)
  /\ active_executions s1 = <[id := mkEntry execution context RUNNING]> (active_executions s)
  /\ execution_handlers s1 = execution_handlers s
  /\ exists data,
       trace s1 = (trace s ++ [EvLog "optimization_execution_started" data;
                               EvGateway (GGetResourceConfig (opp_resource_id opportunity)
                                  (CloudProvider_value (opp_cloud_provider opportunity)))])%list.
Proof.
  rewrite execute_optimization_admit_eq. cbv zeta.
  destruct (get_resource_config env _ _ _) as [[cfg|e] g3]; [| discriminate].
  intros H. injection H as <- <- <-. cbn. repeat split; eauto.
Qed.

Lemma alter_snoc_lookup {A} `{Inhabited A} (f : A -> A) (l : list A) (x : A) :
  alter f (length l) (l ++ [x])%list !!! length l = f x.
Proof.
  rewrite list_lookup_total_alter_eq by (rewrite length_app; cbn; lia).
  by rewrite lookup_total_snoc.
Qed.

(** A run whose pipeline raises: the caller gets the exception of the
    pipeline; the record is marked failed and stays so; the rollback routine
    runs once, inside [_handle_execution_failure]. *)
Lemma failing_run (opportunity : OptimizationOpportunity) (approver_id : string)
    (s s1 s2 : State G) (execution context : loc) (e : Exc) :
  execute_optimization_admit env opportunity approver_id s = (Ok (execution, context), s1) ->
  _run_execution_pipeline env context opportunity s1 = (Raise e, s2) ->
  exists (b : bool) (final : State G) (pl rb : list Event) (d0 d1 d2 d3 : list (string * Value)),
    execute_optimization env opportunity approver_id s = (Raise e, final)
    /\ fst (_rollback_execution env context (failure_marked env execution (exc_msg e) s2)) = Ok b
    /\ trace s1 =
       (trace s ++
        [EvLog "optimization_execution_started" d0;
         EvGateway (GGetResourceConfig (opp_resource_id opportunity)
                      (CloudProvider_value (opp_cloud_provider opportunity)))])%list
    /\ trace s2 = (trace s1 ++ pl)%list
    /\ Forall (fun ev => is_restore_call ev = false) pl
    /\ trace final =
       (trace s2 ++ [EvLog "execution_failure_handling_started" d1] ++ rb ++
        [EvLog (if b then "execution_failure_handling_failed" else "execution_rollback_failed") d2;
         EvLog "optimization_execution_failed" d3])%list
    /\ count_events is_restore_call rb
       = (if dict_truthy (ctx_backup_data (context_at context s2)) then 1 else 0)%nat
    /\ count_events is_attempt rb = 0%nat
    /\ count_events is_sleep rb = 0%nat
    /\ count_events (is_log "rollback_started") rb = 1%nat
    /\ count_events (is_log "rollback_failed") rb = (if b then 0 else 1)%nat
    /\ count_events (is_log "execution_rollback_failed") rb = 0%nat
    /\ execution_at execution final
       = mark_failed (exc_msg e) (fst (now env (gw s2)))
           (fresh_execution opportunity approver_id (fst (uuid4 env (gw s)))
              (fst (now env (snd (uuid4 env (gw s))))))
    /\ active_executions final = delete (fst (uuid4 env (gw s))) (active_executions s).
Proof.
  intros Hadmit Hpipe.
  rewrite execute_optimization_eq, Hadmit.
  rewrite (execute_optimization_run_failed env _ _ _ _ _ _ Hpipe).
  rewrite _handle_execution_failure_eq. cbv zeta.
  apply execute_optimization_admit_ok in Hadmit. cbv zeta in Hadmit.
  destruct Hadmit as (-> & -> & Hexecs & (cfg & Hctxs) & Hact & Hhs & d0 & Htr1).
  pose proof (pipeline_frame_run_execution_pipeline env (length (contexts s)) opportunity s1)
    as Hframe.
  rewrite Hpipe in Hframe. cbn [snd] in Hframe.
  destruct Hframe as (HE & HA & HH & HL & pl & Htr2 & Hpl).
  destruct (_rollback_execution_spec env (length (contexts s))
              (failure_marked env (length (executions s)) (exc_msg e) s2))
    as (b & g' & rb & Hrb & R1 & R2 & R3 & R4 & R5 & R6).
  rewrite Hrb. cbn [fst].
  exists b. destruct b; eexists _, pl, rb, d0, _, _, _;
    (split; [reflexivity |]); (split; [reflexivity |]); (split; [exact Htr1 |]);
    (split; [exact Htr2 |]); (split; [exact Hpl |]);
    (split; [unfold logged, unregistered, failure_marked; cbn;
             rewrite <- !app_assoc; reflexivity |]);
    (split; [exact R1 |]); (split; [exact R2 |]); (split; [exact R3 |]);
    (split; [exact R4 |]); (split; [exact R5 |]); (split; [exact R6 |]);
    (split; [unfold logged, unregistered, execution_at, failure_marked; cbn;
             rewrite HE, Hexecs; apply alter_snoc_lookup |]);
    unfold logged, unregistered, execution_at, failure_marked; cbn;
    rewrite HE, Hexecs, alter_snoc_lookup, HA, Hact; cbn;
    apply delete_insert_eq.
Qed.

End FailingRunSpec.

(** ** Failure handling claims *)

Lemma count_events_none (p : Event -> bool) (tr : list Event) :
  Forall (fun ev => p ev = false) tr -> count_events p tr = 0%nat.
Proof.
  unfold count_events. induction 1 as [|ev l Hev _ IH]; [reflexivity |].
  cbn. by rewrite Hev.
Qed.

Lemma dict_truthy_empty : dict_truthy ∅ = false.
Proof. reflexivity. Qed.

Section FailureClaims.
Context {G : Type} (env : Env G).

(** C2.  When the pipeline of an admitted execution raises while the
    context holds no backup data (the Backup phase has not completed), the
    whole run makes no restore call, the caller gets the exception of the
    pipeline, and the execution record ends with status Failed and with
    [rollback_required] (and [rollback_completed]) false. *)
Theorem failure_before_backup_makes_no_restore
    (opportunity : OptimizationOpportunity) (approver_id : string)
    (s s1 s2 : State G) (execution context : loc) (e : Exc) :
  execute_optimization_admit env opportunity approver_id s = (Ok (execution, context), s1) ->
  _run_execution_pipeline env context opportunity s1 = (Raise e, s2) ->
  ctx_backup_data (context_at context s2) = ∅ ->
  let out := execute_optimization env opportunity approver_id s in
  fst out = Raise e
  /\ count_events is_restore_call (events_since s (snd out)) = 0%nat
  /\ exec_status (execution_at execution (snd out)) = OS_FAILED
  /\ rollback_required (execution_at execution (snd out)) = false
  /\ rollback_completed (execution_at execution (snd out)) = false.
Proof.
  intros Hadmit Hpipe Hbackup out. subst out.
  destruct (failing_run env _ _ _ _ _ _ _ _ Hadmit Hpipe)
    as (b & final & pl & rb & d0 & d1 & d2 & d3 & Hrun & _ & Htr1 & Htr2 & Hpl & Htr & R1
        & _ & _ & _ & _ & _ & Hrec & _).
  rewrite Hrun. cbn [fst snd]. rewrite Hrec.
  rewrite Hbackup, dict_truthy_empty in R1.
  split; [reflexivity |]. split; [| by repeat split].
  rewrite Htr2, Htr1, <- !app_assoc in Htr.
  rewrite (events_since_app _ _ _ Htr), !count_events_app, R1, (count_events_none _ _ Hpl).
  by destruct b.
Qed.

End FailureClaims.

(** Scenario D: every backup call fails with an I/O error. *)
Definition backup_always_fails : Cloud := mkCloud 0 0 3 0 false.

Lemma failure_before_backup_makes_no_restore_witness :
  fst (execute_optimization cloud_env rightsizing_i_abc "alice"
         (started_engine backup_always_fails)) = Raise rollback_type_error
  /\ count_events is_restore_call
       (events_since (started_engine backup_always_fails)
          (snd (execute_optimization cloud_env rightsizing_i_abc "alice"
                  (started_engine backup_always_fails)))) = 0%nat
  /\ exec_status
       (execution_at 0%nat
          (snd (execute_optimization cloud_env rightsizing_i_abc "alice"
                  (started_engine backup_always_fails)))) = OS_FAILED
  /\ rollback_required
       (execution_at 0%nat
          (snd (execute_optimization cloud_env rightsizing_i_abc "alice"
                  (started_engine backup_always_fails)))) = false
  /\ rollback_completed
       (execution_at 0%nat
          (snd (execute_optimization cloud_env rightsizing_i_abc "alice"
                  (started_engine backup_always_fails)))) = false.
Proof.
  apply (failure_before_backup_makes_no_restore cloud_env rightsizing_i_abc "alice"
           (started_engine backup_always_fails) (admitted backup_always_fails)
           (snd (_run_execution_pipeline cloud_env 0%nat rightsizing_i_abc
                   (admitted backup_always_fails)))
           0%nat 0%nat rollback_type_error);
    vm_compute; reflexivity.
Defined.

Section RollbackFailureClaims.
Context {G : Type} (env : Env G).

Lemma _rollback_execution_restore_raises (context : loc) (s : State G) (err : Exc) (g' : G) :
  dict_truthy (ctx_backup_data (context_at context s)) = true ->
  restore_resource_from_backup env (ctx_resource_id (context_at context s))
    (ctx_cloud_provider (context_at context s)) (ctx_backup_data (context_at context s)) (gw s)
  = (Raise err, g') ->
  fst (_rollback_execution env context s) = Ok false.
Proof.
  intros Htruthy Hrestore. rewrite _rollback_execution_eq. cbv zeta.
  unfold restore_if_backed_up, gateway, logged. rewrite Htruthy. cbn [gw set_trace].
  by rewrite Hrestore.
Qed.

(** C3 (as the code has it).  When the pipeline has raised, the context
    holds backup data and the restore call raises, [_rollback_execution]
    catches the exception, logs [rollback_failed] and returns [False];
    [_handle_execution_failure] logs [execution_rollback_failed]; the caller
    of [execute_optimization] gets the exception of the pipeline; the
    execution record ends with status Failed and [rollback_completed]
    false. *)
Theorem restore_error_is_logged_and_absorbed
    (opportunity : OptimizationOpportunity) (approver_id : string)
    (s s1 s2 : State G) (execution context : loc) (e err : Exc) (g' : G) :
  execute_optimization_admit env opportunity approver_id s = (Ok (execution, context), s1) ->
  _run_execution_pipeline env context opportunity s1 = (Raise e, s2) ->
  dict_truthy (ctx_backup_data (context_at context s2)) = true ->
  restore_resource_from_backup env (ctx_resource_id (context_at context s2))
    (ctx_cloud_provider (context_at context s2)) (ctx_backup_data (context_at context s2))
    (snd (now env (gw s2)))
  = (Raise err, g') ->
  let out := execute_optimization env opportunity approver_id s in
  fst out = Raise e
  /\ fst (_rollback_execution env context (failure_marked env execution (exc_msg e) s2))
     = Ok false
  /\ count_events (is_log "rollback_failed") (events_since s2 (snd out)) = 1%nat
  /\ count_events (is_log "execution_rollback_failed") (events_since s2 (snd out)) = 1%nat
  /\ count_events (is_log "rollback_started") (events_since s2 (snd out)) = 1%nat
  /\ count_events is_restore_call (events_since s2 (snd out)) = 1%nat
  /\ exec_status (execution_at execution (snd out)) = OS_FAILED
  /\ rollback_completed (execution_at execution (snd out)) = false.
Proof.
  intros Hadmit Hpipe Htruthy Hrestore out. subst out.
  pose proof (_rollback_execution_restore_raises context
                (failure_marked env execution (exc_msg e) s2) err g' Htruthy Hrestore) as Hfalse.
  destruct (failing_run env _ _ _ _ _ _ _ _ Hadmit Hpipe)
    as (b & final & pl & rb & d0 & d1 & d2 & d3 & Hrun & Hb & _ & _ & _ & Htr & R1 & _ & _
        & R4 & R5 & R6 & Hrec & _).
  rewrite Hfalse in Hb. injection Hb as <-.
  rewrite Hrun. cbn [fst snd]. rewrite Hrec.
  split; [reflexivity |]. split; [exact Hfalse |].
  rewrite (events_since_app _ _ _ Htr), !count_events_app, R1, R4, R5, R6, Htruthy.
  by repeat split.
Qed.

End RollbackFailureClaims.

(** The Completion step fails three times, after the backup was taken; the
    restore call of the rollback fails or works. *)
Definition restore_fails : Cloud := mkCloud 0 0 0 3 true.
Definition restore_works : Cloud := mkCloud 0 0 0 3 false.

Definition failed_run (g : Cloud) : Result loc * State Cloud :=
  execute_optimization cloud_env rightsizing_i_abc "alice" (started_engine g).

Definition after_pipeline (g : Cloud) : State Cloud :=
  snd (_run_execution_pipeline cloud_env 0%nat rightsizing_i_abc (admitted g)).

Lemma restore_error_is_logged_and_absorbed_witness :
  fst (failed_run restore_fails) = Raise rollback_type_error
  /\ fst (_rollback_execution cloud_env 0%nat
            (failure_marked cloud_env 0%nat (exc_msg rollback_type_error)
               (after_pipeline restore_fails))) = Ok false
  /\ count_events (is_log "rollback_failed")
       (events_since (after_pipeline restore_fails) (snd (failed_run restore_fails))) = 1%nat
  /\ exec_status (execution_at 0%nat (snd (failed_run restore_fails))) = OS_FAILED
  /\ rollback_completed (execution_at 0%nat (snd (failed_run restore_fails))) = false.
Proof.
  destruct (restore_error_is_logged_and_absorbed cloud_env rightsizing_i_abc "alice"
              (started_engine restore_fails) (admitted restore_fails)
              (after_pipeline restore_fails) 0%nat 0%nat rollback_type_error
              (mkExc (KGateway "RestoreError") "restore failed")
              (snd (now cloud_env (gw (after_pipeline restore_fails)))))
    as (H1 & H2 & H3 & _ & _ & _ & H7 & H8); try (vm_compute; reflexivity).
  repeat split; assumption.
Defined.

(** The caller gets the same exception whether the restore call of the
    rollback raised or not; the restore error only reaches the log. *)
Lemma restore_error_does_not_reach_caller :
  fst (failed_run restore_fails) = Raise rollback_type_error
  /\ fst (failed_run restore_works) = Raise rollback_type_error
  /\ rollback_type_error <> mkExc (KGateway "RestoreError") "restore failed"
  /\ count_events is_restore_call (trace (snd (failed_run restore_fails))) = 1%nat
  /\ count_events (is_log "rollback_failed") (trace (snd (failed_run restore_fails))) = 1%nat.
Proof. conj_compute. discriminate. Qed.

Section BuildFailureClaims.
Context {G : Type} (env : Env G).

Definition unsupported_type_error (optimization_type : string) : Exc :=
  mkExc KValueError ("No handler found for optimization type: " ++ optimization_type).

Lemma _create_execution_steps_unsupported (context : loc)
    (opportunity : OptimizationOpportunity) (s : State G) :
  execution_handlers s !! ctx_optimization_type (context_at context s) = None ->
  _create_execution_steps context opportunity s =
  (Raise (unsupported_type_error (ctx_optimization_type (context_at context s))), s).
Proof.
  intros Hh.
  unfold _create_execution_steps, _get_optimization_specific_steps, read_context, gets,
    mbind, M_bind, bind, raise.
  by rewrite Hh.
Qed.

(** C8 (as the code has it).  The builder fails exactly when no handler is
    registered for the type of the context, with the [ValueError] of
    [_get_optimization_specific_steps].  In [execute_optimization] this
    failure reaches the caller; no step is attempted and nothing is retried;
    the failure handler still runs the rollback routine, once, and this
    makes no restore call since the new context holds no backup data; the
    execution record ends with status Failed. *)
Theorem unsupported_type_fails_build_and_runs_rollback
    (opportunity : OptimizationOpportunity) (approver_id : string)
    (s s1 : State G) (execution context : loc) :
  execution_handlers s !! OptimizationType_value (opp_optimization_type opportunity) = None ->
  execute_optimization_admit env opportunity approver_id s = (Ok (execution, context), s1) ->
  let error :=
    unsupported_type_error (OptimizationType_value (opp_optimization_type opportunity)) in
  let out := execute_optimization env opportunity approver_id s in
  let tr := events_since s (snd out) in
  (forall (c : loc) (st : State G),
     is_ok (fst (_create_execution_steps c opportunity st))
     = bool_decide (is_Some (execution_handlers st !! ctx_optimization_type (context_at c st))))
  /\ _create_execution_steps context opportunity s1 = (Raise error, s1)
  /\ fst out = Raise error
  /\ count_events is_attempt tr = 0%nat
  /\ count_events is_sleep tr = 0%nat
  /\ count_events is_restore_call tr = 0%nat
  /\ count_events (is_log "rollback_started") tr = 1%nat
  /\ exec_status (execution_at execution (snd out)) = OS_FAILED.
Proof.
  intros Hnone Hadmit error out tr. subst error out tr.
  split.
  { intros c st.
    destruct (execution_handlers st !! ctx_optimization_type (context_at c st)) as [h|] eqn:Hh.
    - by rewrite (_create_execution_steps_eq _ _ _ _ Hh).
    - by rewrite (_create_execution_steps_unsupported _ _ _ Hh). }
  pose proof (execute_optimization_admit_ok env _ _ _ _ _ _ Hadmit) as Hok. cbv zeta in Hok.
  destruct Hok as (-> & -> & Hexecs & (cfg & Hctxs) & Hact & Hhs & d0' & Htr1').
  assert (context_at (length (contexts s)) s1
          = fresh_context opportunity (fst (uuid4 env (gw s))) cfg) as Hctx.
  { unfold context_at. rewrite Hctxs. apply lookup_total_snoc. }
  assert (_create_execution_steps (length (contexts s)) opportunity s1 =
          (Raise (unsupported_type_error
                    (OptimizationType_value (opp_optimization_type opportunity))), s1))
    as Hbuild.
  { rewrite _create_execution_steps_unsupported; rewrite Hctx; cbn; [reflexivity |].
    by rewrite Hhs. }
  split; [exact Hbuild |].
  assert (_run_execution_pipeline env (length (contexts s)) opportunity s1 =
          (Raise (unsupported_type_error
                    (OptimizationType_value (opp_optimization_type opportunity))), s1))
    as Hpipe.
  { unfold _run_execution_pipeline, mbind, M_bind, bind. by rewrite Hbuild. }
  destruct (failing_run env _ _ _ _ _ _ _ _ Hadmit Hpipe)
    as (b & final & pl & rb & d0 & d1 & d2 & d3 & Hrun & _ & Htr1 & Htr2 & _ & Htr & R1
        & R2 & R3 & R4 & _ & _ & Hrec & _).
  rewrite Hrun. cbn [fst snd]. rewrite Hrec.
  split; [reflexivity |].
  assert (pl = []) as ->.
  { apply (app_inv_head (trace s1)). by rewrite app_nil_r. }
  rewrite Htr1, <- !app_assoc in Htr.
  rewrite Hctx in R1. cbn in R1.
  rewrite (events_since_app _ _ _ Htr), !count_events_app, R1, R2, R3, R4.
  by destruct b.
Qed.

End BuildFailureClaims.

(** An engine on which [initialize] was never called has no handler. *)
Lemma unsupported_type_fails_build_and_runs_rollback_witness :
  fst (execute_optimization cloud_env rightsizing_i_abc "alice" (init restore_works))
  = Raise (unsupported_type_error "rightsizing")
  /\ count_events is_attempt
       (events_since (init restore_works)
          (snd (execute_optimization cloud_env rightsizing_i_abc "alice" (init restore_works))))
     = 0%nat
  /\ count_events (is_log "rollback_started")
       (events_since (init restore_works)
          (snd (execute_optimization cloud_env rightsizing_i_abc "alice" (init restore_works))))
     = 1%nat.
Proof.
  destruct (unsupported_type_fails_build_and_runs_rollback cloud_env rightsizing_i_abc "alice"
              (init restore_works)
              (snd (execute_optimization_admit cloud_env rightsizing_i_abc "alice"
                      (init restore_works)))
              0%nat 0%nat)
    as (_ & _ & H3 & H4 & _ & _ & H7 & _); try (vm_compute; reflexivity).
  repeat split; assumption.
Defined.

(** The build failure of an unsupported type starts the rollback routine,
    which runs to its end: it re-reads the configuration and logs its
    success. *)
Lemma unsupported_type_triggers_rollback :
  fst (execute_optimization cloud_env rightsizing_i_abc "alice" (init restore_works))
  = Raise (unsupported_type_error "rightsizing")
  /\ count_events (is_log "rollback_started")
       (trace (snd (execute_optimization cloud_env rightsizing_i_abc "alice"
                      (init restore_works)))) = 1%nat
  /\ count_events (is_log "rollback_completed_successfully")
       (trace (snd (execute_optimization cloud_env rightsizing_i_abc "alice"
                      (init restore_works)))) = 1%nat.
Proof. conj_compute. Qed.

(** ** The registry: admission and cancellation *)

Section RegistryClaims.
Context {G : Type} (env : Env G).

(** An entry of the registry that is Running for a resource. *)
Definition runs_resource (resource_id : string) (s : State G) (entry : ActiveEntry) : bool :=
  bool_decide (entry_status entry = RUNNING)
  && bool_decide (ctx_resource_id (context_at (entry_context entry) s) = resource_id).

(** The number of executions registered as Running for a resource. *)
Definition running_for (resource_id : string) (s : State G) : nat :=
  length (List.filter (fun kv => runs_resource resource_id s (snd kv))
            (map_to_list (active_executions s))).

(** C1 (as the code has it).  A submission is admitted exactly when the
    configuration of its resource can be read, whatever the registry holds:
    the registry is not consulted.  The new execution is registered as
    Running under its own fresh execution id, next to the entries that were
    there, and its context names the resource of the opportunity. *)
Theorem admission_ignores_running_executions
    (opportunity : OptimizationOpportunity) (approver_id : string) (s : State G) :
  let out := execute_optimization_admit env opportunity approver_id s in
  let id := fst (uuid4 env (gw s)) in
  let read :=
    get_resource_config env (opp_resource_id opportunity)
      (CloudProvider_value (opp_cloud_provider opportunity))
      (snd (now env (snd (uuid4 env (gw s))))) in
  is_ok (fst out) = is_ok (fst read)
  /\ match fst out with
     | Ok (execution, context) =>
         active_executions (snd out)
         = <[id := mkEntry execution context RUNNING]> (active_executions s)
         /\ exec_id (execution_at execution (snd out)) = id
         /\ ctx_execution_id (context_at context (snd out)) = id
         /\ ctx_resource_id (context_at context (snd out)) = opp_resource_id opportunity
     | Raise _ => active_executions (snd out) = active_executions s
     end.
Proof.
  cbv zeta. rewrite execute_optimization_admit_eq. cbv zeta.
  destruct (get_resource_config env _ _ _) as [[cfg|e] g3]; cbn [fst snd is_ok].
  - split; [reflexivity |]. unfold execution_at, context_at. cbn.
    rewrite !lookup_total_snoc. by repeat split.
  - by split.
Qed.

(** C9 (as the code has it).  [cancel_execution] on a registered execution
    runs the rollback routine itself, before it returns: the restore call is
    made right away when the context holds backup data.  It then sets the
    status of the record to Cancelled with the message [Cancelled: reason],
    removes the entry from the registry and returns [True].  No context is
    changed: there is no cancellation flag for a pipeline to observe. *)
Theorem cancel_rolls_back_at_once
    (execution_id reason : string) (s : State G) (entry : ActiveEntry) :
  active_executions s !! execution_id = Some entry ->
  (entry_execution entry < length (executions s))%nat ->
  let out := cancel_execution env execution_id reason s in
  let tr := events_since s (snd out) in
  fst out = Ok true
  /\ count_events (is_log "rollback_started") tr = 1%nat
  /\ count_events is_restore_call tr
     = (if dict_truthy (ctx_backup_data (context_at (entry_context entry) s))
        then 1 else 0)%nat
  /\ exec_status (execution_at (entry_execution entry) (snd out)) = OS_CANCELLED
  /\ exec_error_message (execution_at (entry_execution entry) (snd out))
     = Some ("Cancelled: " ++ reason)
  /\ active_executions (snd out) = delete execution_id (active_executions s)
  /\ contexts (snd out) = contexts s.
Proof.
  intros Hentry Hvalid out tr. subst out tr.
  destruct (_rollback_execution_spec env (entry_context entry) s)
    as (b & g' & rb & Hrb & R1 & _ & _ & R4 & _ & _).
  assert (cancel_execution env execution_id reason s =
          (Ok true,
           mkState g'
             (trace s ++ rb ++ [EvLog "execution_cancelled"
                                  [("execution_id", VStr execution_id);
                                   ("reason", VStr reason)]])
             (contexts s)
             (alter (set_exec_error_message (Some ("Cancelled: " ++ reason))
                     ∘ set_exec_status OS_CANCELLED)
                (entry_execution entry) (executions s))
             (delete execution_id (active_executions s))
             (execution_handlers s))) as Heq.
  { unfold cancel_execution, try_except, mbind, M_bind, mret, M_ret.
    unfold bind at 1. unfold gets at 1. rewrite Hentry.
    unfold bind at 1. rewrite Hrb.
    unfold bind, update_execution, del_active_execution, log_event, emit, modify, gets, ret,
      mbind, M_bind, bind, gets, modify.
    cbn [fst snd active_executions set_executions set_trace set_active_executions
         executions trace contexts gw execution_handlers].
    rewrite Hentry.
    cbn [fst snd active_executions set_executions set_trace set_active_executions
         executions trace contexts gw execution_handlers].
    by rewrite list_alter_alter_eq, <- app_assoc. }
  rewrite Heq. cbn [fst snd]. split; [reflexivity |].
  rewrite (events_since_app _ _ (rb ++ [EvLog "execution_cancelled"
             [("execution_id", VStr execution_id); ("reason", VStr reason)]]))
    by reflexivity.
  rewrite !count_events_app, R1, R4. unfold execution_at. cbn.
  rewrite list_lookup_total_alter_eq by assumption.
  repeat split; lia.
Qed.

Lemma cancel_unknown_execution (execution_id reason : string) (s : State G) :
  active_executions s !! execution_id = None ->
  cancel_execution env execution_id reason s = (Ok false, s).
Proof.
  intros Hnone.
  unfold cancel_execution, try_except, mbind, M_bind, mret, M_ret, bind, gets.
  by rewrite Hnone.
Qed.

End RegistryClaims.

(** A cloud on which every call succeeds. *)
Definition healthy : Cloud := mkCloud 0 0 0 0 false.

(** A second submission for [i-abc], made while the first execution is
    registered as Running, is admitted too. *)
Definition twice_admitted : State Cloud :=
  snd (execute_optimization_admit cloud_env rightsizing_i_abc "bob" (admitted healthy)).

Lemma two_running_executions_of_one_resource :
  running_for "i-abc" (admitted healthy) = 1%nat
  /\ fst (execute_optimization_admit cloud_env rightsizing_i_abc "bob" (admitted healthy))
     = Ok (1%nat, 1%nat)
  /\ running_for "i-abc" twice_admitted = 2%nat
  /\ ~ (running_for "i-abc" twice_admitted <= 1)%nat.
Proof. conj_compute. vm_compute. lia. Qed.

(** The steps of the pipeline of the admitted execution, and the state in
    which its first three steps (Preparation, Validation, Backup) are over
    and the fourth has not begun. *)
Definition rightsizing_steps : list ExecutionStep :=
  match fst (_create_execution_steps 0%nat rightsizing_i_abc (admitted healthy)) with
  | Ok steps => steps
  | Raise _ => []
  end.

Definition after_backup : State Cloud :=
  snd (snd (run_steps cloud_env (take 3 rightsizing_steps) 0%nat (admitted healthy))).

Definition cancelled : Result bool * State Cloud :=
  cancel_execution cloud_env "exec-0" "operator" after_backup.

Lemma cancel_rolls_back_at_once_witness :
  fst cancelled = Ok true
  /\ count_events is_restore_call (events_since after_backup (snd cancelled)) = 1%nat
  /\ exec_status (execution_at 0%nat (snd cancelled)) = OS_CANCELLED.
Proof.
  destruct (cancel_rolls_back_at_once cloud_env "exec-0" "operator" after_backup
              (mkEntry 0%nat 0%nat RUNNING))
    as (H1 & _ & H3 & H4 & _); [vm_compute; reflexivity | vm_compute; lia |].
  repeat split; assumption.
Defined.

(** Cancelling in the middle of a pipeline: the restore call and the
    transition to Cancelled happen inside [cancel_execution]; nothing is left
    for the pipeline to observe, and its remaining four steps run to
    completion afterwards. *)
Lemma cancel_is_not_cooperative :
  fst cancelled = Ok true
  /\ count_events is_restore_call (events_since after_backup (snd cancelled)) = 1%nat
  /\ exec_status (execution_at 0%nat (snd cancelled)) = OS_CANCELLED
  /\ contexts (snd cancelled) = contexts after_backup
  /\ map step_status
       (fst (snd (run_steps cloud_env (drop 3 rightsizing_steps) 0%nat (snd cancelled))))
     = [COMPLETED; COMPLETED; COMPLETED; COMPLETED].
Proof. conj_compute. Qed.

(** * Further properties of the engine *)

(** ** Initialisation and the handler table *)

(** The entry of [execution_handlers] that [_register_execution_handlers]
    writes for an optimization type. *)
Definition handler_of (t : OptimizationType) : Handler :=
  match t with
  | RIGHTSIZING => H_execute_rightsizing
  | SCHEDULING => H_execute_scheduling
  | UNUSED_RESOURCES => H_execute_unused_resource_removal
  | STORAGE_OPTIMIZATION => H_execute_storage_optimization
  | RESERVED_INSTANCES => H_execute_reserved_instance_purchase
  | SPOT_INSTANCES => H_execute_spot_instance_migration
  end.

Section Initialisation.
Context {G : Type} (env : Env G).

(** A call into the service that is not one of the six gateway methods. *)
Definition on_gateway {A} (op : G -> Result A * G) : M (State G) A :=
  fun s => match op (gw s) with (r, g') => (r, set_gw g' s) end.

(** [ExecutionEngine.initialize].  [service_initialize] is
    [CloudProviderService.initialize], which sets up the SDK clients and may
    raise. *)
Definition initialize (service_initialize : G -> Result unit * G) : M (State G) unit :=
  try_except
    (on_gateway service_initialize;;
     _register_execution_handlers;;
     log_event "execution_engine_initialized" [("status", VStr "success")])
    (fun e =>
       log_event "execution_engine_initialization_failed" [("error", VStr (exc_msg e))];;
       raise e).

Lemma registered_handlers_lookup (t : OptimizationType) (s : State G) :
  execution_handlers (snd (_register_execution_handlers s)) !! OptimizationType_value t
  = Some (handler_of t).
Proof. by destruct t. Qed.

(** X1.  [initialize] returns exactly when the initialisation of the
    service returns, and it then holds a handler for every member of
    [OptimizationType], each under its own [.value]; when the service raises,
    the same exception is raised again and the handler table is left as it
    was. *)
Theorem initialize_registers_every_type
    (service_initialize : G -> Result unit * G) (s : State G) :
  match fst (service_initialize (gw s)) with
  | Ok _ =>
      fst (initialize service_initialize s) = Ok tt
      /\ (forall t : OptimizationType,
            execution_handlers (snd (initialize service_initialize s))
              !! OptimizationType_value t = Some (handler_of t))
      /\ size (execution_handlers (snd (initialize service_initialize s))) = 6%nat
  | Raise e =>
      fst (initialize service_initialize s) = Raise e
      /\ execution_handlers (snd (initialize service_initialize s)) = execution_handlers s
  end.
Proof.
  unfold initialize, try_except, mbind, M_bind, bind, on_gateway.
  destruct (service_initialize (gw s)) as [[[]|e] g']; cbn [fst snd].
  - split; [reflexivity |]. split; [intros t; by destruct t | reflexivity].
  - by split.
Qed.

(** X2.  On an engine whose handlers are registered, the pipeline of an
    admitted opportunity can always be built, whatever its type: the
    builder's [ValueError] cannot occur. *)
Theorem registered_engine_builds_every_pipeline
    (opportunity : OptimizationOpportunity) (approver_id : string) (s : State G) :
  match execute_optimization_admit env opportunity approver_id
          (snd (_register_execution_handlers s)) with
  | (Ok (_, context), s1) =>
      exists steps,
        _create_execution_steps context opportunity s1 = (Ok steps, s1)
        /\ length steps = 7%nat
  | (Raise _, _) => True
  end.
Proof.
  destruct (execute_optimization_admit env opportunity approver_id
              (snd (_register_execution_handlers s)))
    as [[[execution context]|e] s1] eqn:Hadmit; [| exact I].
  apply execute_optimization_admit_ok in Hadmit. cbv zeta in Hadmit.
  destruct Hadmit as (_ & -> & _ & (cfg & Hctxs) & _ & Hhs & _).
  assert (execution_handlers s1
            !! ctx_optimization_type
                 (context_at (length (contexts (snd (_register_execution_handlers s)))) s1)
          = Some (handler_of (opp_optimization_type opportunity))) as Hh.
  { unfold context_at. rewrite Hctxs, lookup_total_snoc, Hhs.
    apply registered_handlers_lookup. }
  eexists. split; [by apply _create_execution_steps_eq |].
  by destruct (opp_optimization_type opportunity).
Qed.

End Initialisation.

(** ** The rollback routine and the failure handler *)

Section RollbackProperties.
Context {G : Type} (env : Env G).

(** The restore call of the rollback routine. *)
Lemma _rollback_execution_restore_call (context : loc) (s : State G) :
  let c := context_at context s in
  List.filter is_restore_call (events_since s (snd (_rollback_execution env context s)))
  = (if dict_truthy (ctx_backup_data c)
     then [EvGateway (GRestoreResourceFromBackup (ctx_resource_id c)
                        (ctx_cloud_provider c) (ctx_backup_data c))]
     else []).
Proof.
  cbv zeta. rewrite _rollback_execution_eq. cbv zeta.
  unfold restore_if_backed_up, gateway, logged, ret.
  destruct s as [g tr ctxs execs act hs]. unfold set_trace, set_gw, context_at.
  cbn [gw trace contexts executions active_executions execution_handlers].
  destruct (dict_truthy (ctx_backup_data (ctxs !!! context)));
    repeat match goal with
      | |- context [restore_resource_from_backup env ?a ?b ?c ?g0] =>
          destruct (restore_resource_from_backup env a b c g0) as [[[]|?] ?]
      | |- context [get_resource_config env ?a ?b ?g0] =>
          destruct (get_resource_config env a b g0) as [[?|?] ?]
      end;
    cbn [fst snd gw trace contexts executions active_executions execution_handlers];
    unfold events_since; cbn [trace]; rewrite <- ?app_assoc, drop_app_length;
    reflexivity.
Qed.

(** X3.  [_rollback_execution] never raises and touches nothing but the
    gateway and the log.  It makes the restore call, with the backup data of
    the context, exactly when that data is not empty.  It returns [True]
    exactly when it has logged [rollback_completed_successfully], and
    [False] exactly when it has logged [rollback_failed]; the branch that
    logs [rollback_verification_failed] is never taken. *)
Theorem rollback_returns_and_keeps_the_engine (context : loc) (s : State G) :
  let c := context_at context s in
  let out := _rollback_execution env context s in
  let tr := events_since s (snd out) in
  exists b : bool,
    fst out = Ok b
    /\ contexts (snd out) = contexts s
    /\ executions (snd out) = executions s
    /\ active_executions (snd out) = active_executions s
    /\ execution_handlers (snd out) = execution_handlers s
    /\ List.filter is_restore_call tr
       = (if dict_truthy (ctx_backup_data c)
          then [EvGateway (GRestoreResourceFromBackup (ctx_resource_id c)
                             (ctx_cloud_provider c) (ctx_backup_data c))]
          else [])
    /\ count_events (is_log "rollback_completed_successfully") tr = (if b then 1 else 0)%nat
    /\ count_events (is_log "rollback_failed") tr = (if b then 0 else 1)%nat
    /\ count_events (is_log "rollback_verification_failed") tr = 0%nat.
Proof.
  cbv zeta. rewrite _rollback_execution_eq. cbv zeta.
  unfold restore_if_backed_up, gateway, logged, ret.
  destruct s as [g tr ctxs execs act hs]. unfold set_trace, set_gw, context_at.
  cbn [gw trace contexts executions active_executions execution_handlers].
  destruct (dict_truthy (ctx_backup_data (ctxs !!! context)));
    repeat match goal with
      | |- context [restore_resource_from_backup env ?a ?b ?c ?g0] =>
          destruct (restore_resource_from_backup env a b c g0) as [[[]|?] ?]
      | |- context [get_resource_config env ?a ?b ?g0] =>
          destruct (get_resource_config env a b g0) as [[?|?] ?]
      end;
    cbn [fst snd gw trace contexts executions active_executions execution_handlers];
    eexists; (split; [reflexivity |]); do 4 (split; [reflexivity |]);
    unfold events_since; cbn [trace]; rewrite <- ?app_assoc, drop_app_length;
    by repeat split.
Qed.

(** The events of the rollback routine: gateway calls and its own three log
    events. *)
Definition is_rollback_event (ev : Event) : bool :=
  match ev with
  | EvGateway _ => true
  | EvLog name _ =>
      bool_decide (name ∈ ["rollback_started"; "rollback_completed_successfully";
                           "rollback_failed"])
  | _ => false
  end.

Lemma _rollback_execution_events (context : loc) (s : State G) :
  exists (b : bool) (g' : G) (rb : list Event),
    _rollback_execution env context s =
    (Ok b, mkState g' (trace s ++ rb) (contexts s) (executions s) (active_executions s)
             (execution_handlers s))
    /\ Forall (fun ev => is_rollback_event ev = true) rb.
Proof.
  rewrite _rollback_execution_eq. cbv zeta.
  unfold restore_if_backed_up, gateway, logged, ret.
  destruct s as [g tr ctxs execs act hs]. unfold set_trace, set_gw, context_at.
  cbn [gw trace contexts executions active_executions execution_handlers].
  destruct (dict_truthy (ctx_backup_data (ctxs !!! context)));
    repeat match goal with
      | |- context [restore_resource_from_backup env ?a ?b ?c ?g0] =>
          destruct (restore_resource_from_backup env a b c g0) as [[[]|?] ?]
      | |- context [get_resource_config env ?a ?b ?g0] =>
          destruct (get_resource_config env a b g0) as [[?|?] ?]
      end;
    cbn [gw trace contexts executions active_executions execution_handlers];
    eexists _, _, _; (split; [rewrite <- ?app_assoc; reflexivity |]);
    by repeat constructor.
Qed.

(** X4.  [_handle_execution_failure] never raises, and the record it has
    marked stays Failed whatever the rollback did: it carries the error
    message and the completion time, its rollback flags are untouched, and
    [execution_rollback_successful] is never logged, because the status for
    a rolled-back execution does not exist. *)
Theorem failure_handler_leaves_record_failed
    (execution context : loc) (error_message : string) (s : State G) :
  (execution < length (executions s))%nat ->
  let out := _handle_execution_failure env execution context error_message s in
  let record := execution_at execution (snd out) in
  fst out = Ok tt
  /\ record = mark_failed error_message (fst (now env (gw s))) (execution_at execution s)
  /\ exec_status record = OS_FAILED
  /\ exec_error_message record = Some error_message
  /\ exec_rollback_completed record = exec_rollback_completed (execution_at execution s)
  /\ count_events (is_log "execution_rollback_successful") (events_since s (snd out)) = 0%nat
  /\ active_executions (snd out) = active_executions s.
Proof.
  intros Hvalid. cbv zeta.
  rewrite _handle_execution_failure_eq. cbv zeta.
  destruct (_rollback_execution_events context (failure_marked env execution error_message s))
    as (b & g' & rb & Hrb & Hshape).
  rewrite Hrb.
  assert (count_events (is_log "execution_rollback_successful") rb = 0%nat) as Hnone.
  { apply count_events_none. eapply Forall_impl; [exact Hshape |].
    intros [name d| | | | |] Hev; try reflexivity. cbn in Hev |- *.
    destruct (decide (name = "execution_rollback_successful")) as [-> | Hne];
      [discriminate Hev | by apply bool_decide_eq_false]. }
  assert (forall name d,
            execution_at execution
              (logged name d
                 (mkState g' (trace (failure_marked env execution error_message s) ++ rb)
                    (contexts (failure_marked env execution error_message s))
                    (executions (failure_marked env execution error_message s))
                    (active_executions (failure_marked env execution error_message s))
                    (execution_handlers (failure_marked env execution error_message s))))
            = mark_failed error_message (fst (now env (gw s))) (execution_at execution s))
    as Hrec.
  { intros name d. unfold execution_at, logged, failure_marked. cbn.
    by apply list_lookup_total_alter_eq. }
  destruct b; cbn [fst snd]; rewrite Hrec;
    (split; [reflexivity |]); (split; [reflexivity |]); (split; [reflexivity |]);
    (split; [reflexivity |]); (split; [reflexivity |]);
    (split; [| reflexivity]);
    unfold events_since, failure_marked, logged; cbn [trace set_trace set_gw set_executions].
  all: rewrite <- !app_assoc, drop_app_length, !count_events_app, Hnone; reflexivity.
Qed.

End RollbackProperties.

Lemma failure_handler_leaves_record_failed_witness :
  exec_status
    (execution_at 0%nat
       (snd (_handle_execution_failure cloud_env 0%nat 0%nat "boom" (admitted restore_works))))
  = OS_FAILED
  /\ exec_error_message
       (execution_at 0%nat
          (snd (_handle_execution_failure cloud_env 0%nat 0%nat "boom"
                  (admitted restore_works))))
     = Some "boom".
Proof.
  destruct (failure_handler_leaves_record_failed cloud_env 0%nat 0%nat "boom"
              (admitted restore_works))
    as (_ & _ & H3 & H4 & _); [vm_compute; lia |].
  split; assumption.
Defined.

(** ** The registry over whole runs *)

Section RegistryProperties.
Context {G : Type} (env : Env G).

(** The assignments of [execute_optimization] after a pipeline that
    returned. *)
Definition mark_completed (t : Z) (e : OptimizationExecution) : OptimizationExecution :=
  set_exec_completed_at (Some t) (set_exec_status OS_COMPLETED e).

Lemma exec_id_alter_total (f : OptimizationExecution -> OptimizationExecution)
    (i : nat) (l : list OptimizationExecution) :
  (forall e, exec_id (f e) = exec_id e) ->
  exec_id (alter f i l !!! i) = exec_id (l !!! i).
Proof.
  intros Hf. destruct (decide (i < length l)%nat) as [Hv | Hv].
  - rewrite list_lookup_total_alter_eq by assumption. apply Hf.
  - rewrite !list_lookup_total_alt, list_lookup_alter. case_decide; [| congruence].
    rewrite (lookup_ge_None_2 l i) by lia. reflexivity.
Qed.

Lemma execute_optimization_run_ok (execution context : loc)
    (opportunity : OptimizationOpportunity) (s s2 : State G) :
  _run_execution_pipeline env context opportunity s = (Ok tt, s2) ->
  execute_optimization_run env execution context opportunity s =
  (Ok tt,
   unregistered execution
     (logged "optimization_execution_completed"
        [("execution_id",
          VStr (exec_id (mark_completed (fst (now env (gw s2))) (execution_at execution s2))));
         ("opportunity_id", VStr (opp_id opportunity))]
        (set_gw (snd (now env (gw s2)))
           (set_executions
              (alter (mark_completed (fst (now env (gw s2)))) execution (executions s2))
              s2)))).
Proof.
  intros Hp.
  unfold execute_optimization_run, try_finally, try_except, mbind, M_bind.
  unfold bind at 1. rewrite Hp.
  unfold bind, update_execution, datetime_now, read_execution, log_event, emit, modify, gets,
    del_active_execution, ret, unregistered, logged, mbind, M_bind, bind, gets, modify.
  destruct s2 as [g tr ctxs execs act hs].
  unfold set_gw, set_executions, set_trace, set_active_executions, execution_at.
  cbn -[mark_completed]. destruct (now env g) as [t g'].
  cbn -[mark_completed]. rewrite list_alter_alter_eq.
  change (set_exec_completed_at (Some t) ∘ set_exec_status OS_COMPLETED)
    with (mark_completed t).
  rewrite !exec_id_alter_total by reflexivity.
  change (exec_id (mark_completed t (execs !!! execution)))
    with (exec_id (execs !!! execution)).
  unfold loc in *. generalize (exec_id (execs !!! execution)). intros key.
  destruct (act !! key) eqn:Hk; cbn; rewrite ?Hk; cbn; [reflexivity |].
  by rewrite delete_id.
Qed.

(** What [execute_optimization] leaves behind, on each of its paths. *)
Lemma execute_optimization_outcome
    (opportunity : OptimizationOpportunity) (approver_id : string) (s : State G) :
  let out := execute_optimization env opportunity approver_id s in
  let id := fst (uuid4 env (gw s)) in
  match fst (execute_optimization_admit env opportunity approver_id s) with
  | Ok _ => active_executions (snd out) = delete id (active_executions s)
  | Raise e => fst out = Raise e /\ active_executions (snd out) = active_executions s
  end
  /\ execution_handlers (snd out) = execution_handlers s
  /\ length (executions (snd out)) = S (length (executions s)).
Proof.
  cbv zeta. rewrite execute_optimization_eq.
  destruct (execute_optimization_admit env opportunity approver_id s)
    as [[[execution context]|e] s1] eqn:Hadmit; cbn [fst snd].
  - pose proof (execute_optimization_admit_ok env _ _ _ _ _ _ Hadmit) as Hok.
    cbv zeta in Hok.
    destruct Hok as (-> & -> & Hexecs & (cfg & Hctxs) & Hact & Hhs & d0 & Htr1).
    pose proof (pipeline_frame_run_execution_pipeline env (length (contexts s)) opportunity s1)
      as Hframe.
    destruct (_run_execution_pipeline env (length (contexts s)) opportunity s1)
      as [[[]|e] s2] eqn:Hpipe; cbn [snd] in Hframe;
      destruct Hframe as (HE & HA & HH & HL & pl & Htr2 & Hpl).
    + rewrite (execute_optimization_run_ok _ _ _ _ _ Hpipe). cbn [fst snd].
      unfold unregistered.
      match goal with
      | |- context [delete ?k _] => assert (k = fst (uuid4 env (gw s))) as Hid
      end.
      { unfold execution_at, logged. cbn. rewrite HE, Hexecs.
        rewrite exec_id_alter_total by reflexivity.
        rewrite lookup_total_snoc. reflexivity. }
      rewrite Hid. cbn.
      rewrite HA, Hact, delete_insert_eq, HH, Hhs, length_alter, HE, Hexecs, length_app.
      cbn. repeat split. lia.
    + destruct (failing_run env _ _ _ _ _ _ _ _ Hadmit Hpipe)
        as (b & final & pl' & rb & d0' & d1 & d2 & d3 & Hrun & Hb & _ & _ & _ & Htr & _ & _
            & _ & _ & _ & _ & Hrec & Hactf).
      rewrite execute_optimization_eq, Hadmit in Hrun.
      destruct (execute_optimization_run env (length (executions s)) (length (contexts s))
                  opportunity s1) as [[[]|e'] s3] eqn:Hr; [discriminate |].
      injection Hrun as -> <-. cbn [fst snd].
      split; [exact Hactf |].
      rewrite (execute_optimization_run_failed env _ _ _ _ _ _ Hpipe) in Hr.
      injection Hr as <-.
      rewrite _handle_execution_failure_eq. cbv zeta.
      destruct (_rollback_execution_events env (length (contexts s))
                  (failure_marked env (length (executions s)) (exc_msg e) s2))
        as (b' & g' & rb' & Hrb' & _).
      rewrite Hrb'.
      destruct b'; unfold logged, unregistered, failure_marked; cbn;
        rewrite HH, Hhs, length_alter, HE, Hexecs, length_app; cbn; (split; [reflexivity | lia]).
  - apply (f_equal fst) in Hadmit as Hres. cbn in Hres.
    rewrite execute_optimization_admit_eq in Hadmit. cbv zeta in Hadmit.
    destruct (get_resource_config env _ _ _) as [[cfg|e0] g3]; [discriminate |].
    injection Hadmit as <- <-. cbn. rewrite length_app. cbn. repeat split. lia.
Qed.

(** X5.  [execute_optimization] cleans up after itself on every path: when
    the execution was admitted, the registry at the end is the registry at
    the start without the id of this execution, whether the pipeline
    returned or raised, so that [get_execution_status] no longer finds it;
    when admission raised, the registry is unchanged.  The handler table is
    never changed, and exactly one execution record is created. *)
Theorem execute_optimization_always_unregisters
    (opportunity : OptimizationOpportunity) (approver_id : string) (s : State G) :
  let out := execute_optimization env opportunity approver_id s in
  let id := fst (uuid4 env (gw s)) in
  match fst (execute_optimization_admit env opportunity approver_id s) with
  | Ok _ =>
      active_executions (snd out) = delete id (active_executions s)
      /\ fst (get_execution_status id (snd out)) = Ok (mkReport id "not_found" None false)
  | Raise e => fst out = Raise e /\ active_executions (snd out) = active_executions s
  end
  /\ execution_handlers (snd out) = execution_handlers s
  /\ length (executions (snd out)) = S (length (executions s)).
Proof.
  cbv zeta.
  pose proof (execute_optimization_outcome opportunity approver_id s) as H. cbv zeta in H.
  destruct (fst (execute_optimization_admit env opportunity approver_id s)) as [?|e];
    [| exact H].
  destruct H as (Hact & Hrest). split; [| exact Hrest]. split; [exact Hact |].
  unfold get_execution_status, mbind, M_bind, bind, gets, mret, M_ret, ret. cbn [fst snd].
  by rewrite Hact, lookup_delete_eq.
Qed.

End RegistryProperties.

(** ** Cancellation and the status query *)

Section CancellationProperties.
Context {G : Type} (env : Env G).

(** The state after a rollback that is part of a cancellation. *)
Lemma cancel_execution_eq (execution_id reason : string) (s : State G) (entry : ActiveEntry) :
  active_executions s !! execution_id = Some entry ->
  exists (g' : G) (rb : list Event),
    cancel_execution env execution_id reason s =
    (Ok true,
     mkState g'
       (trace s ++ rb ++ [EvLog "execution_cancelled"
                            [("execution_id", VStr execution_id); ("reason", VStr reason)]])
       (contexts s)
       (alter (set_exec_error_message (Some ("Cancelled: " ++ reason))
               ∘ set_exec_status OS_CANCELLED)
          (entry_execution entry) (executions s))
       (delete execution_id (active_executions s))
       (execution_handlers s))
    /\ Forall (fun ev => is_rollback_event ev = true) rb.
Proof.
  intros Hentry.
  destruct (_rollback_execution_events env (entry_context entry) s) as (b & g' & rb & Hrb & Hev).
  exists g', rb. split; [| exact Hev].
  unfold cancel_execution, try_except, mbind, M_bind, mret, M_ret.
  unfold bind at 1. unfold gets at 1. rewrite Hentry.
  unfold bind at 1. rewrite Hrb.
  unfold bind, update_execution, del_active_execution, log_event, emit, modify, gets, ret,
    mbind, M_bind, bind, gets, modify.
  cbn [fst snd active_executions set_executions set_trace set_active_executions
       executions trace contexts gw execution_handlers].
  rewrite Hentry.
  cbn [fst snd active_executions set_executions set_trace set_active_executions
       executions trace contexts gw execution_handlers].
  by rewrite list_alter_alter_eq, <- app_assoc.
Qed.

(** [get_execution_status] only reads. *)
Lemma get_execution_status_reads (execution_id : string) (s : State G) :
  get_execution_status execution_id s =
  (Ok match active_executions s !! execution_id with
      | Some execution_data =>
          mkReport execution_id (ExecutionStatus_value (entry_status execution_data))
            (Some (context_at (entry_context execution_data) s)) true
      | None => mkReport execution_id "not_found" None false
      end, s).
Proof.
  unfold get_execution_status, mbind, M_bind, mret, M_ret, bind, gets, read_context, ret.
  cbn [fst snd]. by destruct (active_executions s !! execution_id).
Qed.

(** X6.  Cancellation is final and local.  After [cancel_execution] on a
    registered execution, [get_execution_status] reports the execution as
    [not_found], a second cancellation returns [False] without any effect
    (no second rollback, no event), and the report of every other execution
    is what it was before. *)
Theorem cancel_is_final
    (execution_id reason : string) (s : State G) (entry : ActiveEntry) :
  active_executions s !! execution_id = Some entry ->
  let s' := snd (cancel_execution env execution_id reason s) in
  get_execution_status execution_id s' = (Ok (mkReport execution_id "not_found" None false), s')
  /\ (forall reason', cancel_execution env execution_id reason' s' = (Ok false, s'))
  /\ (forall other, other <> execution_id ->
        fst (get_execution_status other s') = fst (get_execution_status other s)).
Proof.
  intros Hentry s'. subst s'.
  destruct (cancel_execution_eq execution_id reason s entry Hentry) as (g' & rb & -> & _).
  cbn [snd]. split; [| split].
  - rewrite get_execution_status_reads. cbn [active_executions].
    by rewrite lookup_delete_eq.
  - intros reason'. apply cancel_unknown_execution. cbn [active_executions].
    apply lookup_delete_eq.
  - intros other Hne. rewrite !get_execution_status_reads. cbn [fst active_executions].
    rewrite lookup_delete_ne by congruence.
    destruct (active_executions s !! other); reflexivity.
Qed.

End CancellationProperties.

(** Two admitted executions; the first is then cancelled. *)
Definition two_admitted : State Cloud :=
  snd (execute_optimization_admit cloud_env rightsizing_i_abc "bob" (admitted healthy)).

Lemma cancel_is_final_witness :
  active_executions two_admitted !! "exec-0" = Some (mkEntry 0%nat 0%nat RUNNING)
  /\ fst (get_execution_status "exec-0"
            (snd (cancel_execution cloud_env "exec-0" "operator" two_admitted)))
     = Ok (mkReport "exec-0" "not_found" None false)
  /\ fst (get_execution_status "exec-1"
            (snd (cancel_execution cloud_env "exec-0" "operator" two_admitted)))
     = Ok (mkReport "exec-1" "running" (Some (context_at 1%nat two_admitted)) true).
Proof.
  assert (active_executions two_admitted !! "exec-0" = Some (mkEntry 0%nat 0%nat RUNNING))
    as Hentry by (vm_compute; reflexivity).
  destruct (cancel_is_final cloud_env "exec-0" "operator" two_admitted _ Hentry)
    as (Hgone & _ & Hother).
  split; [exact Hentry |]. split.
  - rewrite Hgone. reflexivity.
  - rewrite (Hother "exec-1") by discriminate. vm_compute. reflexivity.
Defined.

(** ** Calls of the public methods, one after the other *)

Inductive ApiCall : Type :=
  | CallExecute (opportunity : OptimizationOpportunity) (approver_id : string)
  | CallCancel (execution_id reason : string)
  | CallStatus (execution_id : string)
  | CallInitialize.

Section SequentialCalls.
Context {G : Type} (env : Env G) (service_initialize : G -> Result unit * G).

Definition run_call (c : ApiCall) (s : State G) : State G :=
  match c with
  | CallExecute opportunity approver_id => snd (execute_optimization env opportunity approver_id s)
  | CallCancel execution_id reason => snd (cancel_execution env execution_id reason s)
  | CallStatus execution_id => snd (get_execution_status execution_id s)
  | CallInitialize => snd (initialize service_initialize s)
  end.

Definition run_calls (cs : list ApiCall) (s : State G) : State G :=
  foldl (fun s c => run_call c s) s cs.

Lemma run_call_registry (c : ApiCall) (s : State G) :
  active_executions (run_call c s) ⊆ active_executions s.
Proof.
  destruct c as [opportunity approver_id | execution_id reason | execution_id |]; cbn [run_call].
  - pose proof (execute_optimization_outcome env opportunity approver_id s) as H.
    cbv zeta in H.
    destruct (fst (execute_optimization_admit env opportunity approver_id s)).
    + destruct H as (-> & _). apply delete_subseteq.
    + destruct H as ((_ & ->) & _). reflexivity.
  - destruct (active_executions s !! execution_id) as [entry |] eqn:Hentry.
    + destruct (cancel_execution_eq env execution_id reason s entry Hentry) as (g' & rb & -> & _).
      apply delete_subseteq.
    + by rewrite cancel_unknown_execution.
  - by rewrite get_execution_status_reads.
  - unfold initialize, try_except, mbind, M_bind, bind, on_gateway.
    by destruct (service_initialize (gw s)) as [[[]|e] g'].
Qed.

(** X7.  No call that has returned or raised leaves an entry behind: over
    any sequence of calls of [initialize], [execute_optimization],
    [cancel_execution] and [get_execution_status], made one after the other,
    the registry only shrinks.  On an engine that starts with an empty
    registry, a status query made between calls therefore always answers
    [not_found] and a cancellation always returns [False]: an execution is
    visible to them only while its own [execute_optimization] is running. *)
Theorem sequential_calls_leave_no_entry (cs : list ApiCall) (s : State G) :
  active_executions (run_calls cs s) ⊆ active_executions s
  /\ (active_executions s = ∅ ->
      forall execution_id reason,
        fst (get_execution_status execution_id (run_calls cs s))
        = Ok (mkReport execution_id "not_found" None false)
        /\ fst (cancel_execution env execution_id reason (run_calls cs s)) = Ok false).
Proof.
  assert (active_executions (run_calls cs s) ⊆ active_executions s) as Hsub.
  { revert s. induction cs as [| c cs IH]; intros s; [reflexivity |].
    cbn. etrans; [apply IH | apply run_call_registry]. }
  split; [exact Hsub |].
  intros Hempty execution_id reason. rewrite Hempty in Hsub.
  assert (active_executions (run_calls cs s) !! execution_id = None) as Hnone.
  { eapply lookup_weaken_None; [| exact Hsub]. apply lookup_empty. }
  rewrite get_execution_status_reads, Hnone.
  by rewrite cancel_unknown_execution.
Qed.

End SequentialCalls.

Lemma sequential_calls_leave_no_entry_witness :
  active_executions (init healthy) = ∅
  /\ fst (get_execution_status "exec-0"
            (run_calls cloud_env (fun g => (Ok tt, g))
               [CallInitialize; CallExecute rightsizing_i_abc "alice"; CallStatus "exec-0"]
               (init healthy)))
     = Ok (mkReport "exec-0" "not_found" None false)
  /\ fst (cancel_execution cloud_env "exec-0" "operator"
            (run_calls cloud_env (fun g => (Ok tt, g))
               [CallInitialize; CallExecute rightsizing_i_abc "alice"; CallStatus "exec-0"]
               (init healthy)))
     = Ok false.
Proof.
  split; [reflexivity |].
  apply (sequential_calls_leave_no_entry cloud_env (fun g => (Ok tt, g))
           [CallInitialize; CallExecute rightsizing_i_abc "alice"; CallStatus "exec-0"]
           (init healthy)).
  reflexivity.
Defined.

(** ** What a pipeline does to the contexts and to its steps *)

(** All contexts but [context] are left alone, and [context] changes in its
    backup data at most. *)
Definition context_frame {G} (context : loc) : relation (State G) :=
  fun a b =>
    (forall l, l <> context -> contexts b !! l = contexts a !! l)
    /\ set_ctx_backup_data ∅ <$> contexts b !! context
       = set_ctx_backup_data ∅ <$> contexts a !! context.

#[global] Instance context_frame_preorder G context : PreOrder (@context_frame G context).
Proof.
  split.
  - intros a. by split.
  - intros a b c [H1 H2] [H3 H4]. split.
    + intros l Hl. by rewrite H3, H1.
    + by rewrite H4, H2.
Qed.

Definition step_context_frame {G} (context : loc) : relation (ExecutionStep * State G) :=
  fun a b => context_frame context (snd a) (snd b).

#[global] Instance step_context_frame_preorder G context :
  PreOrder (@step_context_frame G context).
Proof.
  split.
  - intros a. unfold step_context_frame. reflexivity.
  - intros a b c H1 H2. unfold step_context_frame in *. by etrans.
Qed.

Section ContextFrame.
Context {G : Type} (env : Env G).

Lemma context_frame_quiet {A} (context : loc) (m : M (State G) A) :
  (forall s, contexts (snd (m s)) = contexts s) -> frame (context_frame context) m.
Proof. intros H s. unfold context_frame. by rewrite H. Qed.

Lemma contexts_gateway {A} call (op : G -> Result A * G) (s : State G) :
  contexts (snd (gateway call op s)) = contexts s.
Proof. unfold gateway. by destruct (op (gw s)). Qed.

Lemma contexts_datetime_now (s : State G) : contexts (snd (datetime_now env s)) = contexts s.
Proof. unfold datetime_now. by destruct (now env (gw s)). Qed.

Lemma context_frame_backup (context : loc) (backup_data : Dict) :
  frame (context_frame context) (update_context (G:=G) context (set_ctx_backup_data backup_data)).
Proof.
  intros s. unfold update_context, modify, context_frame, set_contexts.
  cbn [snd contexts]. split.
  - intros l Hl. rewrite list_lookup_alter. case_decide; [congruence | reflexivity].
  - rewrite list_lookup_alter. case_decide; [| congruence].
    unfold loc in *. destruct (contexts s !! context); reflexivity.
Qed.

Lemma step_context_frame_on_state {A} (context : loc) (m : M (State G) A) :
  frame (context_frame context) m -> frame (step_context_frame context) (on_state m).
Proof.
  intros H [st s]. unfold on_state, step_context_frame. cbn. specialize (H s).
  by destruct (m s).
Qed.

Lemma step_context_frame_pure {A} (context : loc) (m : M (ExecutionStep * State G) A) :
  (forall ss, snd (snd (m ss)) = snd ss) -> frame (step_context_frame context) m.
Proof. intros H ss. unfold step_context_frame. rewrite H. reflexivity. Qed.

Lemma step_context_frame_observe (context : loc) :
  frame (step_context_frame context) (observe_step (G:=G)).
Proof.
  intros ss. unfold observe_step.
  by apply step_context_frame_on_state, context_frame_quiet.
Qed.

Ltac context_leaf :=
  first
    [ apply step_context_frame_observe
    | apply step_context_frame_pure; intros [? ?]; reflexivity
    | apply step_context_frame_on_state;
      first [ apply context_frame_backup
            | apply context_frame_quiet; intros ?;
              first [ reflexivity | apply contexts_gateway | apply contexts_datetime_now ] ] ].

Lemma step_context_frame_try (context : loc) :
  frame (step_context_frame context) (_execute_step_try env context).
Proof.
  unfold _execute_step_try, _execute_step_dispatch, assign_status, log_event,
    _execute_preparation_step, _execute_validation_step,
    _execute_backup_step, _execute_optimization_step, _execute_verification_step,
    _execute_completion_step.
  frame_split; try context_leaf.
Qed.

Lemma step_context_frame_except (context : loc) (e : Exc) :
  frame (step_context_frame context) (_execute_step_except (G:=G) e).
Proof.
  unfold _execute_step_except, assign_status, log_event.
  frame_split; try context_leaf.
Qed.

Lemma step_context_frame_execute_step (context : loc) :
  frame (step_context_frame context) (_execute_step env context).
Proof.
  apply _execute_step_frame; [tc_solve | | apply step_context_frame_try
                             | intros e; apply step_context_frame_except].
  intros ev _. by apply step_context_frame_on_state, context_frame_quiet.
Qed.

(** One turn of the loop of [_run_execution_pipeline], by the outcome of
    [_execute_step]: a record is appended to the log of the context when the
    step has returned; when it has raised, the failure is logged and the
    rollback call of the driver raises in place of the step's exception. *)
Lemma _run_execution_pipeline_body_eq (context : loc) (step : ExecutionStep) (s : State G) :
  _run_execution_pipeline_body env context (step, s) =
  match _execute_step env context (step, s) with
  | (Ok _, (step', s')) =>
      (Ok tt,
       (step',
        set_contexts
          (alter (fun c => set_ctx_execution_log (ctx_execution_log c ++ [log_record step']) c)
             context (contexts s')) s'))
  | (Raise e, (step', s')) =>
      (Raise rollback_type_error,
       (step',
        logged "execution_step_failed"
          [("step_id", VStr (step_id step')); ("step_name", VStr (step_name step'));
           ("error", VStr (exc_msg e))] s'))
  end.
Proof.
  unfold _run_execution_pipeline_body, try_except, mbind, M_bind.
  unfold bind at 1.
  destruct (_execute_step env context (step, s)) as [r1 [st1 s1]] eqn:H1.
  apply _execute_step_run in H1. destruct H1 as (_ & _ & _ & Hres).
  cbn [fst snd] in *. destruct r1 as [[]|e].
  - unfold bind, the_step, on_state, update_context, modify. cbn [fst snd].
    rewrite Hres. reflexivity.
  - reflexivity.
Qed.

End ContextFrame.

Section PipelineOutcome.
Context {G : Type} (env : Env G).

(** The fields of a context that no step and no driver assigns. *)
Definition ctx_frozen (c : ExecutionContext) : ExecutionContext :=
  set_ctx_execution_log [] (set_ctx_backup_data ∅ c).

Lemma fmap_through_backup {B} (g : ExecutionContext -> B) (x y : option ExecutionContext) :
  (forall c, g (set_ctx_backup_data ∅ c) = g c) ->
  set_ctx_backup_data ∅ <$> x = set_ctx_backup_data ∅ <$> y ->
  g <$> x = g <$> y.
Proof.
  intros Hg. destruct x as [a|], y as [b|]; cbn; intros H; try discriminate; [| reflexivity].
  f_equal. rewrite <- (Hg a), <- (Hg b). congruence.
Qed.

(** The loop of [_run_execution_pipeline], as a whole: the steps that have
    returned, then (when the loop was left by an exception) the step that
    raised and the steps that were never started. *)
Lemma run_steps_outcome (context : loc) (steps steps' : list ExecutionStep)
    (s s' : State G) (r : Result unit) :
  run_steps env steps context s = (r, (steps', s')) ->
  exists done rest,
    steps' = (done ++ rest)%list
    /\ map step_id steps' = map step_id steps
    /\ Forall (fun st => step_status st = COMPLETED) done
    /\ (forall l, l <> context -> contexts s' !! l = contexts s !! l)
    /\ ctx_frozen <$> contexts s' !! context = ctx_frozen <$> contexts s !! context
    /\ ctx_execution_log <$> contexts s' !! context
       = (fun c => ctx_execution_log c ++ map log_record done)%list <$> contexts s !! context
    /\ match r with
       | Ok _ => rest = []
       | Raise e =>
           e = rollback_type_error
           /\ exists failed cause d,
                rest = failed :: drop (S (length done)) steps
                /\ step_status failed = FAILED
                /\ step_error_message failed = Some (exc_msg cause)
                /\ last (trace s') = Some (EvLog "execution_step_failed" d)
                /\ d !! 2%nat = Some ("error", VStr (exc_msg cause))
       end.
Proof.
  revert s steps' s' r. induction steps as [|step rest0 IH]; intros s steps' s' r; cbn [run_steps].
  - intros H. injection H as <- <- <-. exists [], []. repeat split; try done.
    + cbn [map]. unfold loc in *. destruct (contexts s !! context); cbn; [| done].
      by rewrite app_nil_r.
  - rewrite _run_execution_pipeline_body_eq.
    pose proof (step_context_frame_execute_step env context (step, s)) as [Hother Hown].
    destruct (_execute_step env context (step, s)) as [r1 [st1 s1]] eqn:H1.
    apply _execute_step_run in H1. destruct H1 as (Hid & _ & _ & Hres).
    cbn [fst snd] in *. destruct r1 as [[]|cause].
    + match goal with
      | |- context [run_steps env rest0 context ?x] =>
          destruct (run_steps env rest0 context x) as [r2 [rest' s'']] eqn:Hrest
      end.
      destruct (IH _ _ _ _ Hrest) as (done & rest & -> & Hids & Hdone & Ho & Hf & Hlog & Hr).
      intros H. injection H as <- <- <-.
      cbn [contexts set_contexts] in Ho, Hf, Hlog.
      exists (st1 :: done), rest. split; [reflexivity |].
      split; [cbn [map]; cbn [map] in Hids; by rewrite Hids, Hid |].
      split; [by constructor |].
      split.
      { intros l Hl. rewrite Ho, list_lookup_alter by assumption.
        case_decide; [congruence | by apply Hother]. }
      split.
      { rewrite Hf, list_lookup_alter. case_decide; [| congruence].
        rewrite <- option_fmap_compose.
        transitivity (ctx_frozen <$> contexts s1 !! context).
        - unfold loc in *. by destruct (contexts s1 !! context).
        - by apply fmap_through_backup. }
      split.
      { rewrite Hlog, list_lookup_alter. case_decide; [| congruence].
        rewrite <- option_fmap_compose. cbn [map].
        transitivity ((fun c => (ctx_execution_log c ++ log_record st1 :: map log_record done)%list)
                        <$> contexts s1 !! context).
        - unfold loc in *. destruct (contexts s1 !! context); cbn; [| reflexivity].
          by rewrite <- app_assoc.
        - by apply (fmap_through_backup
                      (fun c => (ctx_execution_log c ++ log_record st1 :: map log_record done)%list)). }
      destruct r2 as [[]|e]; [exact Hr |].
      destruct Hr as (-> & failed & cause & d & -> & Hst & Hmsg & Hlast & Hd).
      split; [reflexivity |]. exists failed, cause, d. by repeat split.
    + intros H. injection H as <- <- <-. destruct Hres as [Hst Hmsg].
      exists [], (st1 :: rest0). split; [reflexivity |].
      split; [cbn [map]; by rewrite Hid |].
      split; [constructor |].
      split; [exact Hother |].
      split; [by apply (fmap_through_backup ctx_frozen) |].
      split.
      { cbn [map]. change (contexts (logged _ _ s1)) with (contexts s1).
        transitivity (ctx_execution_log <$> contexts s !! context).
        - by apply fmap_through_backup.
        - unfold loc in *. destruct (contexts s !! context); cbn; [| reflexivity].
          by rewrite app_nil_r. }
      split; [reflexivity |]. eexists st1, cause, _.
      split; [reflexivity |]. split; [exact Hst |]. split; [exact Hmsg |].
      split; [apply last_snoc | reflexivity].
Qed.

End PipelineOutcome.

(** All contexts but [context] are left alone, and [context] keeps the
    fields that are set when it is created. *)
Definition own_context_frame {G} (context : loc) : relation (State G) :=
  fun a b =>
    (forall l, l <> context -> contexts b !! l = contexts a !! l)
    /\ ctx_frozen <$> contexts b !! context = ctx_frozen <$> contexts a !! context.

#[global] Instance own_context_frame_preorder G context : PreOrder (@own_context_frame G context).
Proof.
  split.
  - intros a. by split.
  - intros a b c [H1 H2] [H3 H4]. split.
    + intros l Hl. by rewrite H3, H1.
    + by rewrite H4, H2.
Qed.

Section PipelineTheorems.
Context {G : Type} (env : Env G).

(** X8.  Whatever makes a step fail, the loop of [_run_execution_pipeline]
    is left by the [TypeError] of the driver's own rollback call, never by
    the exception of the step and never by the driver's
    [Step ... failed after ... retries].  The steps before the failing one
    are Completed, the failing one is Failed and carries the message of the
    exception that made it fail, the later ones are as they were built; the
    last event is the log entry of the driver, which still has the message
    of the step.  When the loop ends normally every step is Completed. *)
Theorem step_failure_surfaces_as_type_error
    (context : loc) (steps : list ExecutionStep) (s : State G) :
  let out := run_steps env steps context s in
  match fst out with
  | Ok _ =>
      Forall (fun st => step_status st = COMPLETED) (fst (snd out))
      /\ map step_id (fst (snd out)) = map step_id steps
  | Raise e =>
      e = rollback_type_error
      /\ exists done failed cause d,
           fst (snd out) = (done ++ failed :: drop (S (length done)) steps)%list
           /\ Forall (fun st => step_status st = COMPLETED) done
           /\ step_status failed = FAILED
           /\ step_error_message failed = Some (exc_msg cause)
           /\ last (trace (snd (snd out))) = Some (EvLog "execution_step_failed" d)
           /\ d !! 2%nat = Some ("error", VStr (exc_msg cause))
  end.
Proof.
  cbv zeta. destruct (run_steps env steps context s) as [r [steps' s']] eqn:Hrun.
  apply run_steps_outcome in Hrun.
  destruct Hrun as (done & rest & -> & Hids & Hdone & _ & _ & _ & Hr).
  cbn [fst snd]. destruct r as [[]|e].
  - subst rest. rewrite app_nil_r in *. by split.
  - destruct Hr as (-> & failed & cause & d & -> & Hst & Hmsg & Hlast & Hd).
    split; [reflexivity |]. exists done, failed, cause, d. by repeat split.
Qed.

(** X9.  The execution log of the context grows by one record for each
    step that has returned, in the order of the steps, and each of these
    records has the status [completed]: a step that has failed leaves no
    record. *)
Theorem execution_log_records_returned_steps
    (context : loc) (steps : list ExecutionStep) (s : State G) :
  let out := run_steps env steps context s in
  exists done,
    done `prefix_of` fst (snd out)
    /\ (is_ok (fst out) = true -> done = fst (snd out))
    /\ (is_ok (fst out) = false ->
        exists failed, fst (snd out) !! length done = Some failed /\ step_status failed = FAILED)
    /\ ctx_execution_log <$> contexts (snd (snd out)) !! context
       = (fun c => ctx_execution_log c ++ map log_record done)%list <$> contexts s !! context
    /\ Forall (fun record : Dict => record !! "status" = Some (VStr "completed"))
         (map log_record done).
Proof.
  cbv zeta. destruct (run_steps env steps context s) as [r [steps' s']] eqn:Hrun.
  apply run_steps_outcome in Hrun.
  destruct Hrun as (done & rest & -> & _ & Hdone & _ & _ & Hlog & Hr).
  cbn [fst snd]. exists done. split; [by apply prefix_app_r |].
  split; [| split; [| split; [exact Hlog |]]].
  - intros Hok. destruct r as [[]|e]; [| discriminate]. subst rest. by rewrite app_nil_r.
  - intros Hok. destruct r as [[]|e]; [discriminate |].
    destruct Hr as (_ & failed & cause & d & -> & Hst & _).
    exists failed. split; [| exact Hst]. by rewrite list_lookup_middle.
  - apply Forall_map. eapply Forall_impl; [exact Hdone |].
    intros st Hst. unfold log_record. rewrite Hst. reflexivity.
Qed.

Lemma own_context_frame_run_execution_pipeline (context : loc)
    (opportunity : OptimizationOpportunity) :
  frame (own_context_frame context) (_run_execution_pipeline env context opportunity).
Proof.
  unfold _run_execution_pipeline, _create_execution_steps, _get_optimization_specific_steps,
    read_context.
  frame_split.
  intros s. destruct (run_steps env a context s) as [r [steps' s']] eqn:Hrun.
  apply run_steps_outcome in Hrun.
  destruct Hrun as (done & rest & _ & _ & _ & Hother & Hown & _). by split.
Qed.

(** X10.  A pipeline works on its own context only.  Whether it returns or
    raises, every other context is what it was, its own context keeps all
    the fields set at its creation (the ids, the resource, the current and
    the target configuration: only [backup_data] and [execution_log] are
    assigned), and no execution record, no registry entry and no handler is
    changed. *)
Theorem pipeline_touches_only_its_own_context
    (context : loc) (opportunity : OptimizationOpportunity) (s : State G) :
  let s' := snd (_run_execution_pipeline env context opportunity s) in
  (forall l, l <> context -> contexts s' !! l = contexts s !! l)
  /\ ctx_frozen <$> contexts s' !! context = ctx_frozen <$> contexts s !! context
  /\ executions s' = executions s
  /\ active_executions s' = active_executions s
  /\ execution_handlers s' = execution_handlers s.
Proof.
  cbv zeta.
  destruct (own_context_frame_run_execution_pipeline context opportunity s) as [Hother Hown].
  destruct (pipeline_frame_run_execution_pipeline env context opportunity s)
    as (HE & HA & HH & _).
  by repeat split.
Qed.

End PipelineTheorems.

(** ** The phases that store and that apply *)

Section PhaseProperties.
Context {G : Type} (env : Env G).

(** The state after the Backup phase, and whether the phase returns. *)
Lemma _execute_backup_step_eq (context : loc) (step : ExecutionStep) (s : State G) :
  let c := context_at context s in
  let called :=
    set_trace (trace s ++ [EvGateway (GCreateResourceBackup (ctx_resource_id c)
                                        (ctx_cloud_provider c))]) s in
  match create_resource_backup env (ctx_resource_id c) (ctx_cloud_provider c) (gw s) with
  | (Ok backup_data, g') =>
      snd (snd (_execute_backup_step env context (step, s)))
      = set_contexts (alter (set_ctx_backup_data backup_data) context (contexts s))
          (set_gw g' called)
      /\ is_ok (fst (_execute_backup_step env context (step, s)))
         = bool_decide (is_Some (json_dumps_dict backup_data))
  | (Raise e, g') =>
      _execute_backup_step env context (step, s) = (Raise e, (step, set_gw g' called))
  end.
Proof.
  cbv zeta.
  unfold _execute_backup_step, mbind, M_bind, bind, on_state, read_context, gets, gateway,
    update_context, modify, set_metadata, update_step.
  cbn [fst snd].
  destruct (create_resource_backup env _ _ (gw s)) as [[backup_data|e] g'];
    cbn [fst snd]; [| reflexivity].
  destruct (json_dumps_dict backup_data) as [text|]; cbn [fst snd is_ok].
  - split; [reflexivity |]. by rewrite bool_decide_eq_true_2 by eauto.
  - split; [reflexivity |]. rewrite bool_decide_eq_false_2; [reflexivity | by intros [? ?]].
Qed.

(** X11.  What the rollback restores is what the backup call returned.
    When the backup call of the Backup phase returns, its result is stored
    as [backup_data] of the context, also when the phase then fails because
    the result cannot be serialised; the rollback routine run on that state
    passes this very value to the restore call, and makes the call exactly
    when the value is a non-empty dict.  When the backup call raises, the
    phase raises the same exception and [backup_data] is what it was. *)
Theorem rollback_restores_the_stored_backup
    (context : loc) (step : ExecutionStep) (s : State G) :
  (context < length (contexts s))%nat ->
  let c := context_at context s in
  let out := _execute_backup_step env context (step, s) in
  let s' := snd (snd out) in
  match fst (create_resource_backup env (ctx_resource_id c) (ctx_cloud_provider c) (gw s)) with
  | Ok backup_data =>
      ctx_backup_data (context_at context s') = backup_data
      /\ is_ok (fst out) = bool_decide (is_Some (json_dumps_dict backup_data))
      /\ List.filter is_restore_call (events_since s' (snd (_rollback_execution env context s')))
         = (if dict_truthy backup_data
            then [EvGateway (GRestoreResourceFromBackup (ctx_resource_id c)
                               (ctx_cloud_provider c) backup_data)]
            else [])
  | Raise e =>
      fst out = Raise e
      /\ ctx_backup_data (context_at context s') = ctx_backup_data c
  end.
Proof.
  intros Hvalid. cbv zeta.
  pose proof (_execute_backup_step_eq context step s) as Heq. cbv zeta in Heq.
  destruct (create_resource_backup env _ _ (gw s)) as [[backup_data|e] g'];
    cbn [fst]; [| by rewrite Heq].
  destruct Heq as [-> ->].
  match goal with
  | |- context [_rollback_execution env context ?x] =>
      pose proof (_rollback_execution_restore_call env context x) as Hrestore;
      cbv zeta in Hrestore;
      assert (context_at context x = set_ctx_backup_data backup_data (context_at context s))
        as Hctx
  end.
  { unfold context_at. cbn. by rewrite list_lookup_total_alter_eq. }
  rewrite Hctx in *. by repeat split.
Qed.

(** X12.  The Execution phase does not touch the cloud.  A step of that
    phase, run on an engine that has a handler for the type of the context,
    returns at its first attempt: the handler is called and what it returns
    is dropped.  The attempt makes no gateway call at all, sets no metadata
    on the step and changes no context. *)
Theorem execution_phase_makes_no_call
    (context : loc) (step : ExecutionStep) (s : State G) (h : Handler) :
  step_phase step = EXECUTION ->
  execution_handlers s !! ctx_optimization_type (context_at context s) = Some h ->
  let out := _execute_step env context (step, s) in
  let id := step_id step in
  let rc := step_retry_count step in
  let mr := step_max_retries step in
  fst out = Ok tt
  /\ (exists data,
        events_since s (snd (snd out))
        = [EvEnter "_execute_step"; EvStep id RUNNING rc mr; EvStep id COMPLETED rc mr;
           EvLog "execution_step_completed" data; EvLeave "_execute_step"])
  /\ step_status (fst (snd out)) = COMPLETED
  /\ step_retry_count (fst (snd out)) = rc
  /\ step_metadata (fst (snd out)) = step_metadata step
  /\ contexts (snd (snd out)) = contexts s.
Proof.
  intros Hphase Hh. cbv zeta. rewrite _execute_step_body_eq.
  unfold _execute_step_try, _execute_step_dispatch, _execute_optimization_step, enter_frame,
    leave_frame, assign_status, observe_step, mbind, M_bind, bind, update_step, on_state,
    datetime_now, the_step, read_context, gets, log_event, emit, modify.
  cbn [fst snd set_step_status set_step_started_at step_phase gw set_trace set_gw].
  destruct (now env (gw s)) as [t g1]. cbn [fst snd].
  change (step_phase (set_step_status RUNNING step)) with (step_phase step). rewrite Hphase.
  cbn [fst snd]. 
  change (context_at context (set_gw g1 _)) with (context_at context s).
  cbn [execution_handlers set_gw set_trace]. rewrite Hh. cbv zeta.
  unfold ret. cbn [fst snd gw set_gw set_trace]. 
  destruct (now env g1) as [t' g2].
  cbn [fst snd]. split; [reflexivity |].
  split.
  { eexists. unfold events_since. cbn [trace set_trace set_gw].
    rewrite <- !app_assoc, drop_app_length. reflexivity. }
  by repeat split.
Qed.

End PhaseProperties.

Lemma rollback_restores_the_stored_backup_witness :
  (0 < length (contexts (admitted healthy)))%nat
  /\ dict_truthy
       (ctx_backup_data
          (context_at 0%nat
             (snd (snd (_execute_backup_step cloud_env 0%nat (backup_step, admitted healthy))))))
     = true.
Proof.
  split; [vm_compute; lia |].
  pose proof (rollback_restores_the_stored_backup cloud_env 0%nat backup_step (admitted healthy)
                ltac:(vm_compute; lia)) as H.
  cbv zeta in H.
  destruct (fst (create_resource_backup cloud_env
                   (ctx_resource_id (context_at 0%nat (admitted healthy)))
                   (ctx_cloud_provider (context_at 0%nat (admitted healthy)))
                   (gw (admitted healthy)))) as [backup_data|e] eqn:Hb;
    [| vm_compute in Hb; discriminate Hb].
  destruct H as (-> & _). vm_compute in Hb. injection Hb as <-. vm_compute. reflexivity.
Defined.

Lemma execution_phase_makes_no_call_witness :
  fst (_execute_step cloud_env 0%nat
         (new_step "exec-0_execution" "Execute Optimization" "" EXECUTION 4 30 [],
          admitted healthy)) = Ok tt.
Proof.
  apply (execution_phase_makes_no_call cloud_env 0%nat
           (new_step "exec-0_execution" "Execute Optimization" "" EXECUTION 4 30 [])
           (admitted healthy) H_execute_rightsizing); reflexivity.
Defined.

(** ** Runs on a cloud that answers

    [returns P m Q]: from a state in [P], [m] returns a value in [Q] and
    leaves a state in [P]. *)

Definition returns {S A} (P : S -> Prop) (m : M S A) (Q : A -> Prop) : Prop :=
  forall s, P s -> exists a s', m s = (Ok a, s') /\ Q a /\ P s'.

Section Returns.
Context {S : Type} (P : S -> Prop).

Lemma returns_ret {A} (a : A) (Q : A -> Prop) : Q a -> returns P (ret a) Q.
Proof. intros Ha s Hs. by exists a, s. Qed.

Lemma returns_bind {A B} (m : M S A) (k : A -> M S B) (Q : A -> Prop) (R : B -> Prop) :
  returns P m Q -> (forall a, Q a -> returns P (k a) R) -> returns P (bind m k) R.
Proof.
  intros Hm Hk s Hs. destruct (Hm s Hs) as (a & s' & Hrun & Ha & Hs').
  destruct (Hk a Ha s' Hs') as (b & s'' & Hrun' & Hb & Hs'').
  exists b, s''. unfold bind. by rewrite Hrun.
Qed.

Lemma returns_gets {A} (f : S -> A) (Q : A -> Prop) :
  (forall s, P s -> Q (f s)) -> returns P (gets f) Q.
Proof. intros H s Hs. exists (f s), s. auto. Qed.

Lemma returns_modify (f : S -> S) :
  (forall s, P s -> P (f s)) -> returns P (modify f) (fun _ => True).
Proof. intros H s Hs. exists tt, (f s). auto. Qed.

Lemma returns_for_each {A} (l : list A) (body : A -> M S unit) :
  (forall a, returns P (body a) (fun _ => True)) ->
  returns P (for_each l body) (fun _ => True).
Proof.
  intros Hb. induction l as [|x l IH]; cbn [for_each].
  - by apply returns_ret.
  - eapply returns_bind; [apply Hb | intros _ _; exact IH].
Qed.

End Returns.

(** A cloud that answers for a provider: from a state in [ok], every call
    the engine makes for a resource of that provider returns and leaves a
    state in [ok]; the resource exists, the prerequisites of its
    configuration can be iterated, and a backup can be serialised. *)
Definition answers {G} (env : Env G) (ok : G -> Prop) (provider : string) : Prop :=
  (forall g, ok g -> ok (snd (uuid4 env g)))
  /\ (forall g, ok g -> ok (snd (now env g)))
  /\ (forall g, ok g ->
        exists b g', validate_connection env provider g = (Ok b, g') /\ ok g')
  /\ (forall rid g, ok g ->
        exists g', resource_exists env rid provider g = (Ok true, g') /\ ok g')
  /\ (forall rid g, ok g ->
        exists cfg g', get_resource_config env rid provider g = (Ok cfg, g') /\ ok g'
                       /\ is_Some (iterate (default (VList []) (cfg !! "prerequisites"))))
  /\ (forall rid g, ok g ->
        exists b g', create_resource_backup env rid provider g = (Ok b, g') /\ ok g'
                     /\ is_Some (json_dumps_dict b))
  /\ (forall rid tags g, ok g ->
        exists g', update_resource_tags env rid provider tags g = (Ok tt, g') /\ ok g').

Section AnsweringCloud.
Context {G : Type} (env : Env G) (ok : G -> Prop) (provider : string).
Context (Hanswers : answers env ok provider).
Context (context : loc) (hs : gmap string Handler) (cfg : Dict) (ty : string).
Context (Hhandler : is_Some (hs !! ty)).
Context (Hprerequisites : is_Some (iterate (default (VList []) (cfg !! "prerequisites")))).

(** What a run relies on, and keeps. *)
Definition good (s : State G) : Prop :=
  ok (gw s)
  /\ execution_handlers s = hs
  /\ ctx_current_config (context_at context s) = cfg
  /\ ctx_optimization_type (context_at context s) = ty
  /\ ctx_cloud_provider (context_at context s) = provider.

Definition good_step (ss : ExecutionStep * State G) : Prop := good (snd ss).

Lemma returns_on_state {A} (m : M (State G) A) (Q : A -> Prop) :
  returns good m Q -> returns good_step (on_state m) Q.
Proof.
  intros Hm [st s] Hs. destruct (Hm s Hs) as (a & s' & Hrun & Ha & Hs').
  exists a, (st, s'). unfold on_state. cbn. by rewrite Hrun.
Qed.

Lemma returns_update_step (f : ExecutionStep -> ExecutionStep) :
  returns good_step (update_step f) (fun _ => True).
Proof. intros [st s] Hs. by exists tt, (f st, s). Qed.

Lemma returns_the_step : returns good_step the_step (fun _ => True).
Proof. intros ss Hs. by exists (fst ss), ss. Qed.

Lemma returns_emit (ev : Event) : returns good (emit ev) (fun _ => True).
Proof. apply returns_modify. intros s Hs. exact Hs. Qed.

Lemma returns_observe_step : returns good_step (observe_step (G:=G)) (fun _ => True).
Proof.
  intros ss Hs. unfold observe_step.
  exact (returns_on_state _ _ (returns_emit _) ss Hs).
Qed.

Lemma returns_assign_status (v : ExecutionStatus) :
  returns good_step (assign_status (G:=G) v) (fun _ => True).
Proof.
  unfold assign_status, mbind, M_bind.
  eapply returns_bind; [apply returns_update_step | intros _ _; apply returns_observe_step].
Qed.

Lemma returns_set_metadata key v : returns good_step (set_metadata (G:=G) key v) (fun _ => True).
Proof. apply returns_update_step. Qed.

Lemma returns_read_context :
  returns good (read_context context)
    (fun c => ctx_current_config c = cfg /\ ctx_optimization_type c = ty
              /\ ctx_cloud_provider c = provider).
Proof. apply returns_gets. intros s (_ & _ & Hc & Ht & Hp). by repeat split. Qed.

Lemma returns_datetime_now : returns good (datetime_now env) (fun _ => True).
Proof.
  intros s (Hok & Hhs & Hc & Ht & Hp). unfold datetime_now.
  destruct Hanswers as (_ & Hnow & _). specialize (Hnow _ Hok).
  destruct (now env (gw s)) as [t g']. exists t, (set_gw g' s). by repeat split.
Qed.

Lemma returns_gateway {A} call (op : G -> Result A * G) (Q : A -> Prop) :
  (forall g, ok g -> exists a g', op g = (Ok a, g') /\ ok g' /\ Q a) ->
  returns good (gateway call op) Q.
Proof.
  intros Hop s (Hok & Hhs & Hc & Ht & Hp). destruct (Hop _ Hok) as (a & g' & Hrun & Hok' & Ha).
  unfold gateway. rewrite Hrun. eexists _, _. split; [reflexivity |]. by repeat split.
Qed.

Lemma good_update_context (f : ExecutionContext -> ExecutionContext) (s : State G) :
  (forall c, ctx_current_config (f c) = ctx_current_config c
             /\ ctx_optimization_type (f c) = ctx_optimization_type c
             /\ ctx_cloud_provider (f c) = ctx_cloud_provider c) ->
  good s -> good (set_contexts (alter f context (contexts s)) s).
Proof.
  intros Hf (Hok & Hhs & Hc & Ht & Hp). unfold good, context_at, set_contexts, loc in *.
  cbn [contexts gw execution_handlers].
  destruct (decide (context < length (contexts s))%nat) as [Hv | Hv].
  - rewrite list_lookup_total_alter_eq by assumption.
    destruct (Hf (contexts s !!! context)) as (-> & -> & ->). by repeat split.
  - assert (alter f context (contexts s) = contexts s) as ->; [| by repeat split].
    apply list_eq. intros i. rewrite list_lookup_alter. case_decide; [| reflexivity].
    subst i. unfold loc in *. by rewrite (lookup_ge_None_2 (contexts s) context) by lia.
Qed.

Lemma returns_update_context (f : ExecutionContext -> ExecutionContext) :
  (forall c, ctx_current_config (f c) = ctx_current_config c
             /\ ctx_optimization_type (f c) = ctx_optimization_type c
             /\ ctx_cloud_provider (f c) = ctx_cloud_provider c) ->
  returns good (update_context context f) (fun _ => True).
Proof. intros Hf. apply returns_modify. intros s. by apply good_update_context. Qed.

Ltac returns_leaf :=
  first
    [ apply returns_assign_status | apply returns_set_metadata | apply returns_update_step
    | apply returns_the_step | apply returns_observe_step
    | apply returns_on_state;
      first [ apply returns_read_context | apply returns_datetime_now | apply returns_emit
            | apply returns_update_context; intros ?; by repeat split ]
    | apply returns_ret; exact I ].

Ltac returns_next :=
  unfold mbind, M_bind;
  first [ returns_leaf | eapply returns_bind; [returns_leaf | intros ? ?; cbv beta in *] ].

Lemma returns_preparation :
  returns good_step (_execute_preparation_step env context) (fun _ => True).
Proof.
  destruct Hanswers as (_ & _ & Hvalidate & Hexists & _).
  unfold _execute_preparation_step. returns_next.
  match goal with H : _ /\ _ |- _ => destruct H as (_ & _ & ->) end.
  unfold mbind, M_bind. eapply returns_bind.
  { apply returns_on_state, (returns_gateway _ _ (fun _ => True)).
    intros g Hg. destruct (Hvalidate g Hg) as (b & g' & ? & ?). eauto. }
  intros _ _. returns_next.
  match goal with H : _ /\ _ |- _ => destruct H as (_ & _ & ->) end.
  unfold mbind, M_bind. eapply returns_bind.
  { apply returns_on_state, (returns_gateway _ _ (fun b => b = true)).
    intros g Hg. destruct (Hexists (ctx_resource_id a0) g Hg) as (g' & ? & ?). eauto. }
  intros b ->. cbn [negb]. returns_next.
Qed.

Lemma returns_validation :
  returns good_step (_execute_validation_step (G:=G) context) (fun _ => True).
Proof.
  unfold _execute_validation_step. returns_next.
  match goal with H : _ /\ _ |- _ => destruct H as [-> _] end. cbv zeta.
  destruct Hprerequisites as [l ->].
  unfold mbind, M_bind. eapply returns_bind.
  { apply returns_for_each. intros prerequisite. cbn. by apply returns_ret. }
  intros _ _. cbn. returns_next.
Qed.

Lemma returns_backup :
  returns good_step (_execute_backup_step env context) (fun _ => True).
Proof.
  destruct Hanswers as (_ & _ & _ & _ & _ & Hbackup & _).
  unfold _execute_backup_step. returns_next.
  match goal with H : _ /\ _ |- _ => destruct H as (_ & _ & ->) end.
  unfold mbind, M_bind. eapply returns_bind.
  { apply returns_on_state, (returns_gateway _ _ (fun b => is_Some (json_dumps_dict b))).
    intros g Hg. destruct (Hbackup (ctx_resource_id a) g Hg) as (b & g' & ? & ? & ?). eauto. }
  intros backup_data [text Htext]. do 2 returns_next. rewrite Htext. returns_next.
Qed.

Lemma returns_optimization :
  returns good_step (_execute_optimization_step (G:=G) context) (fun _ => True).
Proof.
  unfold _execute_optimization_step. returns_next.
  match goal with H : _ /\ _ |- _ => destruct H as (_ & -> & _) end.
  unfold mbind, M_bind. eapply returns_bind.
  { apply returns_on_state, (returns_gets _ _ (fun h => h = hs)). by intros s (_ & ? & _). }
  intros handlers ->. destruct Hhandler as [h ->]. cbv zeta. returns_next.
Qed.

Lemma returns_verification :
  returns good_step (_execute_verification_step env context) (fun _ => True).
Proof.
  destruct Hanswers as (_ & _ & _ & _ & Hconfig & _).
  unfold _execute_verification_step. returns_next.
  match goal with H : _ /\ _ |- _ => destruct H as (_ & _ & ->) end.
  unfold mbind, M_bind. eapply returns_bind.
  { apply returns_on_state, (returns_gateway _ _ (fun _ => True)).
    intros g Hg. destruct (Hconfig (ctx_resource_id a) g Hg) as (c & g' & ? & ? & _). eauto. }
  intros current_config _. returns_next; cbn; returns_next.
Qed.

Lemma returns_completion :
  returns good_step (_execute_completion_step env context) (fun _ => True).
Proof.
  destruct Hanswers as (_ & _ & _ & _ & _ & _ & Htags).
  unfold _execute_completion_step. returns_next.
  match goal with H : _ /\ _ |- _ => destruct H as (_ & _ & ->) end.
  returns_next. cbv zeta.
  unfold mbind, M_bind. eapply returns_bind.
  { apply returns_on_state, (returns_gateway _ _ (fun _ => True)).
    intros g Hg.
    match goal with
    | |- context [update_resource_tags env ?r provider ?t g] =>
        destruct (Htags r t g Hg) as (g' & ? & ?)
    end. eauto. }
  intros _ _. returns_next.
Qed.

Lemma returns_try : returns good_step (_execute_step_try env context) (fun _ => True).
Proof.
  unfold _execute_step_try. do 3 returns_next.
  unfold mbind, M_bind. eapply returns_bind.
  { unfold _execute_step_dispatch. returns_next.
    match goal with |- context [step_phase ?x] => destruct (step_phase x) end;
      first [ apply returns_preparation | apply returns_validation | apply returns_backup
            | apply returns_optimization | apply returns_verification
            | apply returns_completion | by apply returns_ret ]. }
  intros _ _. do 4 returns_next.
  apply returns_on_state. apply returns_emit.
Qed.

(** A step on an answering cloud returns at its first attempt. *)
Lemma _execute_step_answers (step : ExecutionStep) (s : State G) :
  good s ->
  exists step' s' new,
    _execute_step env context (step, s) = (Ok tt, (step', s'))
    /\ good s'
    /\ trace s' = (trace s ++ new)%list
    /\ count_events is_attempt new = 1%nat
    /\ count_events is_sleep new = 0%nat.
Proof.
  intros Hgood.
  destruct (_execute_step env context (step, s)) as [r [step' s']] eqn:Hrun.
  pose proof Hrun as Hspec. apply _execute_step_run in Hspec.
  destruct Hspec as (_ & _ & (new & Htr & Hshape) & _).
  rewrite _execute_step_body_eq in Hrun.
  destruct (returns_try (enter_frame (step, s)) Hgood) as ([] & ss1 & Htry & _ & Hgood1).
  pose proof (same_retries_try env context (enter_frame (step, s))) as [Hrc _].
  rewrite Htry in Hrun, Hrc. injection Hrun as <- <- <-.
  cbn [fst snd] in *.
  destruct (step_run_attempts _ _ _ _ _ _ Hshape) as [Hattempts _].
  destruct (step_run_sleeps _ _ _ _ _ _ Hshape) as [Hsleeps _].
  cbn [is_ok] in Hattempts.
  exists (fst ss1), (snd (leave_frame ss1)), new.
  split; [by destruct ss1 |]. split; [exact Hgood1 |]. split; [exact Htr |].
  destruct ss1 as [st1 s1]. cbn [fst snd leave_frame on_state] in *.
  change (step_retry_count (fst (enter_frame (step, s)))) with (step_retry_count step) in Hrc.
  lia.
Qed.

Lemma run_steps_answers (steps : list ExecutionStep) (s : State G) :
  good s ->
  exists steps' s' new,
    run_steps env steps context s = (Ok tt, (steps', s'))
    /\ good s'
    /\ trace s' = (trace s ++ new)%list
    /\ count_events is_attempt new = length steps
    /\ count_events is_sleep new = 0%nat.
Proof.
  revert s. induction steps as [|step rest IH]; intros s Hgood; cbn [run_steps].
  - exists [], s, []. by rewrite app_nil_r.
  - rewrite _run_execution_pipeline_body_eq.
    destruct (_execute_step_answers step s Hgood)
      as (step' & s1 & new & -> & Hgood1 & Htr & Hattempts & Hsleeps).
    match goal with
    | |- context [run_steps env rest context ?x] =>
        destruct (IH x) as (rest' & s2 & new2 & -> & Hgood2 & Htr2 & Hattempts2 & Hsleeps2)
    end.
    { apply good_update_context; [intros c; by repeat split | exact Hgood1]. }
    exists (step' :: rest'), s2, (new ++ new2)%list.
    split; [reflexivity |]. split; [exact Hgood2 |].
    split; [rewrite Htr2; cbn [trace set_contexts]; by rewrite Htr, app_assoc |].
    rewrite !count_events_app, Hattempts, Hattempts2, Hsleeps, Hsleeps2. by split.
Qed.

End AnsweringCloud.

Section AnsweringRun.
Context {G : Type} (env : Env G) (ok : G -> Prop).

Lemma fresh_context_current_config (opportunity : OptimizationOpportunity)
    (execution_id : string) (current_config : Dict) :
  ctx_current_config (fresh_context opportunity execution_id current_config) = current_config.
Proof. by destruct opportunity as [? ? [] ? ? ?]. Qed.

Lemma pipeline_length (c : ExecutionContext) (opportunity : OptimizationOpportunity)
    (h : Handler) :
  length (sorted_by_order (base_steps c opportunity ++ call_handler h c)) = 7%nat.
Proof. by destruct h. Qed.

(** A whole run on an answering cloud: the state it ends in. *)
Lemma answering_cloud_run (opportunity : OptimizationOpportunity) (approver_id : string)
    (s : State G) (h : Handler) :
  answers env ok (CloudProvider_value (opp_cloud_provider opportunity)) ->
  ok (gw s) ->
  execution_handlers s !! OptimizationType_value (opp_optimization_type opportunity) = Some h ->
  exists (final : State G) (t : Z) (new : list Event) (data : list (string * Value)),
    execute_optimization env opportunity approver_id s = (Ok (length (executions s)), final)
    /\ execution_at (length (executions s)) final
       = mark_completed t
           (fresh_execution opportunity approver_id (fst (uuid4 env (gw s)))
              (fst (now env (snd (uuid4 env (gw s))))))
    /\ events_since s final
       = ([EvLog "optimization_execution_started"
             [("opportunity_id", VStr (opp_id opportunity));
              ("optimization_type",
               VStr (OptimizationType_value (opp_optimization_type opportunity)))];
           EvGateway (GGetResourceConfig (opp_resource_id opportunity)
                        (CloudProvider_value (opp_cloud_provider opportunity)))]
          ++ new ++ [EvLog "optimization_execution_completed" data])%list
    /\ count_events is_attempt new = 7%nat
    /\ count_events is_sleep new = 0%nat
    /\ Forall (fun ev => is_restore_call ev = false) new
    /\ length (ctx_execution_log (context_at (length (contexts s)) final)) = 7%nat
    /\ ok (gw final).
Proof.
  intros Hanswers Hok Hh.
  pose proof Hanswers as (Huuid & Hnow & _ & _ & Hconfig & _).
  rewrite execute_optimization_eq, execute_optimization_admit_eq. cbv zeta.
  destruct (Hconfig (opp_resource_id opportunity)
              (snd (now env (snd (uuid4 env (gw s))))) (Hnow _ (Huuid _ Hok)))
    as (cfg & g3 & -> & Hok3 & Hiter).
  set (id := fst (uuid4 env (gw s))).
  set (context := length (contexts s)). set (execution := length (executions s)).
  match goal with
  | |- context [execute_optimization_run env execution context opportunity ?x] => set (s1 := x)
  end.
  assert (context_at context s1 = fresh_context opportunity id cfg) as Hc1.
  { unfold context_at, s1, context. cbn [contexts]. apply lookup_total_snoc. }
  assert (good ok (CloudProvider_value (opp_cloud_provider opportunity)) context
            (execution_handlers s) cfg
            (OptimizationType_value (opp_optimization_type opportunity)) s1) as Hgood.
  { unfold good. rewrite Hc1, fresh_context_current_config. by repeat split. }
  assert (execution_handlers s1
            !! ctx_optimization_type (context_at context s1) = Some h) as Hh1
    by (rewrite Hc1; exact Hh).
  destruct (run_steps_answers env ok _ Hanswers context (execution_handlers s) cfg
              (OptimizationType_value (opp_optimization_type opportunity))
              (ex_intro _ h Hh) Hiter
              (sorted_by_order (base_steps (context_at context s1) opportunity
                                ++ call_handler h (context_at context s1))) s1 Hgood)
    as (steps' & s2 & new & Hrun & (Hok2 & _) & Htr & Hattempts & Hsleeps).
  rewrite pipeline_length in Hattempts.
  assert (_run_execution_pipeline env context opportunity s1 = (Ok tt, s2)) as Hpipe.
  { unfold _run_execution_pipeline, mbind, M_bind, bind.
    rewrite (_create_execution_steps_eq context opportunity s1 h Hh1). by rewrite Hrun. }
  pose proof (pipeline_frame_run_execution_pipeline env context opportunity s1) as Hframe.
  rewrite Hpipe in Hframe. cbn [snd] in Hframe.
  destruct Hframe as (HE & _ & _ & _ & pl & Htr' & Hpl).
  assert (pl = new) as -> by (rewrite Htr in Htr'; by apply app_inv_head in Htr').
  apply run_steps_outcome in Hrun.
  destruct Hrun as (done & rest & -> & Hids & _ & _ & _ & Hlog & ->).
  rewrite app_nil_r in *. apply (f_equal length) in Hids.
  rewrite !length_map, pipeline_length in Hids.
  rewrite (execute_optimization_run_ok env _ _ _ _ _ Hpipe).
  eexists _, (fst (now env (gw s2))), new, _. split; [reflexivity |].
  assert (executions s2 !!! execution
          = fresh_execution opportunity approver_id id
              (fst (now env (snd (uuid4 env (gw s)))))) as Hrecord.
  { rewrite HE. unfold s1, execution. cbn [executions]. apply lookup_total_snoc. }
  assert (forall t, alter (mark_completed t) execution (executions s2) !!! execution
                    = mark_completed t (executions s2 !!! execution)) as Haltered.
  { intros t. apply list_lookup_total_alter_eq. rewrite HE. unfold s1, execution.
    cbn [executions]. rewrite length_app. cbn. lia. }
  unfold unregistered, logged, execution_at, context_at, events_since.
  cbn [executions contexts trace gw set_active_executions set_trace set_gw set_executions].
  rewrite Haltered, Hrecord. split; [reflexivity |].
  split.
  { rewrite Htr. unfold s1 at 1. cbn [trace].
    rewrite <- !app_assoc, drop_app_length. reflexivity. }
  do 3 (split; [assumption |]).
  split; [| by apply Hnow].
  assert (contexts s1 !! context = Some (fresh_context opportunity id cfg)) as Hlook.
  { unfold s1, context. cbn [contexts]. by rewrite list_lookup_middle. }
  unfold loc in *. rewrite Hlook in Hlog. cbn in Hlog.
  destruct (contexts s2 !! context) as [c2|] eqn:Hc2; [| discriminate].
  rewrite (list_lookup_total_correct _ _ _ Hc2).
  injection Hlog as ->. by rewrite length_map.
Qed.

(** X13.  On a cloud that answers for the provider of the opportunity, a
    run of [execute_optimization] on an engine that has a handler for the
    type of the opportunity completes: the call returns the execution,
    whose record is Completed, with a completion time and without an error
    message; each of the seven steps is attempted once, without any wait
    and without a restore call; the execution log of the context holds
    seven records; and the cloud is left in a state in which it still
    answers. *)
Theorem answering_cloud_run_completes
    (opportunity : OptimizationOpportunity) (approver_id : string) (s : State G) (h : Handler) :
  answers env ok (CloudProvider_value (opp_cloud_provider opportunity)) ->
  ok (gw s) ->
  execution_handlers s !! OptimizationType_value (opp_optimization_type opportunity) = Some h ->
  let out := execute_optimization env opportunity approver_id s in
  let execution := length (executions s) in
  let context := length (contexts s) in
  let tr := events_since s (snd out) in
  fst out = Ok execution
  /\ exec_status (execution_at execution (snd out)) = OS_COMPLETED
  /\ exec_error_message (execution_at execution (snd out)) = None
  /\ is_Some (exec_completed_at (execution_at execution (snd out)))
  /\ count_events is_attempt tr = 7%nat
  /\ count_events is_sleep tr = 0%nat
  /\ count_events is_restore_call tr = 0%nat
  /\ length (ctx_execution_log (context_at context (snd out))) = 7%nat
  /\ ok (gw (snd out)).
Proof.
  intros Hanswers Hok Hh. cbv zeta.
  destruct (answering_cloud_run opportunity approver_id s h Hanswers Hok Hh)
    as (final & t & new & data & Hrun & Hrecord & Htr & Hattempts & Hsleeps & Hrestore
        & Hlog & Hfinal).
  rewrite Hrun. cbn [fst snd]. rewrite Htr, Hrecord, !count_events_app, Hattempts, Hsleeps.
  rewrite (count_events_none is_restore_call new Hrestore).
  repeat split; try assumption; by eauto.
Qed.

End AnsweringRun.

(** The scripted cloud answers as long as none of its calls is set to fail. *)
Definition never_fails (g : Cloud) : Prop :=
  cloud_backup_failures g = 0%nat /\ cloud_tag_failures g = 0%nat.

Lemma cloud_env_answers (provider : string) : answers cloud_env never_fails provider.
Proof.
  unfold answers, never_fails. repeat split.
  - by destruct H.
  - by destruct H.
  - by destruct H.
  - by destruct H.
  - intros g Hg. by exists true, g.
  - intros rid g Hg. by exists g.
  - intros rid g Hg. exists (cloud_config rid provider), g.
    split; [reflexivity |]. split; [exact Hg |]. by eexists.
  - intros rid g [Hb Ht]. cbn. rewrite Hb. eexists _, g.
    split; [reflexivity |]. split; [by split |].
    unfold json_dumps_dict. vm_compute. by eexists.
  - intros rid tags g [Hb Ht]. cbn. rewrite Ht. by exists g.
Qed.

Lemma answering_cloud_run_completes_witness :
  answers cloud_env never_fails "aws"
  /\ never_fails (gw (started_engine healthy))
  /\ fst (execute_optimization cloud_env rightsizing_i_abc "alice" (started_engine healthy))
     = Ok 0%nat
  /\ exec_status
       (execution_at 0%nat
          (snd (execute_optimization cloud_env rightsizing_i_abc "alice"
                  (started_engine healthy))))
     = OS_COMPLETED.
Proof.
  assert (never_fails (gw (started_engine healthy))) as Hok by (split; reflexivity).
  destruct (answering_cloud_run_completes cloud_env never_fails rightsizing_i_abc "alice"
              (started_engine healthy) H_execute_rightsizing (cloud_env_answers "aws") Hok
              eq_refl)
    as (Hres & Hstatus & _).
  split; [exact (cloud_env_answers "aws") |]. split; [exact Hok |]. split; [exact Hres | exact Hstatus].
Defined.

(** * The cloud provider service

    [CloudProviderService] of services/cloud_providers.py, as far as the
    engine calls it.  The SDK clients and the clock are the outside world:
    a call into an SDK returns or raises and changes the world. *)

Module CloudProviderService.

(** The calls into the SDKs.  A [New...Client] call stands for the
    constructor calls of its branch of [initialize]. *)
Inductive SdkCall : Type :=
| NewAwsClient
| NewAzureClient
| NewGcpClient
| DescribeRegions
| DescribeInstances (instance_id : string)
| ResourceGroupsList
| ListZones.

(** Whether the credentials of a provider are set in [settings]. *)
Record Settings : Type := mkSettings {
  aws_credentials : bool;
  azure_credentials : bool;
  gcp_credentials : bool
}.

(** The object: a client is [None] ([false]) or set; [events] are the
    entries the service has logged. *)
Record Service (World : Type) : Type := mkService {
  aws_client : bool;
  azure_client : bool;
  gcp_client : bool;
  world : World;
  events : list (string * list (string * Value))
}.
Arguments mkService {World}.
Arguments aws_client {World}.
Arguments azure_client {World}.
Arguments gcp_client {World}.
Arguments world {World}.
Arguments events {World}.

Section Methods.
Context {World : Type}.
Context (settings : Settings).
Context (sdk : SdkCall -> World -> Result unit * World).
Context (world_now : World -> Z * World).
Context (world_uuid4 : World -> string * World).

Definition set_aws_client (b : bool) (v : Service World) : Service World :=
  mkService b (azure_client v) (gcp_client v) (world v) (events v).
Definition set_azure_client (b : bool) (v : Service World) : Service World :=
  mkService (aws_client v) b (gcp_client v) (world v) (events v).
Definition set_gcp_client (b : bool) (v : Service World) : Service World :=
  mkService (aws_client v) (azure_client v) b (world v) (events v).
Definition set_world (w : World) (v : Service World) : Service World :=
  mkService (aws_client v) (azure_client v) (gcp_client v) w (events v).

(** [log_event(event_type, data)] *)
Definition log (event_type : string) (data : list (string * Value)) : M (Service World) unit :=
  modify (fun v => mkService (aws_client v) (azure_client v) (gcp_client v) (world v)
                     (events v ++ [(event_type, data)])).

Definition call (c : SdkCall) : M (Service World) unit :=
  fun v => match sdk c (world v) with (r, w) => (r, set_world w v) end.

Definition datetime_now : M (Service World) Z :=
  fun v => match world_now (world v) with (t, w) => (Ok t, set_world w v) end.

Definition initialize : M (Service World) unit :=
  try_except
    ((if aws_credentials settings
      then call NewAwsClient;; modify (set_aws_client true);; log "aws_client_initialized" []
      else ret tt);;
     (if azure_credentials settings
      then call NewAzureClient;; modify (set_azure_client true);;
           log "azure_client_initialized" []
      else ret tt);;
     (if gcp_credentials settings
      then call NewGcpClient;; modify (set_gcp_client true);; log "gcp_client_initialized" []
      else ret tt);;
     log "cloud_provider_service_initialized" [("status", VStr "success")])
    (fun e =>
       log "cloud_provider_service_initialization_failed" [("error", VStr (exc_msg e))];;
       raise e).

Definition validate_connection (provider : string) : M (Service World) bool :=
  try_except
    (aws ← gets aws_client;
     azure ← gets azure_client;
     gcp ← gets gcp_client;
     if bool_decide (provider = "aws") && aws then call DescribeRegions;; ret true
     else if bool_decide (provider = "azure") && azure then call ResourceGroupsList;; ret true
     else if bool_decide (provider = "gcp") && gcp then call ListZones;; ret true
     else ret false)
    (fun e =>
       log "provider_connection_validation_failed"
         [("provider", VStr provider); ("error", VStr (exc_msg e))];;
       ret false).

(** With [aws_client] unset, the attribute access on [None] raises. *)
Definition resource_exists (resource_id provider : string) : M (Service World) bool :=
  try_except
    (if bool_decide (provider = "aws") then
       aws ← gets aws_client;
       if aws : bool then call (DescribeInstances resource_id);; ret true
       else raise (mkExc KAttributeError
                     "'NoneType' object has no attribute 'describe_instances'")
     else if bool_decide (provider = "azure") then ret true
     else if bool_decide (provider = "gcp") then ret true
     else ret false)
    (fun _ => ret false).

Definition resource_config (resource_id provider : string) : Dict :=
  <["id" := VStr resource_id]>
  (<["provider" := VStr provider]>
  (<["status" := VStr "running"]>
  (<["instance_type" := VStr "t3.medium"]>
  (<["prerequisites" := VList []]> ∅)))).

Definition get_resource_config (resource_id provider : string) : M (Service World) Dict :=
  ret (resource_config resource_id provider).

Definition create_resource_backup (resource_id provider : string) : M (Service World) Dict :=
  config ← get_resource_config resource_id provider;
  t ← datetime_now;
  ret (<["resource_id" := VStr resource_id]>
       (<["backup_timestamp" := VStr (isoformat t)]>
       (<["configuration" := VDict (map_to_list config)]> ∅))).

Definition restore_resource_from_backup (resource_id provider : string) (backup_data : Dict)
    : M (Service World) unit :=
  log "resource_restored_from_backup"
    [("resource_id", VStr resource_id); ("provider", VStr provider)].

Definition update_resource_tags (resource_id provider : string) (tags : Dict)
    : M (Service World) unit :=
  log "resource_tags_updated"
    [("resource_id", VStr resource_id); ("provider", VStr provider);
     ("tags", VDict (map_to_list tags))].

(** The engine on this service. *)
Definition env : Env (Service World) :=
  @mkEnv (Service World)
    validate_connection resource_exists get_resource_config create_resource_backup
    restore_resource_from_backup update_resource_tags
    (fun v => match world_uuid4 (world v) with (u, w) => (u, set_world w v) end)
    (fun v => match world_now (world v) with (t, w) => (t, set_world w v) end).

End Methods.

End CloudProviderService.

Section ServiceProperties.
Context {World : Type}.
Context (sdk : CloudProviderService.SdkCall -> World -> Result unit * World).
Context (world_now : World -> Z * World).
Context (world_uuid4 : World -> string * World).

(** The client that [validate_connection] looks at for a provider, and the
    SDK call it makes on it. *)
Definition client_of (provider : string) (v : CloudProviderService.Service World) : bool :=
  if bool_decide (provider = "aws") then CloudProviderService.aws_client v
  else if bool_decide (provider = "azure") then CloudProviderService.azure_client v
  else if bool_decide (provider = "gcp") then CloudProviderService.gcp_client v
  else false.

Definition probe_of (provider : string) : CloudProviderService.SdkCall :=
  if bool_decide (provider = "aws") then CloudProviderService.DescribeRegions
  else if bool_decide (provider = "azure") then CloudProviderService.ResourceGroupsList
  else CloudProviderService.ListZones.

Lemma validate_connection_returns (provider : string)
    (v : CloudProviderService.Service World) :
  fst (CloudProviderService.validate_connection sdk provider v)
  = Ok (client_of provider v
        && is_ok (fst (sdk (probe_of provider) (CloudProviderService.world v)))).
Proof.
  unfold CloudProviderService.validate_connection, client_of, probe_of, try_except,
    mbind, M_bind, bind, gets, ret, CloudProviderService.call, CloudProviderService.log, modify.
  cbn [fst snd].
  repeat (case_bool_decide; cbn [andb]);
    repeat match goal with
      | |- context [if ?c v then _ else _] => destruct (c v); cbn [andb]
      | |- context [sdk ?c ?w] => destruct (sdk c w) as [[[]|?] ?]; cbn [fst snd is_ok]
      end; try reflexivity; congruence.
Qed.

Lemma resource_exists_returns (resource_id provider : string)
    (v : CloudProviderService.Service World) :
  CloudProviderService.resource_exists sdk resource_id provider v
  = if bool_decide (provider = "aws") then
      if CloudProviderService.aws_client v then
        match sdk (CloudProviderService.DescribeInstances resource_id)
                (CloudProviderService.world v) with
        | (r, w) => (Ok (is_ok r), CloudProviderService.set_world w v)
        end
      else (Ok false, v)
    else (Ok (bool_decide (provider = "azure") || bool_decide (provider = "gcp")), v).
Proof.
  unfold CloudProviderService.resource_exists, try_except, mbind, M_bind, bind, gets, ret,
    raise, CloudProviderService.call.
  cbn [fst snd].
  repeat (case_bool_decide; cbn [orb]); try reflexivity.
  destruct (CloudProviderService.aws_client v); [| reflexivity].
  by destruct (sdk _ _) as [[[]|?] ?].
Qed.

(** X14.  The two probes of the service absorb every error of the SDK:
    [validate_connection] and [resource_exists] never raise.
    [validate_connection] returns [True] exactly when the client of the
    provider is set and its SDK call returns.  [resource_exists] asks the
    SDK for an AWS resource only, and answers [False] there when the client
    is not set or the call raises; for Azure and GCP it answers [True]
    without any call, whatever the resource id, and [False] for every other
    provider name. *)
Theorem service_probes_never_raise (resource_id provider : string)
    (v : CloudProviderService.Service World) :
  fst (CloudProviderService.validate_connection sdk provider v)
  = Ok (client_of provider v
        && is_ok (fst (sdk (probe_of provider) (CloudProviderService.world v))))
  /\ fst (CloudProviderService.resource_exists sdk resource_id provider v)
     = Ok (if bool_decide (provider = "aws")
           then CloudProviderService.aws_client v
                && is_ok (fst (sdk (CloudProviderService.DescribeInstances resource_id)
                                 (CloudProviderService.world v)))
           else bool_decide (provider = "azure") || bool_decide (provider = "gcp"))
  /\ (if bool_decide (provider = "aws") then True
      else snd (CloudProviderService.resource_exists sdk resource_id provider v) = v).
Proof.
  split; [apply validate_connection_returns |].
  rewrite resource_exists_returns.
  case_bool_decide; [| by split].
  split; [| exact I].
  destruct (CloudProviderService.aws_client v); [| reflexivity].
  by destruct (sdk _ _) as [[[]|?] ?].
Qed.

(** For Azure and GCP the service answers in every state. *)
Lemma service_answers (provider : string) :
  provider = "azure" \/ provider = "gcp" ->
  answers (CloudProviderService.env sdk world_now world_uuid4) (fun _ => True) provider.
Proof.
  intros Hprovider. unfold answers. repeat split.
  - intros g _.
    pose proof (validate_connection_returns provider g) as H.
    cbn [validate_connection CloudProviderService.env].
    destruct (CloudProviderService.validate_connection sdk provider g) as [r g'].
    cbn in H. subst r. eauto.
  - intros rid g _. cbn [resource_exists CloudProviderService.env].
    rewrite resource_exists_returns.
    destruct Hprovider as [-> | ->]; by exists g.
  - intros rid g _. eexists _, g. split; [reflexivity |]. split; [exact I |].
    by eexists.
  - intros rid g _. cbn [create_resource_backup CloudProviderService.env].
    unfold CloudProviderService.create_resource_backup,
      CloudProviderService.get_resource_config, CloudProviderService.datetime_now,
      mbind, M_bind, bind, ret.
    cbn [fst snd]. destruct (world_now (CloudProviderService.world g)) as [t w].
    eexists _, _. split; [reflexivity |]. split; [exact I |].
    unfold json_dumps_dict. vm_compute. by eexists.
  - intros rid tags g _. by eexists.
Qed.

(** X15.  On the service as shipped, an Azure or GCP opportunity always
    runs to completion on an engine that has a handler for its type,
    whatever the SDKs do and whether or not a client is set: the result of
    [validate_connection] is not looked at, and [resource_exists] answers
    [True] without asking.  The execution is returned Completed, each of
    the seven steps is attempted once, and there is no wait and no restore
    call. *)
Theorem engine_completes_on_azure_and_gcp
    (opportunity : OptimizationOpportunity) (approver_id : string)
    (s : State (CloudProviderService.Service World)) (h : Handler) :
  opp_cloud_provider opportunity <> AWS ->
  execution_handlers s !! OptimizationType_value (opp_optimization_type opportunity) = Some h ->
  let out := execute_optimization (CloudProviderService.env sdk world_now world_uuid4)
               opportunity approver_id s in
  let tr := events_since s (snd out) in
  fst out = Ok (length (executions s))
  /\ exec_status (execution_at (length (executions s)) (snd out)) = OS_COMPLETED
  /\ exec_error_message (execution_at (length (executions s)) (snd out)) = None
  /\ count_events is_attempt tr = 7%nat
  /\ count_events is_sleep tr = 0%nat
  /\ count_events is_restore_call tr = 0%nat.
Proof.
  intros Hprovider Hh. cbv zeta.
  destruct (answering_cloud_run (CloudProviderService.env sdk world_now world_uuid4)
              (fun _ => True) opportunity approver_id s h)
    as (final & t & new & data & Hrun & Hrecord & Htr & Hattempts & Hsleeps & Hrestore & _);
    [| exact I | exact Hh |].
  { apply service_answers. destruct (opp_cloud_provider opportunity); cbn; auto. congruence. }
  rewrite Hrun. cbn [fst snd]. rewrite Htr, Hrecord, !count_events_app, Hattempts, Hsleeps.
  by rewrite (count_events_none is_restore_call new Hrestore).
Qed.

End ServiceProperties.

(** A world in which every SDK call raises. *)
Definition sdk_down (c : CloudProviderService.SdkCall) (w : Z)
    : Result unit * Z :=
  (Raise (mkExc (KGateway "ConnectionError") "unreachable"), w).

Definition offline_env : Env (CloudProviderService.Service Z) :=
  CloudProviderService.env sdk_down (fun w => (w, w + 1)) (fun w => ("exec-" ++ pretty w, w)).

Definition offline_engine : State (CloudProviderService.Service Z) :=
  snd (_register_execution_handlers
         (init (CloudProviderService.mkService false false false 0 []))).

Definition scheduling_vm_1 : OptimizationOpportunity :=
  mkOpportunity "opp-2" "vm-1" SCHEDULING AZURE "westeurope" 10.

Lemma service_probes_never_raise_example :
  fst (CloudProviderService.validate_connection sdk_down "azure"
         (CloudProviderService.mkService true true true 0 [])) = Ok false
  /\ fst (CloudProviderService.resource_exists sdk_down "vm-1" "azure"
            (CloudProviderService.mkService true true true 0 [])) = Ok true
  /\ fst (CloudProviderService.resource_exists sdk_down "i-abc" "aws"
            (CloudProviderService.mkService true true true 0 [])) = Ok false.
Proof. by repeat split. Qed.

Lemma engine_completes_on_azure_and_gcp_witness :
  fst (execute_optimization offline_env scheduling_vm_1 "alice" offline_engine) = Ok 0%nat
  /\ exec_status
       (execution_at 0%nat
          (snd (execute_optimization offline_env scheduling_vm_1 "alice" offline_engine)))
     = OS_COMPLETED.
Proof.
  destruct (engine_completes_on_azure_and_gcp sdk_down (fun w => (w, w + 1))
              (fun w => ("exec-" ++ pretty w, w)) scheduling_vm_1 "alice" offline_engine
              H_execute_scheduling ltac:(discriminate) eq_refl)
    as (Hres & Hstatus & _).
  split; [exact Hres | exact Hstatus].
Defined.

(** ** A step that cannot succeed *)

Section AlwaysFailingStep.
Context {G : Type} (env : Env G) (context : loc).
Context (P : ExecutionStep * State G -> Prop) (Q : Exc -> Prop).
Context (P_try : forall ss, P ss ->
           exists e ss', _execute_step_try env context ss = (Raise e, ss') /\ Q e /\ P ss').
Context (P_emit : forall ev ss, P ss -> P (snd (on_state (emit ev) ss))).
Context (P_except : forall e ss, P ss -> P (snd (_execute_step_except e ss))).

(** When every attempt raises, the call raises, with the exception of one
    of the attempts. *)
Lemma _execute_step_raises (ss : ExecutionStep * State G) :
  P ss -> exists e ss', _execute_step env context ss = (Raise e, ss') /\ Q e /\ P ss'.
Proof.
  remember (retries_left (fst ss)) as n eqn:Hn.
  revert ss Hn. induction n as [n IH] using lt_wf_ind. intros ss Hn HP.
  rewrite _execute_step_body_eq.
  pose proof (P_emit (EvEnter "_execute_step") ss HP) as Henter.
  change (snd (on_state (emit (EvEnter "_execute_step")) ss)) with (enter_frame ss) in Henter.
  destruct (P_try _ Henter) as (e & ss1 & Htry & HQ & HP1).
  pose proof (same_retries_try env context (enter_frame ss)) as [Hrc Hmr].
  rewrite Htry in *. cbn [fst snd] in Hrc, Hmr. cbv zeta.
  pose proof (P_except e ss1 HP1) as HP2.
  destruct (step_retry_count (fst (snd (_execute_step_except e ss1)))
            <? step_max_retries (fst (snd (_execute_step_except e ss1)))) eqn:Hlt.
  - apply Z.ltb_lt in Hlt. unfold asyncio_sleep.
    pose proof (P_emit (EvSleep 5) _ HP2) as HP3.
    set (x := snd (on_state (emit (EvSleep 5)) (snd (_execute_step_except e ss1)))) in *.
    assert (retries_left (fst x) < n)%nat as Hx.
    { subst x n. destruct ss as [st s], ss1 as [st1 s1].
      rewrite _execute_step_except_eq in *. unfold retries_left. cbn in *. lia. }
    destruct (IH _ Hx x eq_refl HP3) as (e' & ss3 & -> & HQ' & HP4).
    exists e', (leave_frame ss3). split; [reflexivity |]. split; [exact HQ' |].
    exact (P_emit (EvLeave "_execute_step") ss3 HP4).
  - exists e, (leave_frame (snd (_execute_step_except e ss1))). split; [reflexivity |].
    split; [exact HQ |]. exact (P_emit (EvLeave "_execute_step") _ HP2).
Qed.

End AlwaysFailingStep.

Section ServiceWithoutClient.
Context {World : Type}.
Context (sdk : CloudProviderService.SdkCall -> World -> Result unit * World).
Context (world_now : World -> Z * World).
Context (world_uuid4 : World -> string * World).

Abbreviation service_env := (CloudProviderService.env sdk world_now world_uuid4).

(** The Preparation step [id] for the AWS resource [rid], on a service
    whose AWS client is not set, before any backup. *)
Definition unreachable_aws (context : loc) (id rid : string)
    (ss : ExecutionStep * State (CloudProviderService.Service World)) : Prop :=
  step_phase (fst ss) = PREPARATION
  /\ step_id (fst ss) = id
  /\ step_name (fst ss) = "Preparation"
  /\ CloudProviderService.aws_client (gw (snd ss)) = false
  /\ ctx_cloud_provider (context_at context (snd ss)) = "aws"
  /\ ctx_resource_id (context_at context (snd ss)) = rid
  /\ ctx_backup_data (context_at context (snd ss)) = ∅.

Definition resource_not_found (rid : string) : Exc :=
  mkExc KException ("Resource " ++ rid ++ " not found").

Lemma unreachable_aws_try (context : loc) (id rid : string) ss :
  unreachable_aws context id rid ss ->
  exists e ss', _execute_step_try service_env context ss = (Raise e, ss')
                /\ e = resource_not_found rid
                /\ unreachable_aws context id rid ss'.
Proof.
  destruct ss as [st s].
  intros (Hphase & Hid & Hname & Hclient & Hprovider & Hrid & Hbackup).
  cbn [fst snd] in *.
  unfold _execute_step_try, _execute_step_dispatch, _execute_preparation_step, assign_status,
    observe_step, mbind, M_bind, bind, update_step, on_state, datetime_now, the_step,
    read_context, gets, gateway, log_event, emit, modify.
  cbn [fst snd now CloudProviderService.env gw set_trace set_gw].
  destruct (world_now (CloudProviderService.world (gw s))) as [t w]. cbn [fst snd].
  change (step_phase (set_step_started_at (Some t) (set_step_status RUNNING st)))
    with (step_phase st). rewrite Hphase.
  cbn [fst snd]. 
  change (context_at context (set_gw _ _)) with (context_at context s).
  rewrite Hprovider.
  cbn [validate_connection resource_exists CloudProviderService.env gw set_gw set_trace].
  match goal with
  | |- context [CloudProviderService.validate_connection sdk "aws" ?v] =>
      assert (CloudProviderService.validate_connection sdk "aws" v = (Ok false, v)) as ->
  end.
  { unfold CloudProviderService.validate_connection, try_except, mbind, M_bind, bind, gets, ret.
    cbn. by rewrite Hclient. }
  cbn [fst snd gw set_gw set_trace].
  change (context_at context (set_gw _ _)) with (context_at context s).
  rewrite Hprovider, resource_exists_returns.
  cbn [bool_decide decide_rel CloudProviderService.aws_client CloudProviderService.set_world].
  rewrite bool_decide_eq_true_2 by reflexivity.
  cbn [CloudProviderService.aws_client CloudProviderService.set_world]. rewrite Hclient.
  cbn [fst snd negb raise]. eexists _, _. split; [reflexivity |].
  change (context_at context (set_gw _ _)) with (context_at context s).
  split; [by rewrite Hrid |].
  unfold unreachable_aws. cbn [fst snd gw set_gw set_trace].
  change (context_at context (set_gw _ _)) with (context_at context s).
  by repeat split.
Qed.

Lemma unreachable_aws_emit (context : loc) (id rid : string) ev ss :
  unreachable_aws context id rid ss ->
  unreachable_aws context id rid (snd (on_state (emit ev) ss)).
Proof. by destruct ss as [st s]. Qed.

Lemma unreachable_aws_except (context : loc) (id rid : string) e ss :
  unreachable_aws context id rid ss ->
  unreachable_aws context id rid (snd (_execute_step_except e ss)).
Proof. destruct ss as [st s]. rewrite _execute_step_except_eq. by intros H. Qed.

Lemma pipeline_starts_with_preparation (c : ExecutionContext)
    (opportunity : OptimizationOpportunity) (h : Handler) :
  exists first rest,
    sorted_by_order (base_steps c opportunity ++ call_handler h c) = first :: rest
    /\ step_phase first = PREPARATION
    /\ step_id first = ctx_execution_id c ++ "_preparation"
    /\ step_name first = "Preparation"
    /\ step_retry_count first = 0
    /\ step_max_retries first = 3.
Proof. destruct h; by eexists _, _. Qed.

(** X16.  On the service as shipped, an AWS opportunity cannot run while
    the AWS client is not set: [resource_exists] turns the failing
    attribute access into [False], so the Preparation step fails with
    [Resource ... not found]; it is attempted three times, with two waits
    in between, and no other step is attempted.  The driver logs the
    failure of the Preparation step with that message, but the caller gets
    the [TypeError] of the driver's rollback call, which is also the
    message stored in the record; the record ends Failed and no restore
    call is made. *)
Theorem engine_fails_on_aws_without_client
    (opportunity : OptimizationOpportunity) (approver_id : string)
    (s : State (CloudProviderService.Service World)) (h : Handler) :
  opp_cloud_provider opportunity = AWS ->
  CloudProviderService.aws_client (gw s) = false ->
  execution_handlers s !! OptimizationType_value (opp_optimization_type opportunity) = Some h ->
  let out := execute_optimization service_env opportunity approver_id s in
  let tr := events_since s (snd out) in
  fst out = Raise rollback_type_error
  /\ exec_status (execution_at (length (executions s)) (snd out)) = OS_FAILED
  /\ exec_error_message (execution_at (length (executions s)) (snd out))
     = Some (exc_msg rollback_type_error)
  /\ count_events is_attempt tr = 3%nat
  /\ count_events is_sleep tr = 2%nat
  /\ count_events is_restore_call tr = 0%nat
  /\ In (EvLog "execution_step_failed"
           [("step_id", VStr (fst (uuid4 service_env (gw s)) ++ "_preparation"));
            ("step_name", VStr "Preparation");
            ("error", VStr (exc_msg (resource_not_found (opp_resource_id opportunity))))])
        tr.
Proof.
  intros Hprovider Hclient Hh. cbv zeta.
  destruct (execute_optimization_admit service_env opportunity approver_id s)
    as [[[execution context]|e0] s1] eqn:Hadmit.
  2:{ rewrite execute_optimization_admit_eq in Hadmit. discriminate Hadmit. }
  pose proof Hadmit as Hshape. rewrite execute_optimization_admit_eq in Hshape.
  cbv zeta in Hshape. cbn [get_resource_config CloudProviderService.env] in Hshape.
  unfold CloudProviderService.get_resource_config, ret in Hshape.
  injection Hshape as Hexecution Hcontext Hs1.
  assert (context_at context s1
          = fresh_context opportunity (fst (uuid4 service_env (gw s)))
              (CloudProviderService.resource_config (opp_resource_id opportunity)
                 (CloudProvider_value (opp_cloud_provider opportunity)))) as Hc1.
  { subst s1 context. unfold context_at. cbn [contexts]. apply lookup_total_snoc. }
  assert (CloudProviderService.aws_client (gw s1) = false) as Hclient1.
  { subst s1. cbn [gw uuid4 now CloudProviderService.env].
    destruct (world_uuid4 _) as [u w]. cbn [fst snd CloudProviderService.world
      CloudProviderService.set_world]. destruct (world_now w) as [t w']. exact Hclient. }
  assert (execution_handlers s1 !! ctx_optimization_type (context_at context s1) = Some h)
    as Hh1.
  { rewrite Hc1. subst s1. exact Hh. }
  destruct (pipeline_starts_with_preparation (context_at context s1) opportunity h)
    as (first & rest & Hsteps & Hphase & Hid & Hname & Hrc & Hmr).
  rewrite Hc1 in Hid. cbn [ctx_execution_id fresh_context] in Hid.
  destruct (_execute_step_raises service_env context
              (unreachable_aws context (step_id first) (opp_resource_id opportunity))
              (fun e => e = resource_not_found (opp_resource_id opportunity))
              (unreachable_aws_try context _ _) (unreachable_aws_emit context _ _)
              (unreachable_aws_except context _ _) (first, s1))
    as (cause & [first' s1'] & Hstep & Hcause & Hlater).
  { unfold unreachable_aws. cbn [fst snd]. rewrite Hc1.
    repeat split; try assumption. cbn. by rewrite Hprovider. }
  assert (exists s2,
            _run_execution_pipeline service_env context opportunity s1
            = (Raise rollback_type_error, s2)
            /\ trace s2 = (trace s1' ++ [EvLog "execution_step_failed"
                                           [("step_id", VStr (step_id first'));
                                            ("step_name", VStr (step_name first'));
                                            ("error", VStr (exc_msg cause))]])%list
            /\ contexts s2 = contexts s1') as (s2 & Hpipe & Htr2 & Hctx2).
  { unfold _run_execution_pipeline, mbind, M_bind, bind.
    rewrite (_create_execution_steps_eq context opportunity s1 h Hh1), Hsteps.
    cbn [run_steps]. rewrite _run_execution_pipeline_body_eq, Hstep.
    eexists. split; [reflexivity |]. by split. }
  apply _execute_step_run in Hstep.
  destruct Hstep as (_ & _ & (new & Htr1 & Hshape) & _). cbn [fst snd] in *.
  destruct (step_run_attempts _ _ _ _ _ _ Hshape) as [Hattempts Hcount].
  destruct (step_run_sleeps _ _ _ _ _ _ Hshape) as [Hsleeps _].
  cbn [is_ok] in Hattempts, Hcount. rewrite Hrc, Hmr in *.
  destruct (failing_run service_env _ _ _ _ _ _ _ _ Hadmit Hpipe)
    as (b & final & pl & rb & d0 & d1 & d2 & d3 & -> & _ & Htr & Hpl & Hnorestore & Hfinal
        & Hrestore & Hrbattempts & Hrbsleeps & _ & _ & _ & Hrecord & _).
  cbn [fst snd]. split; [reflexivity |].
  rewrite Hexecution, Hrecord. do 2 (split; [reflexivity |]).
  assert (pl = new ++ [EvLog "execution_step_failed"
                         [("step_id", VStr (step_id first'));
                          ("step_name", VStr (step_name first'));
                          ("error", VStr (exc_msg cause))]])%list as ->.
  { rewrite Htr2, Htr1, <- app_assoc in Hpl. by apply app_inv_head in Hpl. }
  destruct Hlater as (_ & Hid' & Hname' & _ & _ & _ & Hbackup).
  cbn [fst] in Hid', Hname'. rewrite Hid', Hname', Hid, Hcause in *.
  unfold context_at in Hrestore, Hbackup. cbn [snd] in Hbackup.
  rewrite Hctx2, Hbackup in Hrestore.
  unfold events_since. rewrite Hfinal, Hpl, Htr, <- !app_assoc, drop_app_length.
  pose proof (count_events_none is_restore_call _ Hnorestore) as Hnone.
  rewrite count_events_app in Hnone.
  rewrite !count_events_app, Hrbattempts, Hrbsleeps, Hrestore.
  cbn in Hnone. rewrite dict_truthy_empty.
  do 3 (split; [destruct b; cbn; lia |]).
  rewrite !in_app_iff. do 2 right. left. by left.
Qed.

End ServiceWithoutClient.

Lemma engine_fails_on_aws_without_client_witness :
  fst (execute_optimization offline_env rightsizing_i_abc "alice" offline_engine)
  = Raise rollback_type_error
  /\ exec_status
       (execution_at 0%nat
          (snd (execute_optimization offline_env rightsizing_i_abc "alice" offline_engine)))
     = OS_FAILED.
Proof.
  destruct (engine_fails_on_aws_without_client sdk_down (fun w => (w, w + 1))
              (fun w => ("exec-" ++ pretty w, w)) rightsizing_i_abc "alice" offline_engine
              H_execute_rightsizing eq_refl eq_refl eq_refl)
    as (Hres & Hstatus & _).
  split; [exact Hres | exact Hstatus].
Defined.

Section ServiceInitialisation.
Context {World : Type}.
Context (settings : CloudProviderService.Settings).
Context (sdk : CloudProviderService.SdkCall -> World -> Result unit * World).


End ServiceInitialisation.


(** ** What the step runner does not look at *)

(** A step with other values in the four fields that the runner never
    reads: the description, the order, the timeout and the rollback steps. *)
Definition redeclared (description : string) (order timeout_minutes : Z)
    (rollback_steps : list string) (st : ExecutionStep) : ExecutionStep :=
  mkStep (step_id st) (step_name st) description (step_phase st) order
    timeout_minutes (step_retry_count st) (step_max_retries st) (step_status st)
    (step_started_at st) (step_completed_at st) (step_error_message st) rollback_steps
    (step_metadata st).

Section Unread.
Context {G : Type} (env : Env G).
Context (description : string) (order timeout_minutes : Z) (rollback_steps : list string).

Abbreviation other := (redeclared description order timeout_minutes rollback_steps).

(** [m] does the same on a step and on the redeclared step. *)
Definition ignores {A} (m : M (ExecutionStep * State G) A) : Prop :=
  forall st s, m (other st, s) = (fst (m (st, s)), (other (fst (snd (m (st, s)))),
                                                    snd (snd (m (st, s))))).

Lemma ignores_ret {A} (a : A) : ignores (ret a).
Proof. by intros st s. Qed.

Lemma ignores_raise {A} (e : Exc) : ignores (raise (A:=A) e).
Proof. by intros st s. Qed.

Lemma ignores_on_state {A} (m : M (State G) A) : ignores (on_state m).
Proof. intros st s. unfold on_state. cbn. by destruct (m s). Qed.

Lemma ignores_update_step (f : ExecutionStep -> ExecutionStep) :
  (forall st, f (other st) = other (f st)) -> ignores (update_step f).
Proof. intros Hf st s. unfold update_step. cbn. by rewrite Hf. Qed.

Lemma ignores_bind {A B} (m : M (ExecutionStep * State G) A)
    (k : A -> M (ExecutionStep * State G) B) :
  ignores m -> (forall a, ignores (k a)) -> ignores (bind m k).
Proof.
  intros Hm Hk st s. unfold bind. rewrite Hm.
  destruct (m (st, s)) as [[a|e] [st' s']]; cbn [fst snd]; [apply Hk | reflexivity].
Qed.

Lemma ignores_the_step {B} (k : ExecutionStep -> M (ExecutionStep * State G) B) :
  (forall st, k (other st) = k st) -> (forall st, ignores (k st)) ->
  ignores (bind the_step k).
Proof. intros Hsame Hk st s. unfold bind, the_step. cbn [fst snd]. rewrite Hsame. apply Hk. Qed.

Lemma ignores_observe_step : ignores (observe_step (G:=G)).
Proof. by intros st s. Qed.

Lemma ignores_for_each {A} (l : list A) (body : A -> M (ExecutionStep * State G) unit) :
  (forall a, ignores (body a)) -> ignores (for_each l body).
Proof.
  intros Hb. induction l as [|x l IH]; cbn [for_each].
  - apply ignores_ret.
  - apply ignores_bind; [apply Hb | intros _; exact IH].
Qed.

Ltac ignores_split :=
  unfold mbind, M_bind, mret, M_ret, assign_status, set_metadata;
  repeat first
    [ apply ignores_ret | apply ignores_raise | apply ignores_on_state
    | apply ignores_observe_step
    | apply ignores_update_step; intros ?; reflexivity
    | apply ignores_the_step; [intros ?; reflexivity | intros ?]
    | apply ignores_bind; [| intros ?]
    | apply ignores_for_each; intros ?
    | match goal with
      | |- ignores (match ?x with _ => _ end) => destruct x
      | |- ignores (let _ := _ in _) => cbv zeta
      end ].

Lemma ignores_try (context : loc) : ignores (_execute_step_try env context).
Proof.
  unfold _execute_step_try, _execute_step_dispatch,
    _execute_preparation_step, _execute_validation_step,
    _execute_backup_step, _execute_optimization_step, _execute_verification_step,
    _execute_completion_step.
  ignores_split.
Qed.

Lemma ignores_except (e : Exc) : ignores (_execute_step_except (G:=G) e).
Proof. unfold _execute_step_except. ignores_split. Qed.

(** X18.  The description, the order, the timeout and the rollback steps
    of a step are never read when the step is run.  With other values in
    these four fields [_execute_step] makes the same attempts with the same
    outcome, leaves the same engine state and the same trace, and changes
    the step in the same way: no timeout is enforced, and the rollback
    steps that a handler declares are not used. *)
Theorem step_runner_ignores_timeout_and_rollback_steps
    (context : loc) (st : ExecutionStep) (s : State G) :
  let plain := _execute_step env context (st, s) in
  _execute_step env context (other st, s)
  = (fst plain, (other (fst (snd plain)), snd (snd plain))).
Proof.
  cbv zeta. remember (retries_left st) as n eqn:Hn.
  revert st s Hn. induction n as [n IH] using lt_wf_ind. intros st s Hn.
  rewrite (_execute_step_body_eq env context (other st, s)).
  rewrite (_execute_step_body_eq env context (st, s)).
  set (s0 := set_trace (trace s ++ [EvEnter "_execute_step"]) s).
  change (enter_frame (other st, s)) with (other st, s0).
  change (enter_frame (st, s)) with (st, s0).
  rewrite ignores_try.
  pose proof (same_retries_try env context (st, s0)) as [Hrc Hmr].
  destruct (_execute_step_try env context (st, s0))
    as [[[]|e] [st1 s1]]; cbn [fst snd] in *; [reflexivity |].
  cbv zeta. rewrite !ignores_except.
  pose proof (_execute_step_except_eq e st1 s1) as Hexc.
  destruct (_execute_step_except e (st1, s1)) as [r2 [st2 s2]]. cbn [fst snd] in *.
  injection Hexc as Hst2 Hs2.
  change (step_retry_count (other st2)) with (step_retry_count st2).
  change (step_max_retries (other st2)) with (step_max_retries st2).
  destruct (step_retry_count st2 <? step_max_retries st2) eqn:Hlt; [| reflexivity].
  apply Z.ltb_lt in Hlt.
  set (s3 := set_trace (trace s2 ++ [EvSleep 5]) s2).
  change (snd (on_state (asyncio_sleep 5) (other st2, s2))) with (other st2, s3).
  change (snd (on_state (asyncio_sleep 5) (st2, s2))) with (st2, s3).
  rewrite (IH (retries_left st2)); [| | reflexivity].
  - by destruct (_execute_step env context _) as [r4 [st4 s4]].
  - subst n st2. unfold retries_left. cbn in Hlt |- *. lia.
Qed.

End Unread.
